(** * The calculator of [script.js]: expression evaluator, history store and
      editing state machine, embedded in Rocq.

    The JavaScript program keeps three module variables ([currentInput],
    [expression], [history]) and mutates them from event handlers.  The
    embedding below makes that state an explicit record and every handler a
    function on it.  The host facilities the handlers call (string methods,
    IEEE-754 arithmetic, [Number.prototype.toString], [toFixed], [parseFloat],
    the [Function] constructor on a whitelisted program text, [new RegExp],
    [JSON.parse]) are modelled after ECMA-262, each in its own module.

    What is taken from the page and the browser: the elements the script
    looks up at load time exist, the page allows the [Function] constructor,
    and [Date.now()] is an argument of the handlers that read it. *)

From Stdlib Require Import Ascii String ZArith NArith List Bool Lia.
From Stdlib Require Import Floats.SpecFloat.
Import ListNotations.

Local Open Scope Z_scope.

(* ===================================================================== *)
(** * JavaScript strings *)
(* ===================================================================== *)

(** A JavaScript string is a sequence of UTF-16 code units.  Code units are
    kept as [N]; literals of the source that are plain ASCII are written with
    [js "..."]. *)
Module JSString.

Definition char := N.
Definition jsstring := list char.

Definition js (s : string) : jsstring :=
  map N_of_ascii (list_ascii_of_string s).

Definition ch (a : ascii) : char := N_of_ascii a.

(** [a === b] on two strings. *)
Fixpoint str_eqb (a b : jsstring) : bool :=
  match a, b with
  | [], [] => true
  | x :: a', y :: b' => N.eqb x y && str_eqb a' b'
  | _, _ => false
  end.

(** Truthiness of a string: [!s] is [negb (truthy s)]. *)
Definition truthy (s : jsstring) : bool :=
  match s with [] => false | _ => true end.

(** [s.slice(0, -1)]: all but the last code unit. *)
Definition slice_0_m1 (s : jsstring) : jsstring := removelast s.

(** [s.slice(-1)]: the last code unit, as a string (empty on empty). *)
Fixpoint slice_m1 (s : jsstring) : jsstring :=
  match s with
  | [] => []
  | [c] => [c]
  | _ :: s' => slice_m1 s'
  end.

(** [s.substring(n)] and [s.substring(0, n)] for [0 <= n]. *)
Definition substring_from (n : nat) (s : jsstring) : jsstring := skipn n s.
Definition substring_to (n : nat) (s : jsstring) : jsstring := firstn n s.

(** [s.includes(c)] for a one-unit needle. *)
Definition includes (c : char) (s : jsstring) : bool := existsb (N.eqb c) s.

(** [xs.includes(s)] for an array [xs] of strings. *)
Definition array_includes (xs : list jsstring) (s : jsstring) : bool :=
  existsb (str_eqb s) xs.

(** [s.replace(/c/g, d)] for a one-unit pattern and replacement. *)
Definition replace_all (c d : char) (s : jsstring) : jsstring :=
  map (fun x => if N.eqb x c then d else x) s.

Definition is_digit (c : char) : bool := (48 <=? c)%N && (c <=? 57)%N.

(** The four canonical operator characters. *)
Definition is_op (c : char) : bool :=
  N.eqb c 43 || N.eqb c 45 || N.eqb c 42 || N.eqb c 47.

(** The display glyphs: U+00D7 (multiplication sign), U+00F7 (division
    sign). *)
Definition TIMES : char := 215%N.
Definition DIVIDE : char := 247%N.

(** [\s] of a regular expression: WhiteSpace and LineTerminator. *)
Definition is_space (c : char) : bool :=
  ((9 <=? c) && (c <=? 13) || N.eqb c 32 || N.eqb c 160 || N.eqb c 5760
   || (8192 <=? c) && (c <=? 8202) || N.eqb c 8232 || N.eqb c 8233
   || N.eqb c 8239 || N.eqb c 8287 || N.eqb c 12288 || N.eqb c 65279)%N.

(** Decimal digits of a non-negative integer, most significant first. *)
Fixpoint digits_fuel (fuel : nat) (n : Z) (acc : jsstring) : jsstring :=
  match fuel with
  | O => acc
  | S fuel' =>
      let acc' := (48 + Z.to_N (n mod 10))%N :: acc in
      if n <? 10 then acc' else digits_fuel fuel' (n / 10) acc'
  end.

Definition digits_of_Z (n : Z) : jsstring :=
  digits_fuel (S (Z.to_nat (Z.log2 n))) n [].

(** Value of a digit string in base [b] (digits assumed below [b]). *)
Definition Z_of_digits (b : Z) (s : jsstring) : Z :=
  fold_left (fun acc c => acc * b + (Z.of_N c - 48)) s 0.

Definition zeros (n : nat) : jsstring := repeat 48%N n.

End JSString.
Import JSString.

(* ===================================================================== *)
(** * Numbers: IEEE-754 binary64 *)
(* ===================================================================== *)

(** The Number type is binary64: the specification floats of the standard
    library at precision 53 and maximal exponent 1024, rounding to nearest,
    ties to even. *)
Module Number.

Definition number := spec_float.

Definition prec : Z := 53.
Definition emax : Z := 1024.

Definition NaN : number := S754_nan.
Definition add : number -> number -> number := SFadd prec emax.
Definition sub : number -> number -> number := SFsub prec emax.
Definition mul : number -> number -> number := SFmul prec emax.
Definition div : number -> number -> number := SFdiv prec emax.
Definition neg : number -> number := SFopp.

(** The Number value for the rational [n / d] ([0 <= n], [0 < d]) with
    sign [s]: the quotient is taken with enough bits and a rounding
    location, then rounded as the arithmetic operations round. *)
Definition of_ratio (s : bool) (n d : Z) : number :=
  match n with
  | Z0 => S754_zero s
  | _ =>
      let '(mz, ez, lz) := SFdiv_core_binary prec emax n 0 d 0 in
      binary_round_aux prec emax s mz ez lz
  end.

(** The Number value for [m * 10^e] with sign [s] ([0 <= m]). *)
Definition of_decimal (s : bool) (m e : Z) : number :=
  if 0 <=? e then of_ratio s (m * 10 ^ e) 1 else of_ratio s m (10 ^ (- e)).

Definition of_Z (z : Z) : number :=
  of_ratio (z <? 0) (Z.abs z) 1.

(** The exact value [m * 2^e] of a finite float as a fraction. *)
Definition ratio_of (m : positive) (e : Z) : Z * Z :=
  if 0 <=? e then (Zpos m * 2 ^ e, 1) else (Zpos m, 2 ^ (- e)).

Definition is_nan (x : number) : bool :=
  match x with S754_nan => true | _ => false end.

(** [isFinite] on a Number. *)
Definition is_finite (x : number) : bool :=
  match x with S754_zero _ | S754_finite _ _ _ => true | _ => false end.

(** [Number.isInteger] on a Number: finite with no fractional part. *)
Definition is_integer (x : number) : bool :=
  match x with
  | S754_zero _ => true
  | S754_finite _ m e =>
      let '(n, d) := ratio_of m e in (n mod d =? 0)
  | _ => false
  end.

(** [x === y] on Numbers. *)
Definition eqb (x y : number) : bool := SFeqb x y.

(** The integer part of a finite Number, towards zero. *)
Definition integer_value (x : number) : Z :=
  match x with
  | S754_finite s m e =>
      let '(n, d) := ratio_of m e in if s then - (n / d) else n / d
  | _ => 0
  end.

(** ** Number::toString, radix 10

    For a positive finite [x], ECMA-262 picks integers [n], [k], [s] with
    [k >= 1], [10^(k-1) <= s < 10^k], [s * 10^(n-k)] rounding to [x], and
    [k] as small as possible; among several [s], the one closest to [x],
    the even one on a tie. *)

(** [num/den < 10^n]. *)
Definition below (num den n : Z) : bool :=
  if 0 <=? n then num <? 10 ^ n * den else num * 10 ^ (- n) <? den.

(** [10^(n-1) <= num/den < 10^n], searched upwards from [n]. *)
Fixpoint magnitude_fuel (fuel : nat) (num den : Z) (n : Z) : Z :=
  match fuel with
  | O => n
  | S fuel' =>
      if below num den n then n else magnitude_fuel fuel' num den (n + 1)
  end.

Definition magnitude (num den : Z) : Z :=
  magnitude_fuel 700 num den (-330).

(** The candidates with [k] digits: the two integers around
    [x / 10^(n0-k)]; the upper one may reach [10^k], which is written
    [10^(k-1)] one decade up.  Returns [(s, n)] of the chosen candidate. *)
Definition candidate (x : number) (num den n0 k : Z) : option (Z * Z) :=
  let '(tn, td) :=
    if 0 <=? k - n0 then (num * 10 ^ (k - n0), den)
    else (num, den * 10 ^ (n0 - k)) in
  let lo := tn / td in
  let r := tn mod td in
  let hi := if lo + 1 <? 10 ^ k then (lo + 1, n0) else (10 ^ (k - 1), n0 + 1) in
  let ok_lo := eqb (of_decimal false lo (n0 - k)) x in
  let ok_hi := eqb (of_decimal false (fst hi) (snd hi - k)) x in
  let prefer_lo :=
    match Z.compare (2 * r) td with
    | Lt => true
    | Gt => false
    | Eq => Z.even lo
    end in
  match ok_lo, ok_hi with
  | true, true => Some (if prefer_lo then (lo, n0) else hi)
  | true, false => Some (lo, n0)
  | false, true => Some hi
  | false, false => None
  end.

Fixpoint shortest_fuel (fuel : nat) (x : number) (num den n0 k : Z)
  : Z * Z * Z :=
  match fuel with
  | O => (n0, k, num / den)
  | S fuel' =>
      match candidate x num den n0 k with
      | Some (s, n) => (n, k, s)
      | None => shortest_fuel fuel' x num den n0 (k + 1)
      end
  end.

(** [(n, k, s)] for a positive finite float. *)
Definition shortest (m : positive) (e : Z) : Z * Z * Z :=
  let '(num, den) := ratio_of m e in
  shortest_fuel 17 (S754_finite false m e) num den (magnitude num den) 1.

Definition exponent_text (n : Z) : jsstring :=
  ch "e" :: (if 0 <=? n - 1 then ch "+" else ch "-")
         :: digits_of_Z (Z.abs (n - 1)).

Definition layout (n k : Z) (digits : jsstring) : jsstring :=
  if (k <=? n) && (n <=? 21) then
    digits ++ zeros (Z.to_nat (n - k))
  else if (0 <? n) && (n <=? 21) then
    firstn (Z.to_nat n) digits ++ ch "." :: skipn (Z.to_nat n) digits
  else if (-6 <? n) && (n <=? 0) then
    js "0." ++ zeros (Z.to_nat (- n)) ++ digits
  else if k =? 1 then
    digits ++ exponent_text n
  else
    firstn 1 digits ++ ch "." :: skipn 1 digits ++ exponent_text n.

Definition toString (x : number) : jsstring :=
  match x with
  | S754_nan => js "NaN"
  | S754_zero _ => js "0"
  | S754_infinity s => (if s then js "-" else []) ++ js "Infinity"
  | S754_finite s m e =>
      let '(n, k, d) := shortest m e in
      (if s then js "-" else []) ++ layout n k (digits_of_Z d)
  end.

(** ** Number.prototype.toFixed(f)

    Not finite: as [toString].  At or above [10^21]: as [toString].
    Otherwise the integer [n] with [n / 10^f] closest to [x], the larger of
    two; written with [f] digits after the point. *)
Definition toFixed (f : nat) (x : number) : jsstring :=
  let fixed (s : bool) (num den : Z) : jsstring :=
    if 10 ^ 21 * den <=? num then
      (if s then js "-" else []) ++ toString (SFabs x)
    else
      let n := (2 * num * 10 ^ Z.of_nat f + den) / (2 * den) in
      let m := digits_of_Z n in
      let m := if (f =? 0)%nat then m
               else
                 let m := zeros (S f - length m)%nat ++ m in
                 let a := (length m - f)%nat in
                 firstn a m ++ ch "." :: skipn a m in
      (if s then js "-" else []) ++ m in
  match x with
  | S754_zero _ => fixed false 0 1
  | S754_finite s m e => let '(num, den) := ratio_of m e in fixed s num den
  | _ => toString x
  end.

(** ** parseFloat

    Leading white space is skipped; the longest prefix that is a
    [StrDecimalLiteral] is converted, [NaN] when there is none. *)
Fixpoint span_digits (s : jsstring) : jsstring * jsstring :=
  match s with
  | c :: s' =>
      if is_digit c then let '(d, r) := span_digits s' in (c :: d, r)
      else ([], s)
  | [] => ([], [])
  end.

Fixpoint skip_space (s : jsstring) : jsstring :=
  match s with
  | c :: s' => if is_space c then skip_space s' else s
  | [] => []
  end.

Fixpoint starts_with (p s : jsstring) : bool :=
  match p, s with
  | [], _ => true
  | x :: p', y :: s' => N.eqb x y && starts_with p' s'
  | _, [] => false
  end.

(** The exponent part [e], optional sign, digits: its value, when
    complete. *)
Definition exponent_part (s : jsstring) : Z :=
  match s with
  | c :: s' =>
      if N.eqb c 101 || N.eqb c 69 then
        let '(sg, s'') :=
          match s' with
          | d :: t => if N.eqb d 43 then (false, t)
                      else if N.eqb d 45 then (true, t) else (false, s')
          | [] => (false, s')
          end in
        let '(ds, _) := span_digits s'' in
        let v := Z_of_digits 10 ds in
        if sg then - v else v
      else 0
  | [] => 0
  end.

Definition unsigned_decimal (s : bool) (t : jsstring) : number :=
  if starts_with (js "Infinity") t then S754_infinity s
  else
    let '(ip, r) := span_digits t in
    let '(fp, r') :=
      match r with
      | c :: r1 => if N.eqb c 46 then span_digits r1 else ([], r)
      | [] => ([], r)
      end in
    match ip, fp with
    | [], [] => NaN
    | _, _ =>
        of_decimal s (Z_of_digits 10 (ip ++ fp))
                   (exponent_part r' - Z.of_nat (length fp))
    end.

Definition parseFloat (s : jsstring) : number :=
  match skip_space s with
  | c :: t =>
      if N.eqb c 43 then unsigned_decimal false t
      else if N.eqb c 45 then unsigned_decimal true t
      else unsigned_decimal false (c :: t)
  | [] => NaN
  end.

End Number.

Import Number.

(* ===================================================================== *)
(** * Programs over the whitelist: [new Function('return ' + text)()] *)
(* ===================================================================== *)

(** [evaluateExpression] hands the host a program text made of the
    characters [0-9 + - * / . ( )] only.  Over that alphabet the ECMAScript
    grammar has numeric literals (decimal, and in this non-strict code the
    legacy octal forms), regular expression literals, comments, the prefix
    and postfix operators, the binary operators [+ - * / **], parentheses
    and calls.  Parsing and evaluation follow ECMA-262; a program that
    cannot complete normally (SyntaxError when the function is built,
    TypeError when it runs) has no result. *)
Module JSProgram.

Inductive punct :=
| PPlus | PMinus | PStar | PSlash | PStarStar | PPlusPlus | PMinusMinus
| PLParen | PRParen | PDot.

Inductive token :=
| TNum (x : number)
| TRegex
| TPunct (p : punct)
| TEOF.

Inductive binop := Add | Sub | Mul | Div | Exp.

Inductive expr :=
| Lit (x : number)
| Regex
| Plus (e : expr)
| Minus (e : expr)
| Bin (op : binop) (l r : expr).

(** Results of evaluation.  [VOther] stands for a RegExp object or a
    string built from one by [+]: its text contains a slash, so ToNumber
    of it is NaN, and [+] with it concatenates. *)
Inductive value :=
| VUndefined
| VNumber (x : number)
| VOther.

(** ** Lexical grammar *)

(** The text after the first [*/], inside a block comment. *)
Fixpoint after_block_comment (s : jsstring) : option jsstring :=
  match s with
  | a :: s' =>
      match s' with
      | b :: s'' =>
          if N.eqb a 42 && N.eqb b 47 then Some s''
          else after_block_comment s'
      | [] => None
      end
  | [] => None
  end.

(** Comments before a token.  A line comment runs to the end of the text
    (the text holds no line terminator); an unterminated block comment is
    an error. *)
Fixpoint skip_comments (fuel : nat) (s : jsstring) : option jsstring :=
  match fuel with
  | O => Some s
  | S fuel' =>
      match s with
      | a :: b :: s' =>
          if N.eqb a 47 && N.eqb b 47 then Some []
          else if N.eqb a 47 && N.eqb b 42 then
            match after_block_comment s' with
            | Some r => skip_comments fuel' r
            | None => None
            end
          else Some s
      | _ => Some s
      end
  end.

Definition is_octal_digit (c : char) : bool := (48 <=? c)%N && (c <=? 55)%N.

(** A numeric literal at the head of [s], which starts with a digit or
    with a point followed by a digit. *)
Definition lex_number (s : jsstring) : number * jsstring :=
  let '(ip, r) := span_digits s in
  let with_fraction :=
    match r with
    | c :: r1 =>
        if N.eqb c 46 then
          let '(fp, r2) := span_digits r1 in
          (of_decimal false (Z_of_digits 10 (ip ++ fp))
                      (- Z.of_nat (length fp)), r2)
        else (of_decimal false (Z_of_digits 10 ip) 0, r)
    | [] => (of_decimal false (Z_of_digits 10 ip) 0, r)
    end in
  match ip with
  | z :: _ :: _ =>
      if N.eqb z 48 && forallb is_octal_digit ip
      then (of_decimal false (Z_of_digits 8 ip) 0, r)
      else with_fraction
  | _ => with_fraction
  end.

(** The body of a regular expression literal over the alphabet, as a
    pattern: groups balance and each quantifier follows an atom. *)
Fixpoint valid_pattern (depth : nat) (atom : bool) (s : jsstring) : bool :=
  match s with
  | [] => match depth with O => true | S _ => false end
  | c :: s' =>
      if N.eqb c 40 then valid_pattern (S depth) false s'
      else if N.eqb c 41 then
        match depth with
        | O => false
        | S d => valid_pattern d true s'
        end
      else if N.eqb c 42 || N.eqb c 43 then
        atom && valid_pattern depth false s'
      else valid_pattern depth true s'
  end.

Fixpoint span_regex_body (s : jsstring) : option (jsstring * jsstring) :=
  match s with
  | c :: s' =>
      if N.eqb c 47 then Some ([], s')
      else match span_regex_body s' with
           | Some (b, r) => Some (c :: b, r)
           | None => None
           end
  | [] => None
  end.

(** A regular expression literal; [s] follows the opening slash.  A digit
    after the closing slash would be a flag, and no digit is one. *)
Definition lex_regex (s : jsstring) : option (token * jsstring) :=
  match span_regex_body s with
  | Some (body, r) =>
      let flag := match r with c :: _ => is_digit c | [] => false end in
      if negb flag && valid_pattern 0 false body then Some (TRegex, r)
      else None
  | None => None
  end.

(** The next token.  [operand] tells whether the grammar expects an
    operand there, where a slash opens a regular expression literal. *)
Definition lex (operand : bool) (s : jsstring) : option (token * jsstring) :=
  match skip_comments (length s) s with
  | None => None
  | Some [] => Some (TEOF, [])
  | Some ((c :: r) as s0) =>
      if is_digit c then
        let '(x, r') := lex_number s0 in Some (TNum x, r')
      else if N.eqb c 46 then
        match r with
        | d :: _ =>
            if is_digit d then
              let '(x, r') := lex_number s0 in Some (TNum x, r')
            else Some (TPunct PDot, r)
        | [] => Some (TPunct PDot, r)
        end
      else if N.eqb c 43 then
        match r with
        | d :: r' => if N.eqb d 43 then Some (TPunct PPlusPlus, r')
                     else Some (TPunct PPlus, r)
        | [] => Some (TPunct PPlus, r)
        end
      else if N.eqb c 45 then
        match r with
        | d :: r' => if N.eqb d 45 then Some (TPunct PMinusMinus, r')
                     else Some (TPunct PMinus, r)
        | [] => Some (TPunct PMinus, r)
        end
      else if N.eqb c 42 then
        match r with
        | d :: r' => if N.eqb d 42 then Some (TPunct PStarStar, r')
                     else Some (TPunct PStar, r)
        | [] => Some (TPunct PStar, r)
        end
      else if N.eqb c 47 then
        if operand then lex_regex r else Some (TPunct PSlash, r)
      else if N.eqb c 40 then Some (TPunct PLParen, r)
      else if N.eqb c 41 then Some (TPunct PRParen, r)
      else None
  end.

(** ** Syntactic grammar

    Recursive descent, one function per nonterminal.  A postfix or prefix
    [++]/[--] is an early error (no operand here is an assignment
    target); a unary expression on the left of [**] is a syntax error; a
    call applies a number or a RegExp and throws a TypeError. *)
Fixpoint additive (fuel : nat) (s : jsstring) : option (expr * jsstring) :=
  match fuel with
  | O => None
  | S f =>
      match multiplicative f s with
      | Some (l, r) => additive_rest f l r
      | None => None
      end
  end
with additive_rest (fuel : nat) (l : expr) (s : jsstring)
  : option (expr * jsstring) :=
  match fuel with
  | O => None
  | S f =>
      match lex false s with
      | Some (TPunct PPlus, r) =>
          match multiplicative f r with
          | Some (e, r') => additive_rest f (Bin Add l e) r'
          | None => None
          end
      | Some (TPunct PMinus, r) =>
          match multiplicative f r with
          | Some (e, r') => additive_rest f (Bin Sub l e) r'
          | None => None
          end
      | Some _ => Some (l, s)
      | None => None
      end
  end
with multiplicative (fuel : nat) (s : jsstring) : option (expr * jsstring) :=
  match fuel with
  | O => None
  | S f =>
      match exponentiation f s with
      | Some (l, r) => multiplicative_rest f l r
      | None => None
      end
  end
with multiplicative_rest (fuel : nat) (l : expr) (s : jsstring)
  : option (expr * jsstring) :=
  match fuel with
  | O => None
  | S f =>
      match lex false s with
      | Some (TPunct PStar, r) =>
          match exponentiation f r with
          | Some (e, r') => multiplicative_rest f (Bin Mul l e) r'
          | None => None
          end
      | Some (TPunct PSlash, r) =>
          match exponentiation f r with
          | Some (e, r') => multiplicative_rest f (Bin Div l e) r'
          | None => None
          end
      | Some _ => Some (l, s)
      | None => None
      end
  end
with exponentiation (fuel : nat) (s : jsstring) : option (expr * jsstring) :=
  match fuel with
  | O => None
  | S f =>
      match lex true s with
      | Some (TPunct PPlus, _) | Some (TPunct PMinus, _) =>
          match unary f s with
          | Some (u, r) =>
              match lex false r with
              | Some (TPunct PStarStar, _) => None
              | Some _ => Some (u, r)
              | None => None
              end
          | None => None
          end
      | _ =>
          match postfix f s with
          | Some (b, r) =>
              match lex false r with
              | Some (TPunct PStarStar, r') =>
                  match exponentiation f r' with
                  | Some (e, r'') => Some (Bin Exp b e, r'')
                  | None => None
                  end
              | Some _ => Some (b, r)
              | None => None
              end
          | None => None
          end
      end
  end
with unary (fuel : nat) (s : jsstring) : option (expr * jsstring) :=
  match fuel with
  | O => None
  | S f =>
      match lex true s with
      | Some (TPunct PPlus, r) =>
          match unary f r with
          | Some (e, r') => Some (Plus e, r')
          | None => None
          end
      | Some (TPunct PMinus, r) =>
          match unary f r with
          | Some (e, r') => Some (Minus e, r')
          | None => None
          end
      | _ => postfix f s
      end
  end
with postfix (fuel : nat) (s : jsstring) : option (expr * jsstring) :=
  match fuel with
  | O => None
  | S f =>
      match primary f s with
      | Some (p, r) =>
          match lex false r with
          | Some (TPunct PPlusPlus, _) | Some (TPunct PMinusMinus, _) => None
          | Some (TPunct PLParen, _) => None
          | Some _ => Some (p, r)
          | None => None
          end
      | None => None
      end
  end
with primary (fuel : nat) (s : jsstring) : option (expr * jsstring) :=
  match fuel with
  | O => None
  | S f =>
      match lex true s with
      | Some (TNum x, r) => Some (Lit x, r)
      | Some (TRegex, r) => Some (Regex, r)
      | Some (TPunct PLParen, r) =>
          match additive f r with
          | Some (e, r') =>
              match lex false r' with
              | Some (TPunct PRParen, r'') => Some (e, r'')
              | _ => None
              end
          | None => None
          end
      | _ => None
      end
  end.

(** ** Evaluation *)

Definition to_number (v : value) : number :=
  match v with VNumber x => x | _ => NaN end.

Definition is_odd_integer (x : number) : bool :=
  match x with
  | S754_finite _ m e =>
      let '(n, d) := ratio_of m e in (n mod d =? 0) && Z.odd (n / d)
  | _ => false
  end.

Section Exponentiate.

(** Number::exponentiate leaves the result for finite non-zero operands
    to the implementation ("an implementation-approximated Number
    value"): the host's approximation is a parameter. *)
Variable host_pow : number -> number -> number.

Definition exponentiate (base exponent : number) : number :=
  match exponent with
  | S754_nan => NaN
  | S754_zero _ => of_Z 1
  | _ =>
      let positive :=
        match exponent with
        | S754_infinity s | S754_finite s _ _ => negb s
        | _ => false
        end in
      let odd := is_odd_integer exponent in
      match base with
      | S754_nan => NaN
      | S754_infinity false =>
          if positive then S754_infinity false else S754_zero false
      | S754_infinity true =>
          if positive then S754_infinity odd else S754_zero odd
      | S754_zero false =>
          if positive then S754_zero false else S754_infinity false
      | S754_zero true =>
          if positive then S754_zero odd else S754_infinity odd
      | S754_finite sb _ _ =>
          match exponent with
          | S754_infinity se =>
              match SFcompare (SFabs base) (of_Z 1) with
              | Some Gt =>
                  if se then S754_zero false else S754_infinity false
              | Some Lt =>
                  if se then S754_infinity false else S754_zero false
              | _ => NaN
              end
          | _ =>
              if sb && negb (is_integer exponent) then NaN
              else host_pow base exponent
          end
      end
  end.

Fixpoint eval (e : expr) : value :=
  match e with
  | Lit x => VNumber x
  | Regex => VOther
  | Plus a => VNumber (to_number (eval a))
  | Minus a => VNumber (neg (to_number (eval a)))
  | Bin Add a b =>
      match eval a, eval b with
      | VNumber x, VNumber y => VNumber (add x y)
      | _, _ => VOther
      end
  | Bin Sub a b => VNumber (sub (to_number (eval a)) (to_number (eval b)))
  | Bin Mul a b => VNumber (mul (to_number (eval a)) (to_number (eval b)))
  | Bin Div a b => VNumber (div (to_number (eval a)) (to_number (eval b)))
  | Bin Exp a b =>
      VNumber (exponentiate (to_number (eval a)) (to_number (eval b)))
  end.

(** [new Function('return ' + text)()]: the value returned, or [None]
    when building or running the function throws.  A text that is only
    a comment returns [undefined]. *)
Definition run (text : jsstring) : option value :=
  match lex true text with
  | Some (TEOF, _) => Some VUndefined
  | _ =>
      match additive (8 * length text + 16) text with
      | Some (e, r) =>
          match lex false r with
          | Some (TEOF, _) => Some (eval e)
          | _ => None
          end
      | None => None
      end
  end.

End Exponentiate.

(** A host approximation that is correctly rounded whenever the exponent
    is integral (the exact rational power, rounded once); it is used to
    instantiate the development on concrete runs. *)
Definition integral_pow (base exponent : number) : number :=
  match base, exponent with
  | S754_finite sb mb eb, S754_finite se me ee =>
      let '(bn, bd) := ratio_of mb eb in
      let '(en, ed) := ratio_of me ee in
      if en mod ed =? 0 then
        let n := en / ed in
        let s := sb && Z.odd n in
        if se then of_ratio s (bd ^ n) (bn ^ n)
        else of_ratio s (bn ^ n) (bd ^ n)
      else NaN
  | _, _ => NaN
  end.

End JSProgram.

(* ===================================================================== *)
(** * Regular expressions built from a string: [new RegExp(pattern)] *)
(* ===================================================================== *)

(** [handleNumberClick] builds its pattern at run time, so the pattern text
    is parsed here as the [RegExp] constructor parses it (ECMA-262 22.2.1,
    with the web-compatibility grammar of Annex B, no flags).  The part of
    the pattern language covered: alternation, the assertions [^] and [$],
    the dot, character classes with ranges and negation, the escape [\d]
    and identity escapes of punctuation, capturing and [(?:] groups, and
    the quantifiers [* + ?] with their lazy forms.  Anything else is
    reported as [Unsupported], never guessed. *)
Module RegExp.

Inductive result (A : Type) :=
| Ok (a : A)
| SyntaxError
| Unsupported.
Arguments Ok {A} a.
Arguments SyntaxError {A}.
Arguments Unsupported {A}.

Inductive regex :=
| Empty
| Bol
| Eol
| Chars (negated : bool) (ranges : list (char * char))
| Seq (a b : regex)
| Alt (a b : regex)
| Repeat (min : nat) (max : option nat) (greedy : bool) (a : regex)
| Group (index : nat) (a : regex).

Inductive class_atom :=
| CChar (c : char)
| CSet (ranges : list (char * char)).

Definition digit_ranges : list (char * char) := [(48, 57)]%N.

Definition is_alnum (c : char) : bool :=
  (is_digit c || (65 <=? c) && (c <=? 90) || (97 <=? c) && (c <=? 122)
   || N.eqb c 95)%N.

(** One ClassAtom at the head of a class body. *)
Definition parse_class_atom (s : jsstring)
  : result (class_atom * jsstring) :=
  match s with
  | [] => SyntaxError
  | c :: r =>
      if N.eqb c 92 then
        match r with
        | [] => SyntaxError
        | e :: r' =>
            if N.eqb e 100 then Ok (CSet digit_ranges, r')
            else if is_alnum e then Unsupported
            else Ok (CChar e, r')
        end
      else Ok (CChar c, r)
  end.

Definition atom_ranges (a : class_atom) : list (char * char) :=
  match a with CChar c => [(c, c)] | CSet rs => rs end.

(** ClassRanges up to the closing bracket.  [a-b] between two single
    characters is a range, and a syntax error when [a] is above [b]
    ("Range out of order in character class"). *)
Fixpoint parse_class_ranges (fuel : nat) (s : jsstring)
         (acc : list (char * char))
  : result (list (char * char) * jsstring) :=
  match fuel with
  | O => SyntaxError
  | S fuel' =>
      match s with
      | [] => SyntaxError
      | c :: r =>
          if N.eqb c 93 then Ok (acc, r)
          else
            match parse_class_atom s with
            | Ok (a, r1) =>
                match r1 with
                | d :: r2 =>
                    if N.eqb d 45 then
                      match r2 with
                      | [] => SyntaxError
                      | e :: _ =>
                          if N.eqb e 93 then
                            parse_class_ranges fuel' r1 (acc ++ atom_ranges a)
                          else
                            match parse_class_atom r2 with
                            | Ok (b, r3) =>
                                match a, b with
                                | CChar x, CChar y =>
                                    if (y <? x)%N then SyntaxError
                                    else parse_class_ranges fuel' r3
                                           (acc ++ [(x, y)])
                                | _, _ =>
                                    parse_class_ranges fuel' r3
                                      (acc ++ atom_ranges a ++ [(45, 45)%N]
                                           ++ atom_ranges b)
                                end
                            | SyntaxError => SyntaxError
                            | Unsupported => Unsupported
                            end
                      end
                    else parse_class_ranges fuel' r1 (acc ++ atom_ranges a)
                | [] => SyntaxError
                end
            | SyntaxError => SyntaxError
            | Unsupported => Unsupported
            end
      end
  end.

(** A character class; [s] follows the opening bracket. *)
Definition parse_class (s : jsstring) : result (regex * jsstring) :=
  let '(negated, body) :=
    match s with
    | c :: r => if N.eqb c 94 then (true, r) else (false, s)
    | [] => (false, s)
    end in
  match parse_class_ranges (S (length body)) body [] with
  | Ok (rs, r) => Ok (Chars negated rs, r)
  | SyntaxError => SyntaxError
  | Unsupported => Unsupported
  end.

(** An optional quantifier after an atom. *)
Definition parse_quantifier (a : regex) (s : jsstring) : regex * jsstring :=
  let lazy (min : nat) (max : option nat) (r : jsstring) :=
    match r with
    | q :: r' => if N.eqb q 63 then (Repeat min max false a, r')
                 else (Repeat min max true a, r)
    | [] => (Repeat min max true a, r)
    end in
  match s with
  | c :: r =>
      if N.eqb c 42 then lazy 0%nat None r
      else if N.eqb c 43 then lazy 1%nat None r
      else if N.eqb c 63 then lazy 0%nat (Some 1%nat) r
      else (a, s)
  | [] => (a, s)
  end.

Definition line_terminators : list (char * char) :=
  [(10, 10); (13, 13); (8232, 8233)]%N.

(** Disjunction, Alternative and Term.  [n] counts the capturing groups
    opened so far; [depth] is the number of groups still open. *)
Fixpoint disjunction (fuel : nat) (depth n : nat) (s : jsstring)
  : result (regex * nat * jsstring) :=
  match fuel with
  | O => Unsupported
  | S f =>
      match alternative f depth n s with
      | Ok (a, n1, r) =>
          match r with
          | c :: r' =>
              if N.eqb c 124 then
                match disjunction f depth n1 r' with
                | Ok (b, n2, r'') => Ok (Alt a b, n2, r'')
                | e => e
                end
              else Ok (a, n1, r)
          | [] => Ok (a, n1, r)
          end
      | e => e
      end
  end
with alternative (fuel : nat) (depth n : nat) (s : jsstring)
  : result (regex * nat * jsstring) :=
  match fuel with
  | O => Unsupported
  | S f =>
      match s with
      | [] => Ok (Empty, n, s)
      | c :: r =>
          if N.eqb c 124 then Ok (Empty, n, s)
          else if N.eqb c 41 then
            match depth with
            | O => SyntaxError
            | S _ => Ok (Empty, n, s)
            end
          else
            match term f depth n s with
            | Ok (a, n1, r1) =>
                match alternative f depth n1 r1 with
                | Ok (b, n2, r2) => Ok (Seq a b, n2, r2)
                | e => e
                end
            | e => e
            end
      end
  end
with term (fuel : nat) (depth n : nat) (s : jsstring)
  : result (regex * nat * jsstring) :=
  match fuel with
  | O => Unsupported
  | S f =>
      let quantified (a : regex) (n1 : nat) (r : jsstring) :=
        let '(q, r') := parse_quantifier a r in Ok (q, n1, r') in
      match s with
      | [] => Ok (Empty, n, s)
      | c :: r =>
          if N.eqb c 94 then Ok (Bol, n, r)
          else if N.eqb c 36 then Ok (Eol, n, r)
          else if N.eqb c 42 || N.eqb c 43 || N.eqb c 63 then SyntaxError
          else if N.eqb c 123 || N.eqb c 125 then Unsupported
          else if N.eqb c 46 then
            quantified (Chars true line_terminators) n r
          else if N.eqb c 92 then
            match r with
            | [] => SyntaxError
            | e :: r' =>
                if N.eqb e 100 then quantified (Chars false digit_ranges) n r'
                else if is_alnum e then Unsupported
                else quantified (Chars false [(e, e)]) n r'
            end
          else if N.eqb c 91 then
            match parse_class r with
            | Ok (a, r') => quantified a n r'
            | SyntaxError => SyntaxError
            | Unsupported => Unsupported
            end
          else if N.eqb c 40 then
            match r with
            | q :: r' =>
                if N.eqb q 63 then
                  match r' with
                  | k :: r'' =>
                      if N.eqb k 58 then
                        match disjunction f (S depth) n r'' with
                        | Ok (a, n1, p :: r3) => quantified a n1 r3
                        | Ok (_, _, []) => SyntaxError
                        | e => e
                        end
                      else Unsupported
                  | [] => SyntaxError
                  end
                else
                  match disjunction f (S depth) (S n) r with
                  | Ok (a, n1, p :: r3) => quantified (Group (S n) a) n1 r3
                  | Ok (_, _, []) => SyntaxError
                  | e => e
                  end
            | [] => SyntaxError
            end
          else quantified (Chars false [(c, c)]) n r
      end
  end.

Record compiled := { pattern : regex; groups : nat }.

(** [new RegExp(source)]. *)
Definition construct (source : jsstring) : result compiled :=
  match disjunction (3 * length source + 3) 0 0 source with
  | Ok (a, n, []) => Ok {| pattern := a; groups := n |}
  | Ok (_, _, _ :: _) => SyntaxError
  | SyntaxError => SyntaxError
  | Unsupported => Unsupported
  end.

(** ** Matching (ECMA-262 22.2.2: backtracking with continuations) *)

Definition captures := list (option jsstring).

Definition in_ranges (c : char) (rs : list (char * char)) : bool :=
  existsb (fun r => (fst r <=? c)%N && (c <=? snd r)%N) rs.

Fixpoint set_capture (i : nat) (v : option jsstring) (caps : captures)
  : captures :=
  match caps with
  | [] => []
  | c :: caps' =>
      match i with
      | O => v :: caps'
      | S i' => c :: set_capture i' v caps'
      end
  end.

Fixpoint group_indices (r : regex) : list nat :=
  match r with
  | Seq a b | Alt a b => group_indices a ++ group_indices b
  | Repeat _ _ _ a => group_indices a
  | Group i a => i :: group_indices a
  | _ => []
  end.

Definition clear_captures (r : regex) (caps : captures) : captures :=
  fold_left (fun acc i => set_capture i None acc) (group_indices r) caps.

Definition continuation := nat -> jsstring -> captures -> option captures.

(** [matcher r pos s caps k]: match [r] at position [pos], where [s] is
    the rest of the input, then continue with [k]. *)
Fixpoint matcher (r : regex) (pos : nat) (s : jsstring) (caps : captures)
         (k : continuation) {struct r} : option captures :=
  match r with
  | Empty => k pos s caps
  | Bol => if (pos =? 0)%nat then k pos s caps else None
  | Eol => match s with [] => k pos s caps | _ :: _ => None end
  | Chars negated rs =>
      match s with
      | c :: s' =>
          if xorb negated (in_ranges c rs) then k (S pos) s' caps else None
      | [] => None
      end
  | Seq a b =>
      matcher a pos s caps (fun pos' s' caps' => matcher b pos' s' caps' k)
  | Alt a b =>
      match matcher a pos s caps k with
      | Some c => Some c
      | None => matcher b pos s caps k
      end
  | Group i a =>
      matcher a pos s caps
        (fun pos' s' caps' =>
           k pos' s' (set_capture i (Some (firstn (pos' - pos) s)) caps'))
  | Repeat min max greedy a =>
      (fix loop (fuel count pos : nat) (s : jsstring) (caps : captures)
         {struct fuel} : option captures :=
         match fuel with
         | O => None
         | S fuel' =>
             let again :=
               matcher a pos s (clear_captures a caps)
                 (fun pos' s' caps' =>
                    if (min <=? count)%nat && (pos' =? pos)%nat then None
                    else loop fuel' (S count) pos' s' caps') in
             let stop :=
               if (min <=? count)%nat then k pos s caps else None in
             let full :=
               match max with
               | Some m => (m <=? count)%nat
               | None => false
               end in
             if full then stop
             else if greedy then
               match again with Some c => Some c | None => stop end
             else
               match stop with Some c => Some c | None => again end
         end) (S (length s) + min)%nat 0%nat pos s caps
  end.

(** The match at the first start index that has one: the matched text at
    index 0, then the captures. *)
Fixpoint exec_from (fuel : nat) (re : compiled) (pos : nat) (s : jsstring)
  : option captures :=
  let here :=
    matcher (pattern re) pos s (repeat None (S (groups re)))
      (fun pos' _ caps =>
         Some (set_capture 0 (Some (firstn (pos' - pos) s)) caps)) in
  match here with
  | Some m => Some m
  | None =>
      match fuel, s with
      | S fuel', _ :: s' => exec_from fuel' re (S pos) s'
      | _, _ => None
      end
  end.

(** [s.match(re)] for a regular expression without flags. *)
Definition string_match (s : jsstring) (re : compiled) : option captures :=
  exec_from (length s) re 0 s.

End RegExp.

(* ===================================================================== *)
(** * [JSON.parse] *)
(* ===================================================================== *)

(** The JSON grammar of ECMA-404 as [JSON.parse] accepts it (no reviver).
    [None] is the SyntaxError it throws. *)
Module JSON.

#[local] Unset Elimination Schemes.
Inductive json :=
| JNull
| JBool (b : bool)
| JNumber (x : number)
| JString (s : jsstring)
| JArray (items : list json)
| JObject (members : list (jsstring * json)).

Definition is_ws (c : char) : bool :=
  N.eqb c 9 || N.eqb c 10 || N.eqb c 13 || N.eqb c 32.

Fixpoint skip_ws (s : jsstring) : jsstring :=
  match s with
  | c :: s' => if is_ws c then skip_ws s' else s
  | [] => []
  end.

Definition hex_value (c : char) : option N :=
  if is_digit c then Some (c - 48)%N
  else if (97 <=? c)%N && (c <=? 102)%N then Some (c - 87)%N
  else if (65 <=? c)%N && (c <=? 70)%N then Some (c - 55)%N
  else None.

Definition hex4 (a b c d : char) : option char :=
  match hex_value a, hex_value b, hex_value c, hex_value d with
  | Some x, Some y, Some z, Some w =>
      Some (((x * 16 + y) * 16 + z) * 16 + w)%N
  | _, _, _, _ => None
  end.

(** The characters of a string up to the closing quote; [s] follows the
    opening quote. *)
Fixpoint parse_string (s : jsstring) : option (jsstring * jsstring) :=
  let cons (c : char) (r : option (jsstring * jsstring)) :=
    match r with
    | Some (t, rest) => Some (c :: t, rest)
    | None => None
    end in
  match s with
  | [] => None
  | c :: r =>
      if N.eqb c 34 then Some ([], r)
      else if N.eqb c 92 then
        match r with
        | e :: r' =>
            if N.eqb e 34 || N.eqb e 92 || N.eqb e 47 then
              cons e (parse_string r')
            else if N.eqb e 98 then cons 8%N (parse_string r')
            else if N.eqb e 102 then cons 12%N (parse_string r')
            else if N.eqb e 110 then cons 10%N (parse_string r')
            else if N.eqb e 114 then cons 13%N (parse_string r')
            else if N.eqb e 116 then cons 9%N (parse_string r')
            else if N.eqb e 117 then
              match r' with
              | h1 :: h2 :: h3 :: h4 :: r'' =>
                  match hex4 h1 h2 h3 h4 with
                  | Some u => cons u (parse_string r'')
                  | None => None
                  end
              | _ => None
              end
            else None
        | [] => None
        end
      else if (c <? 32)%N then None
      else cons c (parse_string r)
  end.

(** A number: [-]? int frac? exp?, at the head of [s]. *)
Definition parse_number (s : jsstring) : option (number * jsstring) :=
  let '(sg, s1) :=
    match s with
    | c :: r => if N.eqb c 45 then (true, r) else (false, s)
    | [] => (false, s)
    end in
  let '(ip, s2) := span_digits s1 in
  let int_ok :=
    match ip with
    | [] => false
    | [_] => true
    | z :: _ => negb (N.eqb z 48)
    end in
  let '(fp, s3) :=
    match s2 with
    | c :: r =>
        if N.eqb c 46 then
          match span_digits r with
          | ([], _) => ([], s2)
          | (d, r') => (d, r')
          end
        else ([], s2)
    | [] => ([], s2)
    end in
  let '(ex, s4) :=
    match s3 with
    | c :: r =>
        if N.eqb c 101 || N.eqb c 69 then
          let '(neg_e, r1) :=
            match r with
            | d :: t => if N.eqb d 43 then (false, t)
                        else if N.eqb d 45 then (true, t) else (false, r)
            | [] => (false, r)
            end in
          match span_digits r1 with
          | ([], _) => (0, s3)
          | (d, r') =>
              ((if neg_e then - Z_of_digits 10 d else Z_of_digits 10 d), r')
          end
        else (0, s3)
    | [] => (0, s3)
    end in
  if int_ok then
    Some (of_decimal sg (Z_of_digits 10 (ip ++ fp))
                     (ex - Z.of_nat (length fp)), s4)
  else None.

Fixpoint parse_value (fuel : nat) (s : jsstring)
  : option (json * jsstring) :=
  match fuel with
  | O => None
  | S f =>
      match skip_ws s with
      | [] => None
      | c :: r =>
          if N.eqb c 34 then
            match parse_string r with
            | Some (t, r') => Some (JString t, r')
            | None => None
            end
          else if N.eqb c 91 then
            match skip_ws r with
            | d :: r' =>
                if N.eqb d 93 then Some (JArray [], r')
                else
                  match parse_elements f r with
                  | Some (l, r'') => Some (JArray l, r'')
                  | None => None
                  end
            | [] => None
            end
          else if N.eqb c 123 then
            match skip_ws r with
            | d :: r' =>
                if N.eqb d 125 then Some (JObject [], r')
                else
                  match parse_members f r with
                  | Some (l, r'') => Some (JObject l, r'')
                  | None => None
                  end
            | [] => None
            end
          else if starts_with (js "null") (c :: r) then
            Some (JNull, skipn 4 (c :: r))
          else if starts_with (js "true") (c :: r) then
            Some (JBool true, skipn 4 (c :: r))
          else if starts_with (js "false") (c :: r) then
            Some (JBool false, skipn 5 (c :: r))
          else
            match parse_number (c :: r) with
            | Some (x, r') => Some (JNumber x, r')
            | None => None
            end
      end
  end
with parse_elements (fuel : nat) (s : jsstring)
  : option (list json * jsstring) :=
  match fuel with
  | O => None
  | S f =>
      match parse_value f s with
      | Some (v, r) =>
          match skip_ws r with
          | c :: r' =>
              if N.eqb c 44 then
                match parse_elements f r' with
                | Some (l, r'') => Some (v :: l, r'')
                | None => None
                end
              else if N.eqb c 93 then Some ([v], r')
              else None
          | [] => None
          end
      | None => None
      end
  end
with parse_members (fuel : nat) (s : jsstring)
  : option (list (jsstring * json) * jsstring) :=
  match fuel with
  | O => None
  | S f =>
      match skip_ws s with
      | q :: r0 =>
          if N.eqb q 34 then
            match parse_string r0 with
            | Some (key, r1) =>
                match skip_ws r1 with
                | c :: r2 =>
                    if N.eqb c 58 then
                      match parse_value f r2 with
                      | Some (v, r3) =>
                          match skip_ws r3 with
                          | d :: r4 =>
                              if N.eqb d 44 then
                                match parse_members f r4 with
                                | Some (l, r5) => Some ((key, v) :: l, r5)
                                | None => None
                                end
                              else if N.eqb d 125 then Some ([(key, v)], r4)
                              else None
                          | [] => None
                          end
                      | None => None
                      end
                    else None
                | [] => None
                end
            | None => None
            end
          else None
      | [] => None
      end
  end.

(** [JSON.parse(text)]. *)
Definition parse (text : jsstring) : option json :=
  match parse_value (2 * length text + 2) text with
  | Some (v, r) => match skip_ws r with [] => Some v | _ :: _ => None end
  | None => None
  end.

(** [o[key]] on a parsed object: a later duplicate of a key replaces an
    earlier one. *)
Fixpoint get (key : jsstring) (members : list (jsstring * json))
  : option json :=
  match members with
  | [] => None
  | (k, v) :: rest =>
      match get key rest with
      | Some v' => Some v'
      | None => if str_eqb k key then Some v else None
      end
  end.

End JSON.

(* ===================================================================== *)
(** * The calculator *)
(* ===================================================================== *)

(** ** Constants *)

Definition MAX_HISTORY_ITEMS : nat := 100.
Definition MAX_DISPLAY_ITEMS : nat := 5.

(** ** State *)

(** One history record: [{expression, result, timestamp}]. *)
Module Entry.
Record t := make { expression : jsstring; result : jsstring; timestamp : Z }.
End Entry.

(** The spans [renderExpressionHTML] writes: an operator span carries
    [data-index] and [data-op], a number span [data-index] and
    [data-value], any other token is a span without data. *)
Inductive Span :=
| OperatorSpan (index : nat) (op : jsstring)
| NumberSpan (index : nat) (value : jsstring)
| PlainSpan (token : jsstring).

(** The nodes of the page the handlers write, taken as distinct elements
    that exist, except [expressionText], which is looked up on each refresh
    and may be missing. *)
Record Display := {
  displayExpression : jsstring;
  displayResult : jsstring;
  displayPreview : jsstring;
  expressionText : option (list Span)
}.

(** The module variables and the display.  [history] holds a history log,
    an array of records; what start-up makes of a stored text that is no
    log is the matter of [loadHistory] below. *)
Record State := {
  currentInput : jsstring;
  expression : jsstring;
  history : list Entry.t;
  display : Display
}.

Definition set_currentInput (v : jsstring) (st : State) : State :=
  {| currentInput := v; expression := expression st;
     history := history st; display := display st |}.

Definition set_expression (v : jsstring) (st : State) : State :=
  {| currentInput := currentInput st; expression := v;
     history := history st; display := display st |}.

Definition set_history (v : list Entry.t) (st : State) : State :=
  {| currentInput := currentInput st; expression := expression st;
     history := v; display := display st |}.

Definition set_display (v : Display) (st : State) : State :=
  {| currentInput := currentInput st; expression := expression st;
     history := history st; display := v |}.

Definition set_displayResult (v : jsstring) (d : Display) : Display :=
  {| displayExpression := displayExpression d; displayResult := v;
     displayPreview := displayPreview d; expressionText := expressionText d |}.

Definition set_displayExpression (v : jsstring) (d : Display) : Display :=
  {| displayExpression := v; displayResult := displayResult d;
     displayPreview := displayPreview d; expressionText := expressionText d |}.

(** How a handler ends: normally, or with an exception that leaves the
    handler where it was thrown; either way the module variables keep what
    was assigned so far. *)
Inductive Completion :=
| Normal (st : State)
| Throws (st : State).

Definition state_of (c : Completion) : State :=
  match c with Normal st | Throws st => st end.

(** ** Patterns written as regular expression literals *)

(** [/^[0-9+\-*/.()]+$/] accepts one character of the whitelist. *)
Definition valid_char (c : char) : bool :=
  is_digit c || is_op c || N.eqb c 46 || N.eqb c 40 || N.eqb c 41.

(** [/^\d+(\.\d+)?$/.test(s)]. *)
Definition is_number_token (s : jsstring) : bool :=
  let '(ip, r) := span_digits s in
  truthy ip &&
  match r with
  | [] => true
  | c :: r1 =>
      N.eqb c 46 &&
      (let '(fp, r2) := span_digits r1 in
       truthy fp && negb (truthy r2))
  end.

(** [s.match(/[+\-*/]+$/)]: the operators that end [s], when there are
    some. *)
Fixpoint trailing_operators (s : jsstring) : option jsstring :=
  match s with
  | [] => None
  | c :: s' =>
      if is_op c && forallb is_op s' then Some s
      else trailing_operators s'
  end.

(** [s.replace(/^[+\-*/]+/, '')]. *)
Fixpoint strip_leading_operators (s : jsstring) : jsstring :=
  match s with
  | c :: s' => if is_op c then strip_leading_operators s' else s
  | [] => []
  end.

(** [expr.replace(/\*/g, '×').replace(/\//g, '÷')]. *)
Definition to_display (expr : jsstring) : jsstring :=
  replace_all 47%N DIVIDE (replace_all 42%N TIMES expr).

(** The start of the last occurrence of [needle] in [s], counted from
    [i]. *)
Fixpoint lastIndexOf_from (needle s : jsstring) (i : nat) : option nat :=
  let here := if starts_with needle s then Some i else None in
  match s with
  | [] => here
  | _ :: s' =>
      match lastIndexOf_from needle s' (S i) with
      | Some j => Some j
      | None => here
      end
  end.

(** [s.lastIndexOf(needle)]: [-1] when there is no occurrence. *)
Definition lastIndexOf (needle s : jsstring) : Z :=
  match lastIndexOf_from needle s 0 with
  | Some i => Z.of_nat i
  | None => -1
  end.

(** [value.replace('.', '\\.')]: the first point becomes backslash, point. *)
Fixpoint escape_first_point (value : jsstring) : jsstring :=
  match value with
  | [] => []
  | c :: r => if N.eqb c 46 then 92%N :: 46%N :: r
              else c :: escape_first_point r
  end.

Section Calculator.

(** The host's approximation of [**] on finite non-zero operands. *)
Variable host_pow : number -> number -> number.

(** ** Expression evaluator *)

(** The tail of [evaluateExpression]: an integer prints as it is, any
    other number is cut to ten fractional digits and read back. *)
Definition format_result (result : number) : jsstring :=
  if is_integer result then toString result
  else toString (parseFloat (toFixed 10 result)).

Definition evaluateExpression (expr : jsstring) : jsstring :=
  let sanitized := filter (fun c => negb (is_space c)) expr in
  if negb (truthy sanitized) then js "0"
  else
    let sanitized :=
      replace_all DIVIDE 47%N (replace_all TIMES 42%N sanitized) in
    if negb (forallb valid_char sanitized) then js "Error"
    else
      match JSProgram.run host_pow sanitized with
      | Some result =>
          (* isFinite converts with ToNumber: only a finite Number passes *)
          if negb (is_finite (JSProgram.to_number result)) then js "Error"
          else format_result (JSProgram.to_number result)
      | None => js "Error"
      end.

(** ** History store *)

(** [saveHistory]: the log is cut to its first [MAX_HISTORY_ITEMS]
    records, then written to the store; a failing write is caught.  The
    stored text is not read again after start-up and is not tracked. *)
Definition saveHistory (st : State) : State :=
  if (MAX_HISTORY_ITEMS <? length (history st))%nat
  then set_history (firstn MAX_HISTORY_ITEMS (history st)) st
  else st.

(** [renderHistoryMini] and [renderHistoryModal] rewrite the two history
    lists of the page and bind their clicks to [loadFromHistory] and
    [deleteHistoryItem]; they assign no module variable. *)
Definition renderHistoryMini (st : State) : State := st.
Definition renderHistoryModal (st : State) : State := st.

(** [addHistory(expr, result)] at time [now]. *)
Definition addHistory (expr result : jsstring) (now : Z) (st : State)
  : State :=
  let duplicate :=
    match history st with
    | lastItem :: _ =>
        str_eqb (Entry.expression lastItem) expr
        && str_eqb (Entry.result lastItem) result
    | [] => false
    end in
  if duplicate then st
  else
    let st := set_history (Entry.make expr result now :: history st) st in
    renderHistoryModal (renderHistoryMini (saveHistory st)).

Definition clearAllHistory (st : State) : State :=
  renderHistoryModal (renderHistoryMini (saveHistory (set_history [] st))).

(** [history[index]] for an integer index. *)
Definition history_at (index : Z) (st : State) : option Entry.t :=
  if index <? 0 then None else nth_error (history st) (Z.to_nat index).

(** [history.splice(index, 1)]: a negative start counts from the end. *)
Definition splice_one (index : Z) (l : list Entry.t) : list Entry.t :=
  let start :=
    if index <? 0 then Z.to_nat (Z.max (Z.of_nat (length l) + index) 0)
    else Z.to_nat index in
  firstn start l ++ skipn (S start) l.

Definition deleteHistoryItem (index : Z) (st : State) : State :=
  renderHistoryModal
    (renderHistoryMini
       (saveHistory (set_history (splice_one index (history st)) st))).

(** ** Presentation *)

Definition is_separator (c : char) : bool :=
  N.eqb c 43 || N.eqb c 45 || N.eqb c TIMES || N.eqb c DIVIDE
  || N.eqb c 40 || N.eqb c 41.

(** [s.split(/([+\-×÷()])/g)]: the pieces between separators, with each
    separator kept as a piece of its own. *)
Fixpoint split_tokens (s piece : jsstring) : list jsstring :=
  match s with
  | [] => [piece]
  | c :: s' =>
      if is_separator c then piece :: [c] :: split_tokens s' []
      else split_tokens s' (piece ++ [c])
  end.

Definition display_operators : list jsstring :=
  [[43%N]; [45%N]; [TIMES]; [DIVIDE]].

Definition span_of (index : nat) (token : jsstring) : Span :=
  if array_includes display_operators token then OperatorSpan index token
  else if is_number_token token then NumberSpan index token
  else PlainSpan token.

Fixpoint spans_from (index : nat) (tokens : list jsstring) : list Span :=
  match tokens with
  | [] => []
  | token :: rest => span_of index token :: spans_from (S index) rest
  end.

Definition renderExpressionHTML (expr : jsstring) : list Span :=
  if negb (truthy expr) then []
  else
    let displayExpr := to_display expr in
    let tokens := filter truthy (split_tokens displayExpr []) in
    spans_from 0 tokens.

Definition canonical_operators : list jsstring :=
  [[43%N]; [45%N]; [42%N]; [47%N]].

Definition updateDisplay (st : State) : State :=
  let expressionHTML := renderExpressionHTML (expression st) in
  let previewResult :=
    if truthy (currentInput st) && is_number_token (currentInput st) then
      let fullExpression := expression st ++ currentInput st in
      let result := evaluateExpression fullExpression in
      if negb (str_eqb result (js "Error"))
         && negb (str_eqb result (currentInput st))
      then js "= " ++ result else []
    else if negb (truthy (currentInput st)) && truthy (expression st) then
      let lastChar := slice_m1 (expression st) in
      if array_includes canonical_operators lastChar then
        let completeExpr := slice_0_m1 (expression st) in
        if truthy completeExpr then
          let result := evaluateExpression completeExpr in
          if negb (str_eqb result (js "Error")) then js "= " ++ result
          else []
        else []
      else []
    else [] in
  set_display
    {| expressionText :=
         match expressionText (display st) with
         | Some _ => Some expressionHTML
         | None => None
         end;
       displayExpression := to_display (expression st);
       displayPreview := previewResult;
       displayResult :=
         if truthy (currentInput st) then currentInput st else js "0" |}
    st.

(** [loadFromHistory(index)]. *)
Definition loadFromHistory (index : Z) (st : State) : State :=
  match history_at index st with
  | Some item =>
      updateDisplay
        (set_currentInput [] (set_expression (Entry.expression item) st))
  | None => st
  end.

(** ** Token clicks *)

(** The pattern text [handleNumberClick] builds: [^], a group of operator
    characters repeated, the value in a group, the same operator group
    again, [$].  In the source the operator class sits in a string
    literal, written with a backslash before the hyphen; in a string
    literal that escape is the hyphen itself, so the text handed to
    [RegExp] holds the class [[+-*/]]. *)
Definition operator_group : jsstring := js "([+-*/]*" ++ js ")".

Definition number_click_pattern (value : jsstring) : jsstring :=
  js "^" ++ operator_group ++ js "(" ++ escape_first_point value ++ js ")"
     ++ operator_group ++ js "$".

Definition or_empty (c : option jsstring) : jsstring :=
  match c with Some s => s | None => [] end.

(** [handleNumberClick(value, index)].  The pending input is appended
    first; building the regular expression comes next and may throw.  (It
    always throws a SyntaxError, [number_click_pattern_rejected] below,
    so the branch of an unsupported pattern is never taken.) *)
Definition handleNumberClick (value : jsstring) (index : Z) (st : State)
  : Completion :=
  let st :=
    if truthy (currentInput st)
    then set_expression (expression st ++ currentInput st) st
    else st in
  match RegExp.construct (number_click_pattern value) with
  | RegExp.Ok regex =>
      let st :=
        match RegExp.string_match (expression st) regex with
        | Some m =>
            set_expression
              (or_empty (nth 1 m None) ++ or_empty (nth 3 m None)) st
        | None => st
        end in
      let st := set_expression (strip_leading_operators (expression st)) st in
      Normal (updateDisplay (set_currentInput value st))
  | RegExp.SyntaxError | RegExp.Unsupported => Throws st
  end.

Definition opCycle : list jsstring := display_operators.

(** [opCalcMap[op]] for a glyph of [opCycle]. *)
Definition opCalcMap (op : jsstring) : jsstring :=
  if str_eqb op [TIMES] then js "*"
  else if str_eqb op [DIVIDE] then js "/"
  else op.

Fixpoint indexOf_from (x : jsstring) (xs : list jsstring) (i : nat)
  : option nat :=
  match xs with
  | [] => None
  | y :: ys => if str_eqb y x then Some i else indexOf_from x ys (S i)
  end.

(** The loop of [handleOperatorClick]: [opCount] counts the operator
    characters passed so far; the one whose count is [index] is written
    as [newCalcOp]. *)
Fixpoint replace_operator (chars : jsstring) (opCount index : Z)
         (newCalcOp : jsstring) : jsstring :=
  match chars with
  | [] => []
  | char :: rest =>
      if is_op char then
        if opCount =? index then
          newCalcOp ++ replace_operator rest (opCount + 1) index newCalcOp
        else char :: replace_operator rest (opCount + 1) index newCalcOp
      else char :: replace_operator rest opCount index newCalcOp
  end.

(** [handleOperatorClick(oldOp, index)]. *)
Definition handleOperatorClick (oldOp : jsstring) (index : Z) (st : State)
  : State :=
  match indexOf_from oldOp opCycle 0 with
  | None => st
  | Some currentIndex =>
      let newOp := nth ((currentIndex + 1) mod length opCycle) opCycle [] in
      let newCalcOp := opCalcMap newOp in
      let newExpr := replace_operator (expression st) 0 index newCalcOp in
      updateDisplay (set_expression newExpr st)
  end.

(** A click on a span of the expression line, as [updateDisplay] binds
    it: the handler gets the span's data, the index through [parseInt]. *)
Definition click (sp : Span) (st : State) : Completion :=
  match sp with
  | OperatorSpan index op => Normal (handleOperatorClick op (Z.of_nat index) st)
  | NumberSpan index value => handleNumberClick value (Z.of_nat index) st
  | PlainSpan _ => Normal st
  end.

(** ** Keys *)

(** [handleNumber(digit)]. *)
Definition handleNumber (digit : jsstring) (st : State) : State :=
  if (16 <=? length (currentInput st))%nat then st
  else if str_eqb digit (js ".") && includes 46%N (currentInput st) then st
  else if str_eqb digit (js ".") && negb (truthy (currentInput st)) then
    updateDisplay (set_currentInput (js "0.") st)
  else if str_eqb digit (js "0") && str_eqb (currentInput st) (js "0") then st
  else if str_eqb (currentInput st) (js "0") && negb (str_eqb digit (js "."))
  then updateDisplay (set_currentInput digit st)
  else updateDisplay (set_currentInput (currentInput st ++ digit) st).

(** [opMap[operator] || operator] for the operators the page sends: the
    [data-operator] of a button and the glyphs [handleKeyboard] passes,
    which are the four glyphs of [display_operators]; a string that is no
    key of the table stands for itself.  The lookup of the source also
    finds the names [Object.prototype] defines ([toString],
    [constructor], ...), whose value is a function with a text the host
    chooses; no button and no key sends such a name, and they are outside
    this model: what is proved about the appended operator is stated for
    the four glyphs. *)
Definition opMap (operator : jsstring) : jsstring := opCalcMap operator.

(** [handleOperator(operator)]. *)
Definition handleOperator (operator : jsstring) (st : State) : State :=
  let calcOperator := opMap operator in
  if truthy (currentInput st) then
    let st := set_currentInput []
                (set_expression (expression st ++ currentInput st) st) in
    updateDisplay (set_expression (expression st ++ calcOperator) st)
  else if negb (truthy (expression st)) then st
  else updateDisplay (set_expression (expression st ++ calcOperator) st).

(** [handleEquals()] at time [now]. *)
Definition handleEquals (now : Z) (st : State) : State :=
  let st :=
    if truthy (currentInput st)
    then set_currentInput []
           (set_expression (expression st ++ currentInput st) st)
    else st in
  if negb (truthy (expression st)) then
    set_display (set_displayResult (js "0") (display st)) st
  else
    let result := evaluateExpression (expression st) in
    let st :=
      set_display
        (set_displayResult result
           (set_displayExpression (to_display (expression st)) (display st)))
        st in
    let st :=
      if negb (str_eqb result (js "Error"))
      then addHistory (to_display (expression st)) result now st
      else st in
    set_currentInput
      (if negb (str_eqb result (js "Error")) then result else [])
      (set_expression [] st).

(** [handleClear()]. *)
Definition handleClear (st : State) : State :=
  updateDisplay (set_expression [] (set_currentInput [] st)).

(** [handleBackspace()]. *)
Definition handleBackspace (st : State) : State :=
  if truthy (currentInput st) then
    updateDisplay (set_currentInput (slice_0_m1 (currentInput st)) st)
  else if truthy (expression st) then
    let lastChar := slice_m1 (expression st) in
    let st :=
      if array_includes canonical_operators lastChar then
        set_expression (slice_0_m1 (expression st)) st
      else
        let remaining := slice_0_m1 (expression st) in
        match trailing_operators remaining with
        | Some lastOp =>
            let lastOpIndex := lastIndexOf lastOp remaining in
            let numPart :=
              substring_from (Z.to_nat (lastOpIndex + 1)) remaining
              ++ lastChar in
            set_expression
              (substring_to (Z.to_nat (lastOpIndex + 1)) remaining)
              (set_currentInput numPart st)
        | None =>
            set_expression [] (set_currentInput (remaining ++ lastChar) st)
        end in
    updateDisplay st
  else st.

(** [handlePercent()]. *)
Definition handlePercent (st : State) : State :=
  if truthy (currentInput st) then
    let num := parseFloat (currentInput st) in
    if negb (is_nan num) then
      updateDisplay
        (set_currentInput (toString (div num (of_Z 100))) st)
    else st
  else st.

(** ** Events

    The events the page sends to the handlers; [run] folds a sequence of
    them over a state, each handler running to its end or to its
    exception. *)
Inductive Event :=
| Digit (digit : jsstring)
| Operator (operator : jsstring)
| Equals (now : Z)
| Clear
| Backspace
| Percent
| NumberClick (value : jsstring) (index : Z)
| OperatorClick (oldOp : jsstring) (index : Z)
| HistoryClick (index : Z)
| HistoryDelete (index : Z)
| HistoryClear.

Definition step (st : State) (e : Event) : State :=
  match e with
  | Digit d => handleNumber d st
  | Operator op => handleOperator op st
  | Equals now => handleEquals now st
  | Clear => handleClear st
  | Backspace => handleBackspace st
  | Percent => handlePercent st
  | NumberClick v i => state_of (handleNumberClick v i st)
  | OperatorClick op i => handleOperatorClick op i st
  | HistoryClick i => loadFromHistory i st
  | HistoryDelete i => deleteHistoryItem i st
  | HistoryClear => clearAllHistory st
  end.

Definition run (events : list Event) (st : State) : State :=
  fold_left step events st.

End Calculator.

(** ** Start-up: the stored log *)

(** What [localStorage.getItem(STORAGE_KEY)] does: it throws, or answers
    [null], or answers the stored text. *)
Inductive StoreRead :=
| GetItemThrows
| GetItemNull
| GetItemText (stored : jsstring).

Inductive Outcome (A : Type) :=
| Returns (a : A)
| Raises.
Arguments Returns {A} a.
Arguments Raises {A}.

(** The [try] block of [loadHistory]: the value of [history] when the block
    ends, or the exception that leaves it. *)
Definition loadHistory_try (read : StoreRead) (history : JSON.json)
  : Outcome JSON.json :=
  match read with
  | GetItemThrows => Raises
  | GetItemNull => Returns history
  | GetItemText stored =>
      if truthy stored then
        match JSON.parse stored with
        | Some v => Returns v
        | None => Raises
        end
      else Returns history
  end.

(** [loadHistory()]: [history] is a module variable and takes whatever
    [JSON.parse] answers, so it is kept here as a JSON value; the [catch]
    block logs and assigns the empty array.  The result is the value of
    [history] when [loadHistory] returns, or [Raises] if it did not. *)
Definition loadHistory (read : StoreRead) (history : JSON.json)
  : Outcome JSON.json :=
  match loadHistory_try read history with
  | Returns h => Returns h
  | Raises => Returns (JSON.JArray [])
  end.

(** A JSON value that is a history record, [{expression, result,
    timestamp}] with two strings and an integer. *)
Definition entry_of_json (v : JSON.json) : option Entry.t :=
  match v with
  | JSON.JObject members =>
      match JSON.get (js "expression") members,
            JSON.get (js "result") members,
            JSON.get (js "timestamp") members with
      | Some (JSON.JString e), Some (JSON.JString r), Some (JSON.JNumber x) =>
          if is_integer x then Some (Entry.make e r (integer_value x))
          else None
      | _, _, _ => None
      end
  | _ => None
  end.

Fixpoint entries_of_json (items : list JSON.json) : option (list Entry.t) :=
  match items with
  | [] => Some []
  | v :: rest =>
      match entry_of_json v, entries_of_json rest with
      | Some e, Some l => Some (e :: l)
      | _, _ => None
      end
  end.

(** A JSON value that is a history log: an array of history records.  On
    such a value the state machine above works with the list of records. *)
Definition log_of_json (v : JSON.json) : option (list Entry.t) :=
  match v with
  | JSON.JArray items => entries_of_json items
  | _ => None
  end.

(** A stored text is a well-formed serialized history log when it parses
    to one. *)
Definition well_formed_store (stored : jsstring) : bool :=
  match JSON.parse stored with
  | Some v => match log_of_json v with Some _ => true | None => false end
  | None => false
  end.

(** ** Shapes named by the specification *)

(** [/^\d*\.?\d*$/.test(s)]: digits, at most one point, digits. *)
Definition input_shape (s : jsstring) : bool :=
  let '(_, r) := span_digits s in
  match r with
  | [] => true
  | c :: r1 =>
      N.eqb c 46 && (let '(_, r2) := span_digits r1 in negb (truthy r2))
  end.

(** A key of the digit pad: one digit or the point. *)
Definition digit_key (digit : jsstring) : bool :=
  match digit with
  | [c] => is_digit c || N.eqb c 46
  | _ => false
  end.

(** The cleared state: both strings empty, any log, any display. *)
Definition cleared (h : list Entry.t) (d : Display) : State :=
  {| currentInput := []; expression := []; history := h; display := d |}.

(** The numeric literal that ends [s]: what follows its last operator
    character. *)
Fixpoint trailing_literal (s : jsstring) : jsstring :=
  match s with
  | [] => []
  | c :: s' => if existsb is_op s then trailing_literal s' else s
  end.

(** Backspace on a confirmed digit as the specification words it: the
    trailing literal without its last character goes to [currentInput],
    and [expression] ends just after the operator before the literal. *)
Definition backspace_digit_as_specified (st : State) : jsstring * jsstring :=
  let literal := trailing_literal (expression st) in
  (slice_0_m1 literal,
   firstn (length (expression st) - length literal) (expression st)).

(** The calculations handed to [addHistory], in order. *)
Definition Calculation := (jsstring * jsstring * Z)%type.

Definition add_calculation (st : State) (c : Calculation) : State :=
  let '(expr, result, now) := c in addHistory expr result now st.

Definition entry_of (c : Calculation) : Entry.t :=
  let '(expr, result, now) := c in Entry.make expr result now.

Definition same_calculation (a b : Calculation) : bool :=
  str_eqb (fst (fst a)) (fst (fst b)) && str_eqb (snd (fst a)) (snd (fst b)).

(** No two of the calculations have the same expression and result. *)
Fixpoint distinct (cs : list Calculation) : bool :=
  match cs with
  | [] => true
  | c :: rest => negb (existsb (same_calculation c) rest) && distinct rest
  end.

(** [s] holds digits only. *)
Definition digits_only (s : jsstring) : bool :=
  negb (truthy (snd (span_digits s))).

(** The events after which the shape of currentInput is kept: all but
    equals and percent, which by design write a formatted number there.
    Backspace counts when it does not start from a confirmed digit; a click
    on a number span carries a value that passed the number test of
    [renderExpressionHTML]. *)
Definition keeps_input_shape (st : State) (e : Event) : Prop :=
  match e with
  | Digit digit => digit_key digit = true
  | Equals _ | Percent => False
  | Backspace =>
      truthy (currentInput st) = true
      \/ expression st = []
      \/ array_includes canonical_operators (slice_m1 (expression st)) = true
  | NumberClick value _ => is_number_token value = true
  | _ => True
  end.

(** Consecutive calculations differ, starting from the newest record. *)
Fixpoint fresh_chain (newest : option Calculation) (cs : list Calculation)
  : bool :=
  match cs with
  | [] => true
  | c :: rest =>
      negb (match newest with
            | Some p => same_calculation p c
            | None => false
            end)
      && fresh_chain (Some c) rest
  end.

(** The keys 1, 2, +, 3. *)
Definition keys_12_plus_3 : list Event :=
  [Digit (js "1"); Digit (js "2"); Operator (js "+"); Digit (js "3")].

(** A page before its first refresh, for concrete runs. *)
Definition blank_display : Display :=
  {| displayExpression := []; displayResult := js "0";
     displayPreview := []; expressionText := Some [] |}.

(** 101 calculations, n+0 = n for n from 0 to 100, made at time n. *)
Definition sample_calculations : list Calculation :=
  map (fun n => (digits_of_Z (Z.of_nat n) ++ js "+0",
                 digits_of_Z (Z.of_nat n), Z.of_nat n))
      (seq 0 101).

(* ===================================================================== *)
(** * The rest of the program *)
(* ===================================================================== *)

(** ** Numbers that are integers *)

(** The mantissa and exponent of the binary64 value of a positive integer
    below [2^53]: the integer shifted to 53 bits. *)
Definition integer_mantissa (n : positive) : positive :=
  Pos.shiftl n (Z.to_N (53 - Zpos (digits2_pos n))).

Definition integer_exponent (n : positive) : Z := Zpos (digits2_pos n) - 53.

Definition of_pos (s : bool) (n : positive) : number :=
  S754_finite s (integer_mantissa n) (integer_exponent n).

(** The Number of a literal. *)
Definition of_natural (a : Z) : number :=
  match a with
  | Zpos n => of_pos false n
  | _ => S754_zero false
  end.

(** ** The evaluator on integer literals *)

(** The text is over, or goes on with a character that is neither a digit
    nor a point. *)
Definition ends_number (rest : jsstring) : bool :=
  match rest with
  | [] => true
  | c :: _ => negb (is_digit c) && negb (N.eqb c 46)
  end.

(** The tokens that may follow an operand without making a longer
    operand of it. *)
Definition ends_operand (t : JSProgram.token) : bool :=
  match t with
  | JSProgram.TPunct JSProgram.PPlus | JSProgram.TPunct JSProgram.PMinus
  | JSProgram.TPunct JSProgram.PStar | JSProgram.TPunct JSProgram.PSlash
  | JSProgram.TEOF => true
  | _ => false
  end.

(** A binary operator character followed by a digit. *)
Definition operator_token (c : char) : option JSProgram.token :=
  if N.eqb c 43 then Some (JSProgram.TPunct JSProgram.PPlus)
  else if N.eqb c 45 then Some (JSProgram.TPunct JSProgram.PMinus)
  else if N.eqb c 42 then Some (JSProgram.TPunct JSProgram.PStar)
  else if N.eqb c 47 then Some (JSProgram.TPunct JSProgram.PSlash)
  else None.

(** The operation a binary operator character stands for. *)
Definition operator_binop (c : char) : option JSProgram.binop :=
  if N.eqb c 43 then Some JSProgram.Add
  else if N.eqb c 45 then Some JSProgram.Sub
  else if N.eqb c 42 then Some JSProgram.Mul
  else if N.eqb c 47 then Some JSProgram.Div
  else None.

(** ** The history lists of the page

    [renderHistoryMini] and [renderHistoryModal] fill a template for each
    record and bind the clicks of the line to the index in the template. *)

(** One line of a history list: the index it is bound to and the two
    texts it shows. *)
Record HistoryItem := {
  item_index : nat;
  item_expression : jsstring;
  item_result : jsstring
}.

(** [list.map((item, index) => ...)]: the values written into the
    template of each line, counted from [index]. *)
Fixpoint history_items (index : nat) (l : list Entry.t) : list HistoryItem :=
  match l with
  | [] => []
  | item :: rest =>
      {| item_index := index;
         item_expression := Entry.expression item;
         item_result := Entry.result item |}
      :: history_items (S index) rest
  end.

(** What [renderHistoryMini] writes into [historyListMini]: [None] is the
    notice that there is no record yet, otherwise the lines of the five
    newest records. *)
Definition historyListMini (st : State) : option (list HistoryItem) :=
  if (length (history st) =? 0)%nat then None
  else Some (history_items 0 (firstn MAX_DISPLAY_ITEMS (history st))).

(** What [renderHistoryModal] writes into [historyModalList]: a line for
    every record, each with its delete button bound to the same index. *)
Definition historyModalList (st : State) : option (list HistoryItem) :=
  if (length (history st) =? 0)%nat then None
  else Some (history_items 0 (history st)).

(** ** The page: the history dialog and the keyboard *)

(** The parts of the page outside the calculator that the handlers read or
    write: the [active] class of [historyModal] and of [modalOverlay], and
    the [overflow] style of the body. *)
Record Page := {
  modalActive : bool;
  overlayActive : bool;
  bodyOverflow : jsstring;
  calculator : State
}.

Definition set_calculator (st : State) (p : Page) : Page :=
  {| modalActive := modalActive p; overlayActive := overlayActive p;
     bodyOverflow := bodyOverflow p; calculator := st |}.

(** [openHistoryModal()]. *)
Definition openHistoryModal (p : Page) : Page :=
  {| modalActive := true; overlayActive := true;
     bodyOverflow := js "hidden"; calculator := calculator p |}.

(** [closeHistoryModal()]. *)
Definition closeHistoryModal (p : Page) : Page :=
  {| modalActive := false; overlayActive := false;
     bodyOverflow := []; calculator := calculator p |}.

(** [/^[0-9]$/.test(key)]. *)
Definition is_digit_key (key : jsstring) : bool :=
  match key with
  | [c] => is_digit c
  | _ => false
  end.

Section Keyboard.
Variable host_pow : number -> number -> number.

(** [handleKeyboard(e)] for [e.key = key], at time [now]. *)
Definition handleKeyboard (now : Z) (key : jsstring) (p : Page) : Page :=
  if modalActive p then
    if str_eqb key (js "Escape") then closeHistoryModal p else p
  else
    let st := calculator p in
    if is_digit_key key then set_calculator (handleNumber host_pow key st) p
    else if str_eqb key (js ".") then
      set_calculator (handleNumber host_pow (js ".") st) p
    else if str_eqb key (js "+") || str_eqb key (js "-") then
      set_calculator (handleOperator host_pow key st) p
    else if str_eqb key (js "*") then
      set_calculator (handleOperator host_pow [TIMES] st) p
    else if str_eqb key (js "/") then
      (* e.preventDefault() comes first *)
      set_calculator (handleOperator host_pow [DIVIDE] st) p
    else if str_eqb key (js "Enter") || str_eqb key (js "=") then
      set_calculator (handleEquals host_pow now st) p
    else if str_eqb key (js "Backspace") then
      set_calculator (handleBackspace host_pow st) p
    else if str_eqb key (js "Escape") then
      set_calculator (handleClear host_pow st) p
    else if str_eqb key (js "%") then
      set_calculator (handlePercent host_pow st) p
    else p.

(** The click on a line of the dialog: the record is loaded and the
    dialog closes. *)
Definition modal_item_click (index : Z) (p : Page) : Page :=
  closeHistoryModal (set_calculator (loadFromHistory host_pow index (calculator p)) p).

End Keyboard.

(** The keys [handleKeyboard] acts on. *)
Definition handled_keys : list jsstring :=
  map (fun c => [c]) (js "0123456789.+-*/=%")
  ++ [js "Enter"; js "Backspace"; js "Escape"].

(** ** Start-up: rendering whatever the store gave

    [loadHistory] assigns any parsed value to [history]; [init] then calls
    [renderHistoryMini] and [renderHistoryModal], which read
    [history.length], call [history.slice] and [history.map] and put
    [item.expression] and [item.result] into a template.  On a value that
    is no array of records these steps may throw a TypeError, which
    nothing in [init] catches. *)

(** Whether [ToString(v)] throws, for a parsed value [v]: an object with
    an own [toString] member has no callable [toString], and [valueOf]
    gives no primitive; an array joins the strings of its elements. *)
Fixpoint to_string_throws (v : JSON.json) : bool :=
  match v with
  | JSON.JObject members =>
      match JSON.get (js "toString") members with
      | Some _ => true
      | None => false
      end
  | JSON.JArray items => existsb to_string_throws items
  | _ => false
  end.

(** Whether the template of one line throws on [item]: [item.expression]
    of [null] does; a member that is there is converted to a string. *)
Definition line_throws (item : JSON.json) : bool :=
  match item with
  | JSON.JNull => true
  | JSON.JObject members =>
      let hole (key : jsstring) :=
        match JSON.get key members with
        | Some v => to_string_throws v
        | None => false
        end in
      hole (js "expression") || hole (js "result")
  | _ => false
  end.

(** [history.length === 0]: [None] when reading [length] throws. *)
Definition length_is_zero (history : JSON.json) : option bool :=
  match history with
  | JSON.JNull => None
  | JSON.JBool _ | JSON.JNumber _ => Some false
  | JSON.JString s => Some (length s =? 0)%nat
  | JSON.JArray items => Some (length items =? 0)%nat
  | JSON.JObject members =>
      match JSON.get (js "length") members with
      | Some (JSON.JNumber (S754_zero _)) => Some true
      | _ => Some false
      end
  end.

(** [renderHistoryMini()] on the value of [history]: it returns, or a
    TypeError leaves it.  Only an array has [slice] and then [map]. *)
Definition renderHistoryMini_of (history : JSON.json) : Outcome unit :=
  match length_is_zero history with
  | None => Raises
  | Some true => Returns tt
  | Some false =>
      match history with
      | JSON.JArray items =>
          if existsb line_throws (firstn MAX_DISPLAY_ITEMS items) then Raises
          else Returns tt
      | _ => Raises
      end
  end.

(** [renderHistoryModal()] on the value of [history]. *)
Definition renderHistoryModal_of (history : JSON.json) : Outcome unit :=
  match length_is_zero history with
  | None => Raises
  | Some true => Returns tt
  | Some false =>
      match history with
      | JSON.JArray items =>
          if existsb line_throws items then Raises else Returns tt
      | _ => Raises
      end
  end.

(** [init()] up to the binding of the listeners: the value of [history]
    when the three calls have returned, or the exception that leaves
    [init] before [initEventListeners] and [updateDisplay] run.  [history]
    starts as the empty array. *)
Definition init (read : StoreRead) : Outcome JSON.json :=
  match loadHistory read (JSON.JArray []) with
  | Returns history =>
      match renderHistoryMini_of history with
      | Returns _ =>
          match renderHistoryModal_of history with
          | Returns _ => Returns history
          | Raises => Raises
          end
      | Raises => Raises
      end
  | Raises => Raises
  end.

(** A parsed value that has no [length] of zero and is no array. *)
Definition not_a_list (v : JSON.json) : bool :=
  match v with
  | JSON.JArray _ => false
  | _ => match length_is_zero v with Some true => false | _ => true end
  end.

(** ** The text [saveHistory] writes

    [JSON.stringify(history)] on an array of records
    [{expression, result, timestamp}] with two strings and a time:
    no white space, the members in the order the record was built with. *)

(** One hexadecimal digit, lower case. *)
Definition hex_digit (d : N) : char :=
  if (d <? 10)%N then (48 + d)%N else (87 + d)%N.

(** [UnicodeEscape]: backslash, u, four hexadecimal digits. *)
Definition unicode_escape (c : char) : jsstring :=
  [92%N; 117%N; hex_digit (c / 4096); hex_digit ((c / 256) mod 16);
   hex_digit ((c / 16) mod 16); hex_digit (c mod 16)].

Definition is_leading_surrogate (c : char) : bool :=
  (55296 <=? c)%N && (c <=? 56319)%N.

Definition is_trailing_surrogate (c : char) : bool :=
  (56320 <=? c)%N && (c <=? 57343)%N.

(** The body of [QuoteJSONString]: the seven characters with a short
    escape, the other control characters and the surrogates that stand
    alone as [\uXXXX], everything else as it is. *)
Fixpoint quote_chars (s : jsstring) : jsstring :=
  match s with
  | [] => []
  | c :: r =>
      if N.eqb c 8 then 92%N :: 98%N :: quote_chars r
      else if N.eqb c 9 then 92%N :: 116%N :: quote_chars r
      else if N.eqb c 10 then 92%N :: 110%N :: quote_chars r
      else if N.eqb c 12 then 92%N :: 102%N :: quote_chars r
      else if N.eqb c 13 then 92%N :: 114%N :: quote_chars r
      else if N.eqb c 34 then 92%N :: 34%N :: quote_chars r
      else if N.eqb c 92 then 92%N :: 92%N :: quote_chars r
      else if (c <? 32)%N then unicode_escape c ++ quote_chars r
      else if is_leading_surrogate c then
        match r with
        | d :: r' =>
            if is_trailing_surrogate d then c :: d :: quote_chars r'
            else unicode_escape c ++ quote_chars r
        | [] => unicode_escape c
        end
      else if is_trailing_surrogate c then unicode_escape c ++ quote_chars r
      else c :: quote_chars r
  end.

(** [QuoteJSONString(s)]. *)
Definition quote (s : jsstring) : jsstring :=
  34%N :: quote_chars s ++ [34%N].

(** [JSON.stringify] of one record as [addHistory] builds it, its members
    in the order of the object literal; the time is a Number. *)
Definition stringify_entry (e : Entry.t) : jsstring :=
  js "{" ++ quote (js "expression") ++ js ":" ++ quote (Entry.expression e)
  ++ js "," ++ quote (js "result") ++ js ":" ++ quote (Entry.result e)
  ++ js "," ++ quote (js "timestamp") ++ js ":"
  ++ toString (of_Z (Entry.timestamp e)) ++ js "}".

Fixpoint stringify_entries (l : list Entry.t) : jsstring :=
  match l with
  | [] => []
  | [e] => stringify_entry e
  | e :: rest => stringify_entry e ++ js "," ++ stringify_entries rest
  end.

(** [JSON.stringify(history)]. *)
Definition stringify_history (l : list Entry.t) : jsstring :=
  js "[" ++ stringify_entries l ++ js "]".

(** The text [saveHistory()] hands to [localStorage.setItem]. *)
Definition saved_text (st : State) : jsstring :=
  stringify_history (history (saveHistory st)).

(** The parsed form of a record. *)
Definition json_of_entry (e : Entry.t) : JSON.json :=
  JSON.JObject
    [(js "expression", JSON.JString (Entry.expression e));
     (js "result", JSON.JString (Entry.result e));
     (js "timestamp", JSON.JNumber (of_Z (Entry.timestamp e)))].

(** ** Shapes used in the statements *)

(** [s] does not start with a zero that a digit follows. *)
Definition no_leading_zero (s : jsstring) : bool :=
  match s with
  | z :: c :: _ => negb (N.eqb z 48 && is_digit c)
  | _ => true
  end.

(** The events that write the history log. *)
Definition writes_history (e : Event) : bool :=
  match e with
  | Equals _ | HistoryDelete _ | HistoryClear => true
  | _ => false
  end.

(** The text of a span and the index it carries. *)
Definition span_text (sp : Span) : jsstring :=
  match sp with
  | OperatorSpan _ op => op
  | NumberSpan _ value => value
  | PlainSpan token => token
  end.

Definition span_index (sp : Span) : option nat :=
  match sp with
  | OperatorSpan index _ | NumberSpan index _ => Some index
  | PlainSpan _ => None
  end.

(** The number of operator characters in [s]. *)
Definition count_operators (s : jsstring) : Z :=
  Z.of_nat (length (filter is_op s)).

(** The glyph after [op] in [opCycle], as [handleOperatorClick] stores
    it. *)
Definition next_operator (op : jsstring) : option jsstring :=
  if str_eqb op (js "+") then Some (js "-")
  else if str_eqb op (js "-") then Some (js "*")
  else if str_eqb op [TIMES] then Some (js "/")
  else if str_eqb op [DIVIDE] then Some (js "+")
  else None.

(** Whether the page has its expression line. *)
Definition has_expressionText (st : State) : bool :=
  match expressionText (display st) with Some _ => true | None => false end.

(** The digit keys that spell [s]. *)
Definition digit_keys (s : jsstring) : list Event :=
  map (fun c => Digit [c]) s.

(** The decimal digits of an integer, after a minus sign when it is
    negative. *)
Definition integer_text (z : Z) : jsstring :=
  if z <? 0 then ch "-" :: digits_of_Z (- z) else digits_of_Z z.

(* ===================================================================== *)
(** * Properties *)
(* ===================================================================== *)

(** ** Strings *)

Lemma str_eqb_refl (s : jsstring) : str_eqb s s = true.
Proof.
  induction s as [|c s IH]; simpl; [reflexivity|].
  now rewrite N.eqb_refl, IH.
Qed.

Lemma str_eqb_eq (a b : jsstring) : str_eqb a b = true <-> a = b.
Proof.
  split.
  - revert b; induction a as [|x a IH]; intros [|y b]; simpl; try easy.
    intros H; apply andb_true_iff in H as [Hx Hr].
    apply N.eqb_eq in Hx; subst y. now rewrite (IH b Hr).
  - intros ->; apply str_eqb_refl.
Qed.

Lemma slice_0_m1_slice_m1 (s : jsstring) : slice_0_m1 s ++ slice_m1 s = s.
Proof.
  unfold slice_0_m1.
  induction s as [|c [|d s] IH]; simpl in *; try reflexivity.
  now rewrite IH.
Qed.

(** ** Numbers: integers print as their digits

    A Number that is an integer is the correctly rounded value of its own
    decimal expansion, so the digit search of Number::toString stops at or
    before the length of the integer part; below [10^21] the first layout
    applies, which has neither point nor exponent. *)

Lemma digits2_pos_iter (p m : positive) :
  digits2_pos (Pos.iter xO m p) = (digits2_pos m + p)%positive.
Proof.
  revert m; induction p as [p IH|p IH|]; intros m; cbn [Pos.iter].
  - cbn [digits2_pos]. rewrite !IH. lia.
  - rewrite !IH. lia.
  - cbn [digits2_pos]. lia.
Qed.

Lemma iter_pos_shr_1 (p m : positive) :
  iter_pos shr_1 p {| shr_m := Zpos (Pos.iter xO m p); shr_r := false; shr_s := false |}
  = {| shr_m := Zpos m; shr_r := false; shr_s := false |}.
Proof.
  revert m; induction p as [p IH|p IH|]; intros m; cbn [Pos.iter iter_pos].
  - cbn [shr_1 orb]. rewrite !IH. reflexivity.
  - rewrite !IH. reflexivity.
  - reflexivity.
Qed.

Lemma Zpos_iter_xO (p m : positive) :
  Zpos (Pos.iter xO m p) = Zpos m * 2 ^ Zpos p.
Proof.
  rewrite <- Z.shiftl_mul_pow2 by lia. cbn [Z.shiftl].
  apply (Pos.iter_swap_gen _ _ Zpos xO (Z.mul 2)). reflexivity.
Qed.

(** Rounding a mantissa that was shifted left gives it back. *)
Lemma round_shifted (m p : positive) (e : Z) :
  digits2_pos m = 53%positive -> -1074 <= e <= 971 ->
  binary_round_aux prec emax false (Zpos (Pos.iter xO m p)) (e - Zpos p) loc_Exact
  = S754_finite false m e.
Proof.
  intros Hd He. unfold binary_round_aux.
  assert (H1 : shr_fexp prec emax (Zpos (Pos.iter xO m p)) (e - Zpos p) loc_Exact
          = ({| shr_m := Zpos m; shr_r := false; shr_s := false |}, e)).
  { unfold shr_fexp, shr. cbn [Zdigits2 shr_record_of_loc].
    rewrite digits2_pos_iter, Hd.
    replace (fexp prec emax (Zpos (53 + p) + (e - Zpos p)) - (e - Zpos p)) with (Zpos p).
    - rewrite iter_pos_shr_1. f_equal. lia.
    - unfold fexp, emin, prec, emax. lia. }
  rewrite H1. cbn [shr_m loc_of_shr_record round_nearest_even].
  assert (H2 : shr_fexp prec emax (Zpos m) e loc_Exact
          = ({| shr_m := Zpos m; shr_r := false; shr_s := false |}, e)).
  { unfold shr_fexp, shr. cbn [Zdigits2 shr_record_of_loc]. rewrite Hd.
    replace (fexp prec emax (53 + e) - e) with 0; [reflexivity|].
    unfold fexp, emin, prec, emax. lia. }
  rewrite H2. cbn [shr_m].
  replace (e <=? emax - prec) with true; [reflexivity|].
  symmetry. apply Z.leb_le. unfold emax, prec. lia.
Qed.

Lemma div_eucl_1 (a : Z) : Z.div_eucl a 1 = (a, 0).
Proof.
  pose proof (Z.div_1_r a) as Hq. pose proof (Z.mod_1_r a) as Hr.
  unfold Z.div, Z.modulo in Hq, Hr.
  destruct (Z.div_eucl a 1) as [q r]. cbn in Hq, Hr. congruence.
Qed.

Lemma div_core_by_1 (n : positive) :
  SFdiv_core_binary prec emax (Zpos n) 0 1 0
  = (Zpos n * 2 ^ (- Z.min (Zpos (digits2_pos n) - 54) 0),
     Z.min (Zpos (digits2_pos n) - 54) 0, loc_Exact).
Proof.
  unfold SFdiv_core_binary. cbn [Zdigits2 digits2_pos].
  set (d := Zpos (digits2_pos n)).
  assert (Hd : 1 <= d) by (unfold d; lia).
  replace (Z.min (fexp prec emax (d + 0 - (1 + 0))) (0 - 0)) with (Z.min (d - 54) 0)
    by (unfold fexp, emin, prec, emax; lia).
  set (e' := Z.min (d - 54) 0).
  assert (He' : e' <= 0) by (unfold e'; lia).
  replace (0 - 0 - e') with (- e') by lia.
  destruct (- e') as [|s|s] eqn:Hs; try lia.
  - rewrite div_eucl_1. cbn. rewrite Pos.mul_1_r. reflexivity.
  - rewrite div_eucl_1. rewrite Z.shiftl_mul_pow2 by lia. reflexivity.
Qed.

(** A positive integer that is a binary64 value converts to that value. *)
Lemma of_ratio_exact (n m : positive) (e : Z) :
  digits2_pos m = 53%positive -> -1074 <= e <= 971 ->
  (if 0 <=? e then Zpos n = Zpos m * 2 ^ e else Zpos n * 2 ^ (- e) = Zpos m) ->
  of_ratio false (Zpos n) 1 = S754_finite false m e.
Proof.
  intros Hd He Hn. unfold of_ratio. rewrite div_core_by_1.
  assert (Hdn : Zpos (digits2_pos n) = 53 + e).
  { destruct (0 <=? e) eqn:H0.
    - apply Z.leb_le in H0. destruct e as [|p|p]; try lia.
      + rewrite Z.mul_1_r in Hn. injection Hn as ->. rewrite Hd. reflexivity.
      + rewrite <- Zpos_iter_xO in Hn. injection Hn as ->.
        rewrite digits2_pos_iter, Hd. lia.
    - apply Z.leb_gt in H0. destruct e as [|p|p]; try lia.
      cbn [Z.opp] in Hn. rewrite <- Zpos_iter_xO in Hn. injection Hn as Hm.
      rewrite <- Hm, digits2_pos_iter in Hd. lia. }
  rewrite Hdn.
  set (p := Z.to_pos (Z.max 1 e)).
  assert (Hp : Zpos p = Z.max 1 e) by (unfold p; lia).
  replace (Z.min (53 + e - 54) 0) with (e - Zpos p) by lia.
  replace (Zpos n * 2 ^ (- (e - Zpos p))) with (Zpos (Pos.iter xO m p)).
  - apply round_shifted; assumption.
  - rewrite Zpos_iter_xO. destruct (0 <=? e) eqn:H0.
    + apply Z.leb_le in H0. rewrite Hn.
      rewrite <- Z.mul_assoc, <- Z.pow_add_r by lia. f_equal. f_equal. lia.
    + apply Z.leb_gt in H0. rewrite <- Hn.
      rewrite <- Z.mul_assoc, <- Z.pow_add_r by lia. f_equal. f_equal. lia.
Qed.

Lemma magnitude_fuel_spec (fuel : nat) (num den n : Z) :
  let r := magnitude_fuel fuel num den n in
  n <= r <= n + Z.of_nat fuel
  /\ (forall j, n <= j < r -> below num den j = false)
  /\ (r < n + Z.of_nat fuel -> below num den r = true).
Proof.
  revert n; induction fuel as [|fuel IH]; intros n; cbn zeta.
  - cbn [magnitude_fuel]. repeat split; lia.
  - cbn [magnitude_fuel].
    destruct (below num den n) eqn:Hb.
    + repeat split; try lia. intros _. exact Hb.
    + specialize (IH (n + 1)). cbn zeta in IH. destruct IH as (H1 & H2 & H3).
      repeat split; try lia.
      * intros j Hj. destruct (Z.eq_dec j n) as [->|Hne]; [exact Hb|].
        apply H2. lia.
      * intros Hr. apply H3. lia.
Qed.

Lemma below_integer (N den n : Z) :
  0 < den -> 1 <= N ->
  below (N * den) den n = (0 <=? n) && (N <? 10 ^ n).
Proof.
  intros Hden HN. unfold below. destruct (0 <=? n) eqn:H0; cbn [andb].
  - apply Z.leb_le in H0.
    destruct (N <? 10 ^ n) eqn:H1.
    + apply Z.ltb_lt in H1. apply Z.ltb_lt. nia.
    + apply Z.ltb_ge in H1. apply Z.ltb_ge. nia.
  - apply Z.leb_gt in H0. apply Z.ltb_ge.
    assert (HP : 0 < 10 ^ (- n)) by (apply Z.pow_pos_nonneg; lia).
    assert (HNP : 1 <= N * 10 ^ (- n)) by nia.
    replace (N * den * 10 ^ (- n)) with (den * (N * 10 ^ (- n))) by ring. nia.
Qed.

Lemma magnitude_integer (N den : Z) :
  0 < den -> 1 <= N < 10 ^ 21 ->
  1 <= magnitude (N * den) den <= 21.
Proof.
  intros Hden HN. unfold magnitude.
  destruct (magnitude_fuel_spec 700 (N * den) den (-330)) as (H1 & H2 & H3).
  set (r := magnitude_fuel 700 (N * den) den (-330)) in *.
  split.
  - destruct (Z_lt_le_dec r 1) as [Hlt|]; [|assumption]. exfalso.
    assert (Hb : below (N * den) den r = true) by (apply H3; lia).
    rewrite below_integer in Hb by lia.
    apply andb_true_iff in Hb as [Hb1 Hb2].
    apply Z.leb_le in Hb1. apply Z.ltb_lt in Hb2.
    replace r with 0 in Hb2 by lia. change (10 ^ 0) with 1 in Hb2. lia.
  - destruct (Z_lt_le_dec 21 r) as [Hlt|]; [|assumption]. exfalso.
    assert (Hb : below (N * den) den 21 = false) by (apply H2; lia).
    rewrite below_integer in Hb by lia.
    change (0 <=? 21) with true in Hb. cbn [andb] in Hb. apply Z.ltb_ge in Hb. lia.
Qed.

Lemma eqb_finite_refl (m : positive) (e : Z) :
  eqb (S754_finite false m e) (S754_finite false m e) = true.
Proof.
  unfold eqb, SFeqb, SFcompare. rewrite Z.compare_refl.
  fold (Pos.compare m m). rewrite Pos.compare_refl. reflexivity.
Qed.

Lemma eqb_finite_eq (y : number) (m : positive) (e : Z) :
  eqb y (S754_finite false m e) = true -> y = S754_finite false m e.
Proof.
  unfold eqb, SFeqb, SFcompare.
  destruct y as [s|s| |s m' e']; try discriminate; try (destruct s; discriminate).
  destruct s; [discriminate|].
  destruct (Z.compare_spec e' e) as [->|?|?]; try discriminate.
  fold (Pos.compare m' m).
  destruct (Pos.compare_spec m' m) as [->|?|?]; try discriminate. reflexivity.
Qed.

Lemma candidate_exact (m : positive) (e N den n0 : Z) :
  0 < den -> of_ratio false N 1 = S754_finite false m e ->
  candidate (S754_finite false m e) (N * den) den n0 n0 <> None.
Proof.
  intros Hden Hx. unfold candidate. rewrite Z.sub_diag.
  change (0 <=? 0) with true. cbn iota beta.
  change (10 ^ 0) with 1. rewrite Z.mul_1_r, Z.div_mul by lia.
  assert (Hlo : eqb (of_decimal false N 0) (S754_finite false m e) = true).
  { unfold of_decimal. change (0 <=? 0) with true. cbn iota.
    change (10 ^ 0) with 1. rewrite Z.mul_1_r, Hx. apply eqb_finite_refl. }
  rewrite Hlo.
  clear Hlo. destruct (eqb _ _); discriminate.
Qed.

Lemma candidate_decade (x : number) (num den n0 k s n : Z) :
  candidate x num den n0 k = Some (s, n) ->
  n = n0 \/
  (n = n0 + 1 /\ eqb (of_decimal false (10 ^ (k - 1)) (n0 + 1 - k)) x = true).
Proof.
  unfold candidate.
  destruct (if 0 <=? k - n0 then _ else _) as [tn td].
  set (lo := tn / td).
  destruct (lo + 1 <? 10 ^ k); cbn [fst snd].
  - destruct (eqb (of_decimal false lo (n0 - k)) x),
             (eqb (of_decimal false (lo + 1) (n0 - k)) x); try discriminate;
      try destruct (match _ ?= _ with Eq => _ | Lt => _ | Gt => _ end);
      intros [= <- <-]; left; reflexivity.
  - destruct (eqb (of_decimal false lo (n0 - k)) x),
             (eqb (of_decimal false (10 ^ (k - 1)) (n0 + 1 - k)) x) eqn:Hhi;
      try discriminate;
      try destruct (match _ ?= _ with Eq => _ | Lt => _ | Gt => _ end);
      intros [= <- <-]; (left; reflexivity) || (right; split; reflexivity).
Qed.

Lemma shortest_fuel_spec (fuel : nat) (x : number) (num den n0 k : Z) :
  let '(n, k', s) := shortest_fuel fuel x num den n0 k in
  (forall j, k <= j < k' -> candidate x num den n0 j = None)
  /\ ((k' = k + Z.of_nat fuel /\ n = n0)
      \/ (k <= k' < k + Z.of_nat fuel /\ candidate x num den n0 k' = Some (s, n))).
Proof.
  revert k; induction fuel as [|fuel IH]; intros k.
  - cbn [shortest_fuel]. split; [intros; lia|left; split; [lia|reflexivity]].
  - cbn [shortest_fuel]. destruct (candidate x num den n0 k) as [[s n]|] eqn:Hc.
    + split; [intros; lia|right; split; [lia|exact Hc]].
    + specialize (IH (k + 1)).
      destruct (shortest_fuel fuel x num den n0 (k + 1)) as [[n k'] s].
      destruct IH as [Hnone Hend]. split.
      * intros j Hj. destruct (Z.eq_dec j k) as [->|]; [exact Hc|apply Hnone; lia].
      * destruct Hend as [[-> ->]|[Hk Hs]]; [left; split; [lia|reflexivity]|right; split; [lia|exact Hs]].
Qed.

Lemma digits_fuel_digits (fuel : nat) (n : Z) (acc : jsstring) :
  forallb is_digit acc = true -> forallb is_digit (digits_fuel fuel n acc) = true.
Proof.
  revert n acc; induction fuel as [|fuel IH]; intros n acc Hacc; cbn [digits_fuel].
  - exact Hacc.
  - assert (Hd : forallb is_digit ((48 + Z.to_N (n mod 10))%N :: acc) = true).
    { cbn [forallb]. rewrite Hacc, andb_true_r. unfold is_digit.
      pose proof (Z.mod_pos_bound n 10 ltac:(lia)).
      apply andb_true_iff; split; apply N.leb_le; lia. }
    destruct (n <? 10); [exact Hd|apply IH, Hd].
Qed.

Lemma digits_of_Z_digits (n : Z) : forallb is_digit (digits_of_Z n) = true.
Proof. apply digits_fuel_digits. reflexivity. Qed.

Lemma zeros_digits (n : nat) : forallb is_digit (zeros n) = true.
Proof. induction n; [reflexivity|exact IHn]. Qed.

Lemma digits_no_point (s : jsstring) :
  forallb is_digit s = true -> includes 46%N s = false.
Proof.
  induction s as [|c s IH]; [reflexivity|]. cbn [forallb includes existsb].
  intros [Hc Hs]%andb_true_iff. fold (includes 46%N s). rewrite (IH Hs), orb_false_r.
  unfold is_digit in Hc. apply andb_true_iff in Hc as [Hc _].
  apply N.leb_le in Hc. apply N.eqb_neq. lia.
Qed.

(** The shape of a binary64 value that is a positive integer. *)
Lemma integer_float_shape (m : positive) (e : Z) :
  bounded prec emax m e = true ->
  (let '(n, d) := ratio_of m e in n mod d =? 0) = true ->
  exists (n : positive) (den : Z),
    ratio_of m e = (Zpos n * den, den) /\ 0 < den
    /\ digits2_pos m = 53%positive /\ -1074 <= e <= 971
    /\ (if 0 <=? e then Zpos n = Zpos m * 2 ^ e else Zpos n * 2 ^ (- e) = Zpos m).
Proof.
  unfold bounded, canonical_mantissa, fexp, emin, emax, prec, ratio_of.
  intros [Hc He]%andb_true_iff. apply Z.eqb_eq in Hc. apply Z.leb_le in He.
  destruct (0 <=? e) eqn:H0.
  - intros _. apply Z.leb_le in H0.
    assert (Hpos : 0 < Zpos m * 2 ^ e) by (apply Z.mul_pos_pos; [lia|apply Z.pow_pos_nonneg; lia]).
    destruct (Zpos m * 2 ^ e) as [|n|n] eqn:Hn; try lia.
    exists n, 1. rewrite Z.mul_1_r. repeat split; try lia.
  - apply Z.leb_gt in H0. intros Hmod%Z.eqb_eq.
    assert (Hden : 0 < 2 ^ (- e)) by (apply Z.pow_pos_nonneg; lia).
    pose proof (Z.div_mod (Zpos m) (2 ^ (- e)) ltac:(lia)) as Hdm.
    rewrite Hmod, Z.add_0_r in Hdm.
    assert (Hpos : 0 < Zpos m / 2 ^ (- e)) by nia.
    destruct (Zpos m / 2 ^ (- e)) as [|n|n] eqn:Hn; try lia.
    exists n, (2 ^ (- e)).
    assert (Hm : Zpos n * 2 ^ (- e) = Zpos m) by lia.
    assert (Hdig : (digits2_pos m = digits2_pos n + Z.to_pos (- e))%positive).
    { destruct e as [|p|p]; try lia. cbn [Z.opp] in Hm.
      rewrite <- Zpos_iter_xO in Hm. injection Hm as <-.
      rewrite digits2_pos_iter. reflexivity. }
    repeat split; try lia. rewrite Hm. reflexivity.
Qed.

(** Number::toString of a positive integer below [10^21] takes the first
    layout: the digits, padded with zeros. *)
Lemma shortest_integer (m : positive) (e : Z) :
  bounded prec emax m e = true ->
  (let '(n, d) := ratio_of m e in n mod d =? 0) = true ->
  (let '(n, d) := ratio_of m e in n / d) < 10 ^ 21 ->
  let '(n, k, _) := shortest m e in k <= n <= 21.
Proof.
  intros Hb Hint Hlt.
  destruct (integer_float_shape m e Hb Hint) as (N & den & Hr & Hden & Hd & He & Hn).
  unfold shortest. rewrite Hr in *. rewrite Z.div_mul in Hlt by lia.
  pose proof (of_ratio_exact N m e Hd He Hn) as Hx.
  pose proof (magnitude_integer (Zpos N) den Hden ltac:(lia)) as Hn0.
  set (n0 := magnitude (Zpos N * den) den) in *.
  pose proof (candidate_exact m e (Zpos N) den n0 Hden Hx) as Hex.
  pose proof (shortest_fuel_spec 17 (S754_finite false m e) (Zpos N * den) den n0 1) as Hs.
  destruct (shortest_fuel 17 (S754_finite false m e) (Zpos N * den) den n0 1) as [[n k] s].
  destruct Hs as [Hnone [[-> ->]|[Hk Hc]]].
  - assert (17 < n0); [|lia].
    destruct (Z_lt_le_dec 17 n0) as [|Hle]; [assumption|].
    exfalso. apply Hex, Hnone. lia.
  - assert (Hkn : k <= n0).
    { destruct (Z_lt_le_dec n0 k) as [Hlt'|]; [|assumption].
      exfalso. apply Hex, Hnone. lia. }
    destruct (candidate_decade _ _ _ _ _ _ _ Hc) as [->|[-> Hhi]]; [lia|].
    assert (n0 <> 21); [|lia]. intros H21. rewrite H21 in Hhi.
    unfold of_decimal in Hhi.
    replace (0 <=? 21 + 1 - k) with true in Hhi by (symmetry; apply Z.leb_le; lia).
    rewrite <- Z.pow_add_r in Hhi by lia.
    replace (k - 1 + (21 + 1 - k)) with 21 in Hhi by lia.
    apply eqb_finite_eq in Hhi. vm_compute in Hhi.
    injection Hhi as <- <-. cbn in Hn. lia.
Qed.

Lemma digits2_pos_size (p : positive) : digits2_pos p = Pos.size p.
Proof. induction p; cbn; congruence. Qed.

Lemma forallb_skipn {A} (f : A -> bool) (n : nat) (l : list A) :
  forallb f l = true -> forallb f (skipn n l) = true.
Proof.
  revert l; induction n as [|n IH]; intros [|a l]; cbn; try tauto.
  intros [_ H]%andb_true_iff. apply IH, H.
Qed.

Lemma mantissa_bound (m : positive) (e : Z) :
  bounded prec emax m e = true -> Zpos m < 2 ^ 53.
Proof.
  unfold bounded, canonical_mantissa, fexp, emin, emax, prec.
  intros [Hc _]%andb_true_iff. apply Z.eqb_eq in Hc.
  assert (Hd : (digits2_pos m <= 53)%positive) by lia.
  rewrite digits2_pos_size in Hd.
  pose proof (Pos.size_gt m) as Hlt.
  assert (Hle : 2 ^ Zpos (Pos.size m) <= 2 ^ 53) by (apply Z.pow_le_mono_r; lia).
  rewrite <- Pos2Z.inj_pow in Hle. lia.
Qed.

(** ** The history store leaves the rest of the state alone *)

Lemma saveHistory_frame (st : State) :
  currentInput (saveHistory st) = currentInput st
  /\ expression (saveHistory st) = expression st
  /\ display (saveHistory st) = display st.
Proof. unfold saveHistory; destruct (_ <? _)%nat; repeat split. Qed.

Lemma saveHistory_history (st : State) :
  history (saveHistory st) = firstn MAX_HISTORY_ITEMS (history st).
Proof.
  unfold saveHistory.
  destruct (MAX_HISTORY_ITEMS <? length (history st))%nat eqn:H;
    cbn [history set_history].
  - reflexivity.
  - apply Nat.ltb_ge in H. symmetry; apply firstn_all2; exact H.
Qed.

Lemma addHistory_frame (expr result : jsstring) (now : Z) (st : State) :
  currentInput (addHistory expr result now st) = currentInput st
  /\ expression (addHistory expr result now st) = expression st
  /\ display (addHistory expr result now st) = display st.
Proof.
  unfold addHistory, renderHistoryModal, renderHistoryMini.
  destruct (match history st with [] => false | _ => _ end).
  - repeat split.
  - destruct (saveHistory_frame
                (set_history (Entry.make expr result now :: history st) st))
      as (H1 & H2 & H3).
    rewrite H1, H2, H3. repeat split.
Qed.

(** After [addHistory(expr, result)] the newest record holds [expr] and
    [result]: the one just added, or the equal one that was there. *)
Lemma addHistory_newest (expr result : jsstring) (now : Z) (st : State) :
  exists item rest,
    history (addHistory expr result now st) = item :: rest
    /\ Entry.expression item = expr /\ Entry.result item = result.
Proof.
  unfold addHistory, renderHistoryModal, renderHistoryMini.
  destruct (history st) as [|lastItem hs] eqn:Hh.
  - rewrite saveHistory_history; cbn [history set_history].
    exists (Entry.make expr result now), []. repeat split.
  - destruct (str_eqb (Entry.expression lastItem) expr
              && str_eqb (Entry.result lastItem) result) eqn:Hd.
    + apply andb_true_iff in Hd as [H1 H2].
      apply str_eqb_eq in H1, H2.
      exists lastItem, hs. repeat split; assumption.
    + rewrite saveHistory_history; cbn [history set_history].
      exists (Entry.make expr result now). eexists.
      split; [reflexivity | split; reflexivity].
Qed.

(** A run from a state whose strings are known computes once the display
    record is opened: each refresh tests whether [expressionText] is
    there. *)
Ltac compute_run d :=
  destruct d as [? ? ? [?|]]; vm_compute; repeat split.

Section Properties.

Variable host_pow : number -> number -> number.

(** ** The evaluator on the inputs of the scenarios *)

Lemma evaluate_12_plus_3 : evaluateExpression host_pow (js "12+3") = js "15".
Proof. vm_compute; reflexivity. Qed.

(** ** Scenarios from the cleared state *)

Lemma after_12_plus_3 (h : list Entry.t) (d : Display) :
  run host_pow keys_12_plus_3 (cleared h d)
  = {| currentInput := js "3";
       expression := js "12+";
       history := h;
       display :=
         {| displayExpression := js "12+";
            displayResult := js "3";
            displayPreview := js "= 15";
            expressionText :=
              match expressionText d with
              | Some _ => Some [NumberSpan 0 (js "12"); OperatorSpan 1 (js "+")]
              | None => None
              end |} |}.
Proof. compute_run d. Qed.

Lemma run_app (a b : list Event) (st : State) :
  run host_pow (a ++ b) st = run host_pow b (run host_pow a st).
Proof. unfold run; apply fold_left_app. Qed.

(** What [handleEquals] does once the pending input is flushed and the
    evaluator gave a result other than the error marker. *)
Lemma handleEquals_result (now : Z) (st : State) (e r : jsstring) :
  (if truthy (currentInput st) then expression st ++ currentInput st
   else expression st) = e ->
  truthy e = true ->
  evaluateExpression host_pow e = r ->
  str_eqb r (js "Error") = false ->
  let st' := handleEquals host_pow now st in
  currentInput st' = r /\ expression st' = []
  /\ displayResult (display st') = r
  /\ exists item rest,
       history st' = item :: rest
       /\ Entry.expression item = to_display e /\ Entry.result item = r.
Proof.
  intros He Ht Hr Hne. unfold handleEquals.
  set (st1 := if truthy (currentInput st) then _ else st).
  assert (Hx : expression st1 = e).
  { subst st1. destruct (truthy (currentInput st)); exact He. }
  rewrite Hx, Ht, Hr, Hne. cbn [negb]. cbv zeta.
  set (st2 := set_display _ st1).
  destruct (addHistory_frame (to_display e) r now st2) as (_ & _ & Hd).
  destruct (addHistory_newest (to_display e) r now st2)
    as (item & rest & Hh & Hi & Hres).
  cbn [currentInput expression display history set_currentInput
       set_expression].
  change (expression st2) with (expression st1); rewrite Hx.
  rewrite Hd. repeat split.
  exists item, rest. repeat split; assumption.
Qed.

(** C1: from the cleared state, with any history log, the keys 1, 2, +, 3
    and = show the result 15, leave expression empty and currentInput equal
    to 15, and the newest history record has expression 12+3 and result
    15. *)
Theorem scenario_12_plus_3_equals (h : list Entry.t) (d : Display) (now : Z) :
  let st :=
    run host_pow
      [Digit (js "1"); Digit (js "2"); Operator (js "+"); Digit (js "3");
       Equals now]
      (cleared h d) in
  displayResult (display st) = js "15"
  /\ expression st = []
  /\ currentInput st = js "15"
  /\ exists item rest,
       history st = item :: rest
       /\ Entry.expression item = js "12+3"
       /\ Entry.result item = js "15".
Proof.
  cbv zeta.
  change [Digit (js "1"); Digit (js "2"); Operator (js "+"); Digit (js "3");
          Equals now]
    with (keys_12_plus_3 ++ [Equals now]).
  rewrite run_app, after_12_plus_3.
  unfold run; cbn [fold_left step].
  match goal with
  | |- context [handleEquals host_pow now ?s] =>
      destruct (handleEquals_result now s (js "12+3") (js "15"))
        as (Hc & He & Hd & item & rest & Hh & Hi & Hr);
      [ reflexivity | reflexivity | apply evaluate_12_plus_3 | reflexivity | ]
  end.
  repeat split; try assumption.
  exists item, rest. repeat split; assumption.
Qed.

Lemma evaluate_empty : evaluateExpression host_pow [] = js "0".
Proof. reflexivity. Qed.

(** What [handleEquals] does once the pending input is flushed and the
    evaluator gave the error marker. *)
Lemma handleEquals_error (now : Z) (st : State) :
  evaluateExpression host_pow
    (if truthy (currentInput st) then expression st ++ currentInput st
     else expression st) = js "Error" ->
  let st' := handleEquals host_pow now st in
  history st' = history st
  /\ expression st' = []
  /\ currentInput st' = []
  /\ displayResult (display st') = js "Error".
Proof.
  intros He. unfold handleEquals.
  set (st1 := if truthy (currentInput st) then _ else st).
  assert (Hx : expression st1
               = if truthy (currentInput st)
                 then expression st ++ currentInput st else expression st).
  { subst st1. destruct (truthy (currentInput st)); reflexivity. }
  assert (Hh : history st1 = history st).
  { subst st1. destruct (truthy (currentInput st)); reflexivity. }
  rewrite <- Hx in He.
  destruct (truthy (expression st1)) eqn:Ht.
  - cbn [negb]. rewrite He. cbv zeta.
    change (str_eqb (js "Error") (js "Error")) with true. cbn [negb].
    cbn [currentInput expression display history set_currentInput
         set_expression set_display set_displayResult displayResult].
    rewrite Hh. repeat split.
  - destruct (expression st1); [|discriminate Ht].
    rewrite evaluate_empty in He. discriminate He.
Qed.

(** C3: whenever [handleEquals] evaluates the flushed expression to the
    error marker, the history log is unchanged, expression and currentInput
    are both empty, and the result line shows Error; in particular after
    the keys 5, divide, 0 and = from the cleared state. *)
Theorem equals_on_error_keeps_history :
  (forall (now : Z) (st : State),
      evaluateExpression host_pow
        (if truthy (currentInput st) then expression st ++ currentInput st
         else expression st) = js "Error" ->
      let st' := handleEquals host_pow now st in
      history st' = history st
      /\ expression st' = []
      /\ currentInput st' = []
      /\ displayResult (display st') = js "Error")
  /\ (forall (h : list Entry.t) (d : Display) (now : Z),
         let st' :=
           run host_pow
             [Digit (js "5"); Operator [DIVIDE]; Digit (js "0"); Equals now]
             (cleared h d) in
         displayResult (display st') = js "Error"
         /\ history st' = h
         /\ expression st' = []
         /\ currentInput st' = []).
Proof.
  split.
  - exact handleEquals_error.
  - intros h d now. compute_run d.
Qed.

(** ** History recall *)

(** C10: for an index with no history record (negative, or at or past the
    length of the log), [loadFromHistory] changes nothing: expression,
    currentInput, the log and the display are as before. *)
Theorem loadFromHistory_out_of_range (index : Z) (st : State) :
  index < 0 \/ Z.of_nat (length (history st)) <= index ->
  loadFromHistory host_pow index st = st.
Proof.
  intros H. unfold loadFromHistory, history_at.
  destruct (index <? 0) eqn:Hneg; [reflexivity|].
  apply Z.ltb_ge in Hneg.
  destruct H as [H|H]; [lia|].
  assert (Hn : nth_error (history st) (Z.to_nat index) = None).
  { apply nth_error_None. lia. }
  rewrite Hn. reflexivity.
Qed.

(** ** Token clicks *)

(** The pattern [handleNumberClick] builds is refused by [RegExp] whatever
    the clicked value: in its first character class the range from [+] to
    [*] is out of order. *)
Lemma number_click_pattern_rejected (value : jsstring) :
  RegExp.construct (number_click_pattern value) = RegExp.SyntaxError.
Proof. vm_compute. reflexivity. Qed.

(** [handleNumberClick] stops at the constructor: the pending input has
    been appended to expression, nothing else is assigned. *)
Lemma handleNumberClick_aborts (value : jsstring) (index : Z) (st : State) :
  handleNumberClick host_pow value index st
  = Throws (if truthy (currentInput st)
            then set_expression (expression st ++ currentInput st) st
            else st).
Proof.
  unfold handleNumberClick. rewrite number_click_pattern_rejected.
  reflexivity.
Qed.

(** C6: for every value and state, [handleNumberClick] appends the pending
    input to expression and then throws when it builds its regular
    expression: the clicked number is not removed from expression, and
    currentInput keeps its old value instead of taking the clicked one. *)
Theorem handleNumberClick_throws (value : jsstring) (index : Z) (st : State) :
  exists st',
    handleNumberClick host_pow value index st = Throws st'
    /\ expression st' = expression st ++ currentInput st
    /\ currentInput st' = currentInput st
    /\ history st' = history st
    /\ display st' = display st.
Proof.
  rewrite handleNumberClick_aborts. eexists. split; [reflexivity|].
  destruct (currentInput st) as [|c s] eqn:Hc; cbn [truthy].
  - rewrite app_nil_r. repeat split. exact Hc.
  - cbn [set_expression expression currentInput history display].
    rewrite Hc. repeat split.
Qed.

(** C7: after the keys 1, 2, +, 3 the expression line shows the number 12
    at index 0 and the operator + at index 1; the click on that operator
    calls [handleOperatorClick] with index 1, which counts operators from
    0 and so replaces none: expression stays as it was.  The same holds
    once expression is 12+3.  With index 0 the operator would cycle. *)
Theorem operator_click_uses_token_index (h : list Entry.t) (d : Display) :
  let st := run host_pow keys_12_plus_3 (cleared h d) in
  renderExpressionHTML (expression st)
  = [NumberSpan 0 (js "12"); OperatorSpan 1 (js "+")]
  /\ expression (state_of (click host_pow (OperatorSpan 1 (js "+")) st))
     = js "12+"
  /\ renderExpressionHTML (js "12+3")
     = [NumberSpan 0 (js "12"); OperatorSpan 1 (js "+"); NumberSpan 2 (js "3")]
  /\ expression
       (state_of
          (click host_pow (OperatorSpan 1 (js "+"))
             (set_expression (js "12+3") (cleared h d))))
     = js "12+3"
  /\ expression
       (handleOperatorClick host_pow (js "+") 0
          (set_expression (js "12+3") (cleared h d)))
     = js "12-3".
Proof.
  cbv zeta. rewrite after_12_plus_3. compute_run d.
Qed.

(** ** Backspace *)

(** When [handleBackspace] finds currentInput empty and expression ending
    in a character that is no operator, it only moves characters:
    what it leaves in expression followed by what it puts in currentInput
    is the old expression, last character included. *)
Lemma backspace_on_digit_moves_only (st : State) :
  currentInput st = [] ->
  truthy (expression st) = true ->
  array_includes canonical_operators (slice_m1 (expression st)) = false ->
  let st' := handleBackspace host_pow st in
  expression st' ++ currentInput st' = expression st.
Proof.
  intros Hc Ht Hop. unfold handleBackspace.
  rewrite Hc, Ht, Hop. cbn [truthy]. cbv zeta.
  destruct (trailing_operators (slice_0_m1 (expression st))) as [ops|].
  - cbn [updateDisplay expression currentInput set_display set_expression
         set_currentInput].
    unfold substring_to, substring_from.
    rewrite app_assoc, firstn_skipn. apply slice_0_m1_slice_m1.
  - cbn [updateDisplay expression currentInput set_display set_expression
         set_currentInput app].
    apply slice_0_m1_slice_m1.
Qed.

Lemma trailing_literal_length (s : jsstring) :
  (length (trailing_literal s) <= length s)%nat.
Proof.
  induction s as [|c s IH]; [reflexivity|].
  cbn [trailing_literal]. destruct (existsb is_op (c :: s)); cbn [length]; lia.
Qed.

Lemma last_is_no_operator (c : char) :
  array_includes canonical_operators [c] = is_op c.
Proof.
  unfold array_includes, canonical_operators, is_op. cbn [existsb str_eqb].
  rewrite !andb_true_r, orb_false_r, !orb_assoc. reflexivity.
Qed.

Lemma trailing_literal_nonempty (s : jsstring) :
  truthy s = true ->
  array_includes canonical_operators (slice_m1 s) = false ->
  trailing_literal s <> [].
Proof.
  induction s as [|c [|d s] IH]; [discriminate| |]; intros _ Hop.
  - cbn [slice_m1] in Hop. rewrite last_is_no_operator in Hop.
    cbn [trailing_literal existsb]. rewrite Hop. discriminate.
  - change (slice_m1 (c :: d :: s)) with (slice_m1 (d :: s)) in Hop.
    change (trailing_literal (c :: d :: s))
      with (if existsb is_op (c :: d :: s) then trailing_literal (d :: s)
            else c :: d :: s).
    destruct (existsb is_op (c :: d :: s)); [apply IH; [reflexivity|exact Hop]|discriminate].
Qed.

Lemma length_slice_0_m1 (s : jsstring) :
  length (slice_0_m1 s) = (length s - 1)%nat.
Proof.
  unfold slice_0_m1. induction s as [|c [|d s] IH]; try reflexivity.
  change (removelast (c :: d :: s)) with (c :: removelast (d :: s)).
  cbn [length] in *. rewrite IH. lia.
Qed.

(** What the specification asks of backspace on a confirmed digit is one
    character shorter than the expression. *)
Lemma backspace_digit_as_specified_length (st : State) :
  truthy (expression st) = true ->
  array_includes canonical_operators (slice_m1 (expression st)) = false ->
  let '(input, expr) := backspace_digit_as_specified st in
  S (length (expr ++ input)) = length (expression st).
Proof.
  intros Ht Hop. unfold backspace_digit_as_specified.
  pose proof (trailing_literal_length (expression st)) as Hle.
  pose proof (trailing_literal_nonempty _ Ht Hop) as Hne.
  rewrite length_app, length_firstn, length_slice_0_m1.
  destruct (trailing_literal (expression st)) as [|c l]; [congruence|].
  cbn [length] in *. lia.
Qed.

(** C2: in every state with currentInput empty and expression ending in a
    character that is no operator (a digit in particular),
    [handleBackspace] deletes nothing: expression followed by currentInput
    is afterwards the old expression.  The specification asks for one
    character less, so the two never agree.  On 12+34 the whole of 12+34
    goes to currentInput and expression is emptied (asked: 3 and 12+); on
    12+3 currentInput becomes 3 (asked: the empty input); on 123
    currentInput becomes 123 (asked: 12). *)
Theorem backspace_on_confirmed_digit (st : State) :
  currentInput st = [] ->
  truthy (expression st) = true ->
  array_includes canonical_operators (slice_m1 (expression st)) = false ->
  let st' := handleBackspace host_pow st in
  expression st' ++ currentInput st' = expression st
  /\ (currentInput st', expression st') <> backspace_digit_as_specified st
  /\ (forall (h : list Entry.t) (d : Display),
        let st := set_expression (js "12+34") (cleared h d) in
        let st' := handleBackspace host_pow st in
        (currentInput st', expression st') = (js "12+34", [])
        /\ backspace_digit_as_specified st = (js "3", js "12+"))
  /\ (forall (h : list Entry.t) (d : Display),
        let st := set_expression (js "12+3") (cleared h d) in
        let st' := handleBackspace host_pow st in
        (currentInput st', expression st') = (js "3", js "12+")
        /\ backspace_digit_as_specified st = ([], js "12+"))
  /\ (forall (h : list Entry.t) (d : Display),
        let st := set_expression (js "123") (cleared h d) in
        let st' := handleBackspace host_pow st in
        (currentInput st', expression st') = (js "123", [])
        /\ backspace_digit_as_specified st = (js "12", [])).
Proof.
  intros Hc Ht Hop st'.
  pose proof (backspace_on_digit_moves_only st Hc Ht Hop) as Hmove.
  fold st' in Hmove. cbv zeta in Hmove.
  split; [exact Hmove|]. split.
  - intros Heq.
    pose proof (backspace_digit_as_specified_length st Ht Hop) as Hlen.
    rewrite <- Heq, Hmove in Hlen. lia.
  - repeat split; intros h d; compute_run d.
Qed.

(** ** The history cap *)

Lemma firstn_app_firstn {A : Type} (n m : nat) (a b : list A) :
  (n <= m)%nat -> firstn n (a ++ firstn m b) = firstn n (a ++ b).
Proof.
  revert n; induction a as [|x a IH]; intros n Hn.
  - rewrite !app_nil_l, firstn_firstn. now rewrite Nat.min_l.
  - destruct n as [|n]; [reflexivity|].
    rewrite <- !app_comm_cons, !firstn_cons. f_equal. apply IH. lia.
Qed.

(** A calculation that differs from the newest record is put in front, and
    the log is cut to the cap. *)
Lemma addHistory_new (c : Calculation) (st : State) :
  match history st with
  | lastItem :: _ =>
      str_eqb (Entry.expression lastItem) (fst (fst c))
      && str_eqb (Entry.result lastItem) (snd (fst c))
  | [] => false
  end = false ->
  history (add_calculation st c)
  = firstn MAX_HISTORY_ITEMS (entry_of c :: history st).
Proof.
  destruct c as [[expr result] now]. cbn [fst snd].
  intros H. unfold add_calculation, addHistory. rewrite H.
  unfold renderHistoryModal, renderHistoryMini.
  rewrite saveHistory_history. reflexivity.
Qed.

Lemma distinct_fresh_chain (p : Calculation) (cs : list Calculation) :
  existsb (same_calculation p) cs = false ->
  distinct cs = true ->
  fresh_chain (Some p) cs = true.
Proof.
  revert p; induction cs as [|c cs IH]; intros p Hp Hd; [reflexivity|].
  cbn in Hp, Hd |- *.
  apply orb_false_iff in Hp as [Hpc _].
  apply andb_true_iff in Hd as [Hc Hd].
  rewrite Hpc. cbn. apply IH; [|exact Hd].
  now apply negb_true_iff in Hc.
Qed.

Lemma add_calculations_history (cs : list Calculation) :
  forall (newest : option Calculation) (st : State),
    hd_error (history st) = option_map entry_of newest ->
    (length (history st) <= MAX_HISTORY_ITEMS)%nat ->
    fresh_chain newest cs = true ->
    history (fold_left add_calculation cs st)
    = firstn MAX_HISTORY_ITEMS (rev (map entry_of cs) ++ history st).
Proof.
  induction cs as [|c cs IH]; intros newest st Hhd Hlen Hfresh.
  - cbn [fold_left map rev app]. symmetry. apply firstn_all2. exact Hlen.
  - cbn [fold_left]. cbn [fresh_chain] in Hfresh.
    apply andb_true_iff in Hfresh as [Hc Hrest].
    apply negb_true_iff in Hc.
    assert (Hadd : history (add_calculation st c)
                   = firstn MAX_HISTORY_ITEMS (entry_of c :: history st)).
    { apply addHistory_new.
      destruct (history st) as [|lastItem hs]; [reflexivity|].
      destruct newest as [p|]; [|discriminate Hhd].
      cbn in Hhd. injection Hhd as ->.
      destruct p as [[pe pr] pn]. exact Hc. }
    rewrite (IH (Some c) (add_calculation st c)).
    + rewrite Hadd. rewrite firstn_app_firstn by lia.
      cbn [map rev]. rewrite <- app_assoc. reflexivity.
    + rewrite Hadd. reflexivity.
    + rewrite Hadd. apply firstn_le_length.
    + exact Hrest.
Qed.

Lemma entry_of_same (a b : Calculation) :
  entry_of a = entry_of b -> same_calculation a b = true.
Proof.
  destruct a as [[ae ar] an], b as [[be br] bn]. cbn.
  intros H; injection H as -> -> ->.
  unfold same_calculation; cbn. now rewrite !str_eqb_refl.
Qed.

Lemma distinct_not_in (c : Calculation) (cs : list Calculation) :
  existsb (same_calculation c) cs = false ->
  ~ In (entry_of c) (map entry_of cs).
Proof.
  intros Hc Hin. apply in_map_iff in Hin as (x & Hx & Hin).
  assert (Hex : existsb (same_calculation c) cs = true).
  { apply existsb_exists. exists x. split; [exact Hin|].
    apply entry_of_same. symmetry; exact Hx. }
  rewrite Hex in Hc. discriminate Hc.
Qed.

(** C8: after a save the history log has at most 100 records; and adding
    101 pairwise distinct calculations to the empty log leaves exactly 100
    records, the 100 added last, newest first: the oldest one is gone. *)
Theorem history_cap :
  MAX_HISTORY_ITEMS = 100%nat
  /\ (forall st : State,
         (length (history (saveHistory st)) <= MAX_HISTORY_ITEMS)%nat)
  /\ (forall (oldest : Calculation) (cs : list Calculation) (st : State),
         history st = [] ->
         length (oldest :: cs) = S MAX_HISTORY_ITEMS ->
         distinct (oldest :: cs) = true ->
         let st' := fold_left add_calculation (oldest :: cs) st in
         length (history st') = MAX_HISTORY_ITEMS
         /\ history st' = rev (map entry_of cs)
         /\ ~ In (entry_of oldest) (history st')).
Proof.
  split; [reflexivity|]. split.
  - intros st. rewrite saveHistory_history. apply firstn_le_length.
  - intros oldest cs st Hempty Hlen Hdistinct. cbv zeta.
    assert (Hcs : length (rev (map entry_of cs)) = MAX_HISTORY_ITEMS).
    { rewrite length_rev, length_map. cbn [length] in Hlen. lia. }
    cbn [distinct] in Hdistinct.
    apply andb_true_iff in Hdistinct as [Ho Hd].
    apply negb_true_iff in Ho.
    assert (H : history (fold_left add_calculation (oldest :: cs) st)
                = rev (map entry_of cs)).
    { rewrite (add_calculations_history (oldest :: cs) None st).
      - rewrite Hempty, app_nil_r. cbn [map rev].
        rewrite <- Hcs at 1.
        rewrite <- (Nat.add_0_r (length (rev (map entry_of cs)))).
        rewrite firstn_app_2. cbn [firstn]. apply app_nil_r.
      - rewrite Hempty. reflexivity.
      - rewrite Hempty. cbn [length]. lia.
      - cbn [fresh_chain negb andb].
        apply distinct_fresh_chain; assumption. }
    rewrite H. split; [exact Hcs|]. split; [reflexivity|].
    intros Hin. apply in_rev in Hin.
    exact (distinct_not_in oldest cs Ho Hin).
Qed.

(** ** The shape of currentInput *)

Lemma digits_only_cons (c : char) (s : jsstring) :
  digits_only (c :: s) = is_digit c && digits_only s.
Proof.
  unfold digits_only; cbn [span_digits].
  destruct (is_digit c); [|reflexivity].
  destruct (span_digits s); reflexivity.
Qed.

Lemma input_shape_cons (c : char) (s : jsstring) :
  input_shape (c :: s)
  = if is_digit c then input_shape s else N.eqb c 46 && digits_only s.
Proof.
  unfold input_shape, digits_only; cbn [span_digits].
  destruct (is_digit c).
  - destruct (span_digits s); reflexivity.
  - destruct (span_digits s); reflexivity.
Qed.

Lemma digits_only_snoc (s : jsstring) (c : char) :
  is_digit c = true -> digits_only (s ++ [c]) = digits_only s.
Proof.
  intros Hc; induction s as [|x s IH].
  - cbn [app]. rewrite digits_only_cons, Hc. reflexivity.
  - rewrite <- app_comm_cons, !digits_only_cons, IH. reflexivity.
Qed.

Lemma input_shape_snoc_digit (s : jsstring) (c : char) :
  is_digit c = true -> input_shape s = true -> input_shape (s ++ [c]) = true.
Proof.
  intros Hc; induction s as [|x s IH]; intros Hs.
  - cbn [app]. rewrite input_shape_cons, Hc. reflexivity.
  - rewrite <- app_comm_cons, input_shape_cons.
    rewrite input_shape_cons in Hs.
    destruct (is_digit x); [now apply IH|].
    now rewrite digits_only_snoc.
Qed.

Lemma input_shape_snoc_point (s : jsstring) :
  includes 46%N s = false -> input_shape s = true ->
  input_shape (s ++ [46%N]) = true.
Proof.
  unfold includes.
  induction s as [|x s IH]; intros Hp Hs; [reflexivity|].
  cbn [existsb] in Hp. apply orb_false_iff in Hp as [Hx Hp].
  rewrite <- app_comm_cons, input_shape_cons.
  rewrite input_shape_cons in Hs.
  destruct (is_digit x); [now apply IH|].
  rewrite N.eqb_sym in Hx. rewrite Hx in Hs. discriminate.
Qed.

Lemma digits_only_removelast (s : jsstring) :
  digits_only s = true -> digits_only (removelast s) = true.
Proof.
  induction s as [|x [|y s] IH]; intros H; try reflexivity.
  change (removelast (x :: y :: s)) with (x :: removelast (y :: s)).
  rewrite digits_only_cons in H |- *.
  apply andb_true_iff in H as [Hx H]. rewrite Hx. now apply IH.
Qed.

Lemma input_shape_removelast (s : jsstring) :
  input_shape s = true -> input_shape (removelast s) = true.
Proof.
  induction s as [|x [|y s] IH]; intros H; try reflexivity.
  change (removelast (x :: y :: s)) with (x :: removelast (y :: s)).
  rewrite input_shape_cons in H |- *.
  destruct (is_digit x); [now apply IH|].
  apply andb_true_iff in H as [Hx H]. rewrite Hx.
  now apply digits_only_removelast.
Qed.

Lemma handleNumber_shape (digit : jsstring) (st : State) :
  digit_key digit = true ->
  input_shape (currentInput st) = true ->
  input_shape (currentInput (handleNumber host_pow digit st)) = true.
Proof.
  intros Hk Hs. unfold handleNumber.
  destruct digit as [|c [|? ?]]; try discriminate Hk.
  cbn [digit_key] in Hk.
  destruct (16 <=? length (currentInput st))%nat; [exact Hs|].
  destruct (str_eqb [c] (js ".")) eqn:Hpoint.
  - apply str_eqb_eq in Hpoint. injection Hpoint as ->.
    destruct (includes 46%N (currentInput st)) eqn:Hinc; [exact Hs|].
    cbn [andb negb].
    destruct (truthy (currentInput st)) eqn:Ht; cbn [negb]; [|reflexivity].
    change (str_eqb (js ".") (js "0")) with false. cbn [andb].
    rewrite andb_false_r.
    cbn [updateDisplay currentInput set_display set_currentInput].
    now apply input_shape_snoc_point.
  - cbn [andb negb].
    assert (Hd : is_digit c = true).
    { destruct (is_digit c); [reflexivity|]. cbn in Hk.
      apply N.eqb_eq in Hk. subst c. discriminate Hpoint. }
    destruct (str_eqb [c] (js "0") && str_eqb (currentInput st) (js "0"));
      [exact Hs|].
    rewrite andb_true_r.
    destruct (str_eqb (currentInput st) (js "0"));
      cbn [updateDisplay currentInput set_display set_currentInput].
    + rewrite input_shape_cons, Hd. reflexivity.
    + now apply input_shape_snoc_digit.
Qed.

(** C5, as amended: if currentInput has the shape digits, at most one
    point, digits, it still has it after a digit or point key, an operator
    key, clear, a click on a number or operator token, a history recall,
    deletion or clearing, and after a backspace that does not start from a
    confirmed digit.  Equals leaves currentInput empty or equal to the
    evaluator's result; percent leaves it as it was or equal to the
    decimal text of its value divided by 100. *)
Theorem input_shape_kept (st : State) (e : Event) :
  input_shape (currentInput st) = true ->
  (keeps_input_shape st e ->
   input_shape (currentInput (step host_pow st e)) = true)
  /\ (forall now,
         let st' := handleEquals host_pow now st in
         currentInput st' = []
         \/ currentInput st'
            = evaluateExpression host_pow
                (if truthy (currentInput st)
                 then expression st ++ currentInput st else expression st))
  /\ (let st' := handlePercent host_pow st in
      currentInput st' = currentInput st
      \/ currentInput st'
         = toString (div (parseFloat (currentInput st)) (of_Z 100))).
Proof.
  intros Hs. split; [|split].
  - destruct e; cbn [keeps_input_shape step]; intros Hk; try contradiction.
    + now apply handleNumber_shape.
    + unfold handleOperator.
      destruct (truthy (currentInput st)); [reflexivity|].
      destruct (negb (truthy (expression st))); [exact Hs|exact Hs].
    + reflexivity.
    + unfold handleBackspace.
      destruct (truthy (currentInput st)) eqn:Ht.
      * cbn [updateDisplay currentInput set_display set_currentInput].
        now apply input_shape_removelast.
      * destruct Hk as [Hk|[Hk|Hk]]; [discriminate Hk | |].
        -- rewrite Hk. exact Hs.
        -- destruct (truthy (expression st)); [|exact Hs].
           rewrite Hk. exact Hs.
    + rewrite handleNumberClick_aborts. cbn [state_of].
      destruct (truthy (currentInput st)); exact Hs.
    + unfold handleOperatorClick.
      destruct (indexOf_from oldOp opCycle 0); exact Hs.
    + unfold loadFromHistory.
      destruct (history_at index st); [reflexivity | exact Hs].
    + unfold deleteHistoryItem, renderHistoryModal, renderHistoryMini.
      destruct (saveHistory_frame
                  (set_history (splice_one index (history st)) st))
        as (H1 & _). rewrite H1. exact Hs.
    + unfold clearAllHistory, renderHistoryModal, renderHistoryMini.
      destruct (saveHistory_frame (set_history [] st)) as (H1 & _).
      rewrite H1. exact Hs.
  - intros now. cbv zeta. unfold handleEquals.
    set (st1 := if truthy (currentInput st) then _ else st).
    assert (Hx : expression st1
                 = if truthy (currentInput st)
                   then expression st ++ currentInput st else expression st).
    { subst st1. destruct (truthy (currentInput st)); reflexivity. }
    assert (Hc : currentInput st1 = []).
    { subst st1. destruct (truthy (currentInput st)) eqn:Ht; [reflexivity|].
      destruct (currentInput st); [reflexivity | discriminate Ht]. }
    destruct (truthy (expression st1)); cbn [negb].
    + cbv zeta. cbn [currentInput set_currentInput].
      destruct (str_eqb _ (js "Error")); cbn [negb].
      * left; reflexivity.
      * right. cbn [expression set_display]. rewrite Hx. reflexivity.
    + left. exact Hc.
  - cbv zeta. unfold handlePercent.
    destruct (truthy (currentInput st)); [|left; reflexivity].
    destruct (is_nan (parseFloat (currentInput st))); cbn [negb].
    + left; reflexivity.
    + right; reflexivity.
Qed.

(** ** Start-up *)

(** C9, as amended: [loadHistory] always returns.  When the store has no
    text, or an empty one, history keeps its value, which at start-up is
    the empty log; when reading the store throws, or the text is not JSON,
    history is the empty log; a text that is JSON is assigned as parsed,
    whatever its shape. *)
Theorem loadHistory_returns (read : StoreRead) (history : JSON.json) :
  (exists h, loadHistory read history = Returns h)
  /\ (read = GetItemNull \/ read = GetItemText [] ->
      loadHistory read history = Returns history)
  /\ (read = GetItemThrows ->
      loadHistory read history = Returns (JSON.JArray []))
  /\ (forall stored,
         read = GetItemText stored -> truthy stored = true ->
         JSON.parse stored = None ->
         loadHistory read history = Returns (JSON.JArray []))
  /\ (forall stored v,
         read = GetItemText stored -> truthy stored = true ->
         JSON.parse stored = Some v ->
         loadHistory read history = Returns v).
Proof.
  unfold loadHistory, loadHistory_try. split; [|split; [|split; [|split]]].
  - destruct read as [| |stored]; try (eexists; reflexivity).
    destruct (truthy stored); [|eexists; reflexivity].
    destruct (JSON.parse stored); eexists; reflexivity.
  - intros [->| ->]; reflexivity.
  - intros ->; reflexivity.
  - intros stored -> Ht Hp. rewrite Ht, Hp. reflexivity.
  - intros stored v -> Ht Hp. rewrite Ht, Hp. reflexivity.
Qed.

End Properties.

(** ** Concrete runs

    The development above holds for every host approximation of [**]; the
    runs below take [JSProgram.integral_pow]. *)

(** C2 on the expression 12+34, from the empty history. *)
Lemma backspace_on_confirmed_digit_witness :
  let st := set_expression (js "12+34") (cleared [] blank_display) in
  let st' := handleBackspace JSProgram.integral_pow st in
  expression st' ++ currentInput st' = js "12+34"
  /\ (currentInput st', expression st') <> (js "3", js "12+").
Proof.
  destruct (backspace_on_confirmed_digit JSProgram.integral_pow
              (set_expression (js "12+34") (cleared [] blank_display))
              eq_refl eq_refl eq_refl) as (Hmove & Hne & _).
  split; [exact Hmove|exact Hne].
Defined.

Lemma equals_on_error_keeps_history_witness :
  let st := set_currentInput (js "0")
              (set_expression (js "5/") (cleared [] blank_display)) in
  evaluateExpression JSProgram.integral_pow (js "5/0") = js "Error"
  /\ history (handleEquals JSProgram.integral_pow 0 st) = []
  /\ expression (handleEquals JSProgram.integral_pow 0 st) = []
  /\ currentInput (handleEquals JSProgram.integral_pow 0 st) = []
  /\ displayResult (display (handleEquals JSProgram.integral_pow 0 st))
     = js "Error".
Proof.
  split; [vm_compute; reflexivity|].
  apply (proj1 (equals_on_error_keeps_history JSProgram.integral_pow) 0
           (set_currentInput (js "0")
              (set_expression (js "5/") (cleared [] blank_display)))).
  vm_compute; reflexivity.
Defined.

Lemma loadFromHistory_out_of_range_witness :
  (Z.of_nat (length (history (cleared [] blank_display))) <= 3)
  /\ loadFromHistory JSProgram.integral_pow 3 (cleared [] blank_display)
     = cleared [] blank_display.
Proof.
  split; [cbn; lia|].
  apply (loadFromHistory_out_of_range JSProgram.integral_pow 3
           (cleared [] blank_display)).
  right; cbn; lia.
Defined.

Lemma history_cap_witness :
  distinct sample_calculations = true
  /\ length sample_calculations = 101%nat
  /\ length (history (fold_left add_calculation sample_calculations
                        (cleared [] blank_display))) = 100%nat.
Proof.
  split; [vm_compute; reflexivity|]. split; [reflexivity|].
  apply (proj1 (proj2 (proj2 history_cap)
                  (hd ([], [], 0) sample_calculations)
                  (tl sample_calculations) (cleared [] blank_display)
                  eq_refl eq_refl eq_refl)).
Defined.

Lemma input_shape_kept_witness :
  let st := set_currentInput (js "12") (cleared [] blank_display) in
  input_shape (currentInput st) = true
  /\ input_shape
       (currentInput (step JSProgram.integral_pow st (Digit (js "3")))) = true.
Proof.
  split; [reflexivity|].
  apply (proj1 (input_shape_kept JSProgram.integral_pow
                  (set_currentInput (js "12") (cleared [] blank_display))
                  (Digit (js "3")) eq_refl)).
  reflexivity.
Defined.

Lemma loadHistory_returns_witness :
  JSON.parse (js "{broken") = None
  /\ loadHistory (GetItemText (js "{broken")) (JSON.JArray [])
     = Returns (JSON.JArray []).
Proof.
  split; [vm_compute; reflexivity|].
  apply (proj1 (proj2 (proj2 (proj2 (loadHistory_returns
                                       (GetItemText (js "{broken"))
                                       (JSON.JArray [])))))
           (js "{broken") eq_refl eq_refl).
  vm_compute; reflexivity.
Defined.

(** The keys 1, -, 2, = from the cleared state leave currentInput equal to
    -1, which has a sign: the shape digits, point, digits is lost, although
    the cleared state had it. *)
Lemma input_shape_lost_on_equals :
  let st0 := cleared [] blank_display in
  let st :=
    run JSProgram.integral_pow
      [Digit (js "1"); Operator (js "-"); Digit (js "2"); Equals 0] st0 in
  input_shape (currentInput st0) = true
  /\ currentInput st = js "-1"
  /\ input_shape (currentInput st) = false.
Proof. vm_compute. repeat split. Qed.

(** The stored texts [[1]] and [5] are JSON but no history log; after
    [loadHistory] the history is the parsed value, not the empty log. *)
Lemma loadHistory_keeps_any_json :
  well_formed_store (js "[1]") = false
  /\ loadHistory (GetItemText (js "[1]")) (JSON.JArray [])
     = Returns (JSON.JArray [JSON.JNumber (of_Z 1)])
  /\ Returns (JSON.JArray [JSON.JNumber (of_Z 1)])
     <> Returns (JSON.JArray [])
  /\ well_formed_store (js "5") = false
  /\ loadHistory (GetItemText (js "5")) (JSON.JArray [])
     = Returns (JSON.JNumber (of_Z 5)).
Proof.
  repeat split; try (vm_compute; reflexivity).
  intros H; discriminate H.
Qed.

(* ===================================================================== *)
(** * Properties of the rest of the program *)
(* ===================================================================== *)

(** ** Decimal digits and integers as Numbers *)

Lemma digits_fuel_acc (fuel : nat) (n : Z) (acc : jsstring) :
  digits_fuel fuel n acc = digits_fuel fuel n [] ++ acc.
Proof.
  revert n acc; induction fuel as [|fuel IH]; intros n acc; [reflexivity|].
  cbn [digits_fuel]. destruct (n <? 10); [reflexivity|].
  rewrite IH, (IH _ [_]), <- app_assoc. reflexivity.
Qed.

Lemma digits_fuel_enough (f1 f2 : nat) (n : Z) (acc : jsstring) :
  (1 <= f1)%nat -> (1 <= f2)%nat -> 0 <= n ->
  n < 2 ^ Z.of_nat f1 -> n < 2 ^ Z.of_nat f2 ->
  digits_fuel f1 n acc = digits_fuel f2 n acc.
Proof.
  revert f2 n acc; induction f1 as [|f1 IH]; intros f2 n acc H1 H2 Hn Hf1 Hf2;
    [lia|].
  destruct f2 as [|f2]; [lia|]. cbn [digits_fuel].
  destruct (Z.ltb_spec n 10) as [Hlt|Hge]; [reflexivity|].
  assert (Hq : 1 <= n / 10) by (apply Z.div_le_lower_bound; lia).
  assert (Hhalf : forall f : nat, n < 2 ^ Z.of_nat (S f) -> n / 10 < 2 ^ Z.of_nat f).
  { intros f Hf. rewrite Nat2Z.inj_succ, Z.pow_succ_r in Hf by lia.
    apply Z.div_lt_upper_bound; lia. }
  pose proof (Hhalf _ Hf1) as Hq1. pose proof (Hhalf _ Hf2) as Hq2.
  assert (Hpos : forall f : nat, n / 10 < 2 ^ Z.of_nat f -> (1 <= f)%nat).
  { intros [|f] Hf; [cbn in Hf; lia|lia]. }
  apply IH; auto; lia.
Qed.

Lemma digits_of_Z_small (n : Z) :
  0 <= n < 10 -> digits_of_Z n = [(48 + Z.to_N n)%N].
Proof.
  intros Hn. unfold digits_of_Z. cbn [digits_fuel].
  replace (n <? 10) with true by (symmetry; apply Z.ltb_lt; lia).
  rewrite Z.mod_small by lia. reflexivity.
Qed.

Lemma digits_of_Z_step (n : Z) :
  10 <= n ->
  digits_of_Z n = digits_of_Z (n / 10) ++ [(48 + Z.to_N (n mod 10))%N].
Proof.
  intros Hn. set (q := digits_of_Z (n / 10)).
  unfold digits_of_Z. cbn [digits_fuel].
  replace (n <? 10) with false by (symmetry; apply Z.ltb_ge; lia).
  rewrite digits_fuel_acc. f_equal. subst q. unfold digits_of_Z.
  assert (Hq : 1 <= n / 10) by (apply Z.div_le_lower_bound; lia).
  pose proof (Z.log2_spec n ltac:(lia)) as [Hlo Hhi].
  pose proof (Z.log2_spec (n / 10) ltac:(lia)) as [Hlo' Hhi'].
  pose proof (Z.log2_nonneg n). pose proof (Z.log2_nonneg (n / 10)).
  assert (Hl : 3 <= Z.log2 n).
  { apply Z.log2_le_pow2; [lia|]. change (2 ^ 3) with 8. lia. }
  apply digits_fuel_enough; try lia.
  - rewrite Z2Nat.id by lia.
    replace (Z.log2 n) with (Z.succ (Z.log2 n - 1)) by lia.
    rewrite Z.pow_succ_r by lia.
    replace (Z.succ (Z.log2 n)) with (Z.log2 n - 1 + 2) in Hhi by lia.
    rewrite Z.pow_add_r in Hhi by lia. change (2 ^ 2) with 4 in Hhi.
    apply Z.div_lt_upper_bound; lia.
  - rewrite Nat2Z.inj_succ, Z2Nat.id by lia. exact Hhi'.
Qed.

Lemma Z_of_digits_snoc (b : Z) (s : jsstring) (c : char) :
  Z_of_digits b (s ++ [c]) = Z_of_digits b s * b + (Z.of_N c - 48).
Proof. unfold Z_of_digits. rewrite fold_left_app. reflexivity. Qed.

Lemma Z_of_digits_digits_of_Z (n : Z) :
  0 <= n -> Z_of_digits 10 (digits_of_Z n) = n.
Proof.
  revert n. apply (Zlt_0_ind (fun n => Z_of_digits 10 (digits_of_Z n) = n)).
  intros n IH Hn. destruct (Z_lt_le_dec n 10) as [Hlt|Hge].
  - rewrite digits_of_Z_small by lia. unfold Z_of_digits. cbn [fold_left]. lia.
  - rewrite digits_of_Z_step, Z_of_digits_snoc by lia.
    assert (Hq : 0 <= n / 10 < n).
    { split; [apply Z.div_pos; lia|apply Z.div_lt; lia]. }
    rewrite IH by lia.
    pose proof (Z.mod_pos_bound n 10 ltac:(lia)).
    pose proof (Z.div_mod n 10 ltac:(lia)). lia.
Qed.

Lemma digits_of_Z_pow10 (s : Z) (j : nat) :
  0 < s -> digits_of_Z (s * 10 ^ Z.of_nat j) = digits_of_Z s ++ zeros j.
Proof.
  intros Hs. induction j as [|j IH].
  - cbn. rewrite Z.mul_1_r, app_nil_r. reflexivity.
  - rewrite Nat2Z.inj_succ, Z.pow_succ_r by lia.
    assert (Hp : 0 < 10 ^ Z.of_nat j) by (apply Z.pow_pos_nonneg; lia).
    rewrite digits_of_Z_step by nia.
    replace (s * (10 * 10 ^ Z.of_nat j)) with (s * 10 ^ Z.of_nat j * 10) by ring.
    rewrite Z.div_mul, Z.mod_mul by lia. rewrite IH.
    unfold zeros. rewrite <- app_assoc. f_equal.
    change [(48 + Z.to_N 0)%N] with [48%N].
    symmetry. change (repeat 48%N (S j)) with (48%N :: repeat 48%N j).
    apply repeat_cons.
Qed.

(** The digits of a positive integer start with a digit that is not zero. *)
Lemma digits_of_Z_head (n : Z) :
  0 < n ->
  exists c rest, digits_of_Z n = c :: rest /\ is_digit c = true /\ c <> 48%N.
Proof.
  intros Hn. assert (H0 : 0 <= n) by lia. revert n H0 Hn.
  apply (Zlt_0_ind (fun n => 0 < n -> exists c rest, digits_of_Z n = c :: rest /\ is_digit c = true /\ c <> 48%N)).
  intros n IH _ Hn. destruct (Z_lt_le_dec n 10) as [Hlt|Hge].
  - rewrite digits_of_Z_small by lia. eexists; eexists. split; [reflexivity|].
    unfold is_digit. split; [apply andb_true_iff; split; apply N.leb_le; lia|lia].
  - rewrite digits_of_Z_step by lia.
    assert (Hq : 0 < n / 10 < n).
    { split; [apply Z.div_str_pos; lia|apply Z.div_lt; lia]. }
    destruct (IH (n / 10) ltac:(lia) ltac:(lia)) as (c & rest & -> & Hd & Hc).
    exists c, (rest ++ [(48 + Z.to_N (n mod 10))%N]). repeat split; assumption.
Qed.

(** ** Integers as binary64 values *)

Lemma digits2_pos_log2 (p : positive) :
  Zpos (digits2_pos p) = Z.log2 (Zpos p) + 1.
Proof.
  rewrite digits2_pos_size. destruct p; cbn [Z.log2 Pos.size]; lia.
Qed.

Lemma digits2_pos_bound (p : positive) (k : Z) :
  0 <= k -> (Zpos p < 2 ^ k <-> Zpos (digits2_pos p) <= k).
Proof.
  intros Hk. rewrite digits2_pos_log2.
  rewrite (Z.log2_lt_pow2 (Zpos p) k) by lia. lia.
Qed.

Lemma Zpos_shiftl (n : positive) (k : N) :
  Zpos (Pos.shiftl n k) = Zpos n * 2 ^ Z.of_N k.
Proof.
  destruct k as [|p]; cbn [Pos.shiftl Z.of_N].
  - rewrite Z.mul_1_r. reflexivity.
  - apply Zpos_iter_xO.
Qed.

Lemma digits2_pos_shiftl (n : positive) (k : N) :
  Zpos (digits2_pos (Pos.shiftl n k)) = Zpos (digits2_pos n) + Z.of_N k.
Proof.
  destruct k as [|p]; cbn [Pos.shiftl Z.of_N]; [lia|].
  rewrite digits2_pos_iter. lia.
Qed.

Lemma integer_mantissa_digits (n : positive) :
  Zpos n < 2 ^ 53 -> digits2_pos (integer_mantissa n) = 53%positive.
Proof.
  intros Hn. apply digits2_pos_bound in Hn; [|lia].
  pose proof (digits2_pos_shiftl n (Z.to_N (53 - Zpos (digits2_pos n)))) as H.
  unfold integer_mantissa. rewrite Z2N.id in H by lia. lia.
Qed.

Lemma integer_mantissa_value (n : positive) :
  Zpos n < 2 ^ 53 ->
  Zpos (integer_mantissa n) = Zpos n * 2 ^ (- integer_exponent n).
Proof.
  intros Hn. apply digits2_pos_bound in Hn; [|lia].
  unfold integer_mantissa, integer_exponent. rewrite Zpos_shiftl.
  rewrite Z2N.id by lia. f_equal. f_equal. lia.
Qed.

Lemma integer_exponent_bounds (n : positive) :
  Zpos n < 2 ^ 53 -> -52 <= integer_exponent n <= 0.
Proof.
  intros Hn. apply digits2_pos_bound in Hn; [|lia].
  unfold integer_exponent. lia.
Qed.

(** Rounding a 53-bit mantissa that was shifted left, with any sign. *)
Lemma round_shifted_left (s : bool) (m : positive) (k : N) (e : Z) :
  digits2_pos m = 53%positive -> -1074 <= e <= 971 ->
  binary_round_aux prec emax s (Zpos (Pos.shiftl m k)) (e - Z.of_N k) loc_Exact
  = S754_finite s m e.
Proof.
  intros Hd He. unfold binary_round_aux.
  assert (H2 : shr_fexp prec emax (Zpos m) e loc_Exact
          = ({| shr_m := Zpos m; shr_r := false; shr_s := false |}, e)).
  { unfold shr_fexp, shr. cbn [Zdigits2 shr_record_of_loc]. rewrite Hd.
    replace (fexp prec emax (53 + e) - e) with 0; [reflexivity|].
    unfold fexp, emin, prec, emax. lia. }
  assert (H1 : shr_fexp prec emax (Zpos (Pos.shiftl m k)) (e - Z.of_N k) loc_Exact
          = ({| shr_m := Zpos m; shr_r := false; shr_s := false |}, e)).
  { destruct k as [|p]; cbn [Pos.shiftl Z.of_N].
    - rewrite Z.sub_0_r. exact H2.
    - unfold shr_fexp, shr. cbn [Zdigits2 shr_record_of_loc].
      rewrite digits2_pos_iter, Hd.
      replace (fexp prec emax (Zpos (53 + p) + (e - Zpos p)) - (e - Zpos p))
        with (Zpos p) by (unfold fexp, emin, prec, emax; lia).
      rewrite iter_pos_shr_1. f_equal. lia. }
  rewrite H1. cbn [shr_m loc_of_shr_record round_nearest_even].
  rewrite H2. cbn [shr_m].
  replace (e <=? emax - prec) with true; [reflexivity|].
  symmetry. apply Z.leb_le. unfold emax, prec. lia.
Qed.

(** Rounding [mz * 2^ez] when it is the integer [n] below [2^53] and [mz]
    has 53 bits or more. *)
Lemma round_integer (s : bool) (mz n : positive) (ez : Z) :
  Zpos n < 2 ^ 53 -> ez <= integer_exponent n ->
  Zpos mz = Zpos n * 2 ^ (- ez) ->
  binary_round_aux prec emax s (Zpos mz) ez loc_Exact = of_pos s n.
Proof.
  intros Hn Hez Hmz.
  pose proof (integer_exponent_bounds n Hn) as He.
  set (k := Z.to_N (integer_exponent n - ez)).
  assert (Hk : Z.of_N k = integer_exponent n - ez) by (unfold k; lia).
  assert (Hm : mz = Pos.shiftl (integer_mantissa n) k).
  { apply Pos2Z.inj. rewrite Zpos_shiftl, integer_mantissa_value, Hmz, Hk by exact Hn.
    rewrite <- Z.mul_assoc, <- Z.pow_add_r by lia. f_equal. f_equal. lia. }
  rewrite Hm. replace ez with (integer_exponent n - Z.of_N k) by lia.
  apply round_shifted_left; [apply integer_mantissa_digits, Hn|lia].
Qed.

Lemma binary_round_integer (s : bool) (mz n : positive) (ez : Z) :
  Zpos n < 2 ^ 53 -> ez <= 0 ->
  Zpos mz = Zpos n * 2 ^ (- ez) ->
  binary_round prec emax s mz ez = of_pos s n.
Proof.
  intros Hn Hez Hmz. unfold binary_round.
  pose proof (integer_exponent_bounds n Hn) as He.
  assert (Hd : Zpos (digits2_pos mz) + ez = Zpos (digits2_pos n)).
  { replace mz with (Pos.shiftl n (Z.to_N (- ez))).
    - rewrite digits2_pos_shiftl, Z2N.id by lia. lia.
    - apply Pos2Z.inj. rewrite Zpos_shiftl, Z2N.id by lia. symmetry; exact Hmz. }
  rewrite Hd.
  replace (fexp prec emax (Zpos (digits2_pos n))) with (integer_exponent n)
    by (unfold fexp, emin, prec, emax, integer_exponent in *; lia).
  unfold shl_align.
  destruct (integer_exponent n - ez) as [|d|d] eqn:Hs.
  - apply round_integer; [exact Hn|lia|exact Hmz].
  - apply round_integer; [exact Hn|lia|exact Hmz].
  - apply round_integer; [exact Hn|lia|].
    rewrite Zpos_iter_xO, Hmz, <- Z.mul_assoc, <- Z.pow_add_r by lia.
    f_equal. f_equal. lia.
Qed.

(** The Number of a positive integer below [2^53]. *)
Lemma of_ratio_pos (n : positive) :
  Zpos n < 2 ^ 53 -> of_ratio false (Zpos n) 1 = of_pos false n.
Proof.
  intros Hn. pose proof (integer_exponent_bounds n Hn) as He.
  apply of_ratio_exact.
  - apply integer_mantissa_digits, Hn.
  - lia.
  - rewrite integer_mantissa_value by exact Hn.
    destruct (Z.leb_spec 0 (integer_exponent n)) as [H0|H0].
    + replace (integer_exponent n) with 0 by lia. cbn. lia.
    + reflexivity.
Qed.

Lemma of_decimal_pos (n : positive) :
  Zpos n < 2 ^ 53 -> of_decimal false (Zpos n) 0 = of_pos false n.
Proof.
  intros Hn. unfold of_decimal. change (0 <=? 0) with true. cbn iota.
  change (10 ^ 0) with 1. rewrite Z.mul_1_r. apply of_ratio_pos, Hn.
Qed.

Lemma shl_align_value (m : positive) (e ez : Z) :
  ez <= e -> Zpos (fst (shl_align m e ez)) = Zpos m * 2 ^ (e - ez).
Proof.
  intros H. unfold shl_align. destruct (ez - e) as [|d|d] eqn:Hd; cbn [fst].
  - replace (e - ez) with 0 by lia. lia.
  - lia.
  - rewrite Zpos_iter_xO. f_equal. f_equal. lia.
Qed.

Lemma aligned_value (n : positive) (ez : Z) :
  Zpos n < 2 ^ 53 -> ez <= integer_exponent n ->
  Zpos (fst (shl_align (integer_mantissa n) (integer_exponent n) ez))
  = Zpos n * 2 ^ (- ez).
Proof.
  intros Hn Hez. pose proof (integer_exponent_bounds n Hn) as He.
  rewrite shl_align_value, integer_mantissa_value by assumption.
  rewrite <- Z.mul_assoc, <- Z.pow_add_r by lia. f_equal. f_equal. lia.
Qed.

(** Addition of two positive integers is exact below [2^53]. *)
Lemma add_pos (a b : positive) :
  Zpos (a + b) < 2 ^ 53 ->
  add (of_pos false a) (of_pos false b) = of_pos false (a + b).
Proof.
  intros Hab. assert (Ha : Zpos a < 2 ^ 53) by lia.
  assert (Hb : Zpos b < 2 ^ 53) by lia.
  pose proof (integer_exponent_bounds a Ha) as Hea.
  pose proof (integer_exponent_bounds b Hb) as Heb.
  unfold add, of_pos, SFadd. cbv zeta.
  set (ez := Z.min (integer_exponent a) (integer_exponent b)).
  assert (Hez : ez <= integer_exponent a /\ ez <= integer_exponent b)
    by (unfold ez; lia).
  cbn [cond_Zopp].
  pose proof (aligned_value a ez Ha (proj1 Hez)) as Hva.
  pose proof (aligned_value b ez Hb (proj2 Hez)) as Hvb.
  assert (Hp : 0 < 2 ^ (- ez)) by (apply Z.pow_pos_nonneg; lia).
  destruct (Zpos (fst (shl_align (integer_mantissa a) (integer_exponent a) ez))
            + Zpos (fst (shl_align (integer_mantissa b) (integer_exponent b) ez)))
    as [|mz|mz] eqn:Hs; try lia.
  cbn [binary_normalize]. apply binary_round_integer; [exact Hab|lia|].
  rewrite <- Hs, Hva, Hvb. rewrite Pos2Z.inj_add. ring.
Qed.

(** Subtraction of two positive integers below [2^53] is exact. *)
Lemma sub_pos (a b : positive) :
  Zpos a < 2 ^ 53 -> Zpos b < 2 ^ 53 ->
  sub (of_pos false a) (of_pos false b)
  = match Zpos a - Zpos b with
    | Z0 => S754_zero false
    | Zpos n => of_pos false n
    | Zneg n => of_pos true n
    end.
Proof.
  intros Ha Hb.
  pose proof (integer_exponent_bounds a Ha) as Hea.
  pose proof (integer_exponent_bounds b Hb) as Heb.
  unfold sub, of_pos, SFsub. cbv zeta.
  set (ez := Z.min (integer_exponent a) (integer_exponent b)).
  assert (Hez : ez <= integer_exponent a /\ ez <= integer_exponent b)
    by (unfold ez; lia).
  cbn [cond_Zopp].
  pose proof (aligned_value a ez Ha (proj1 Hez)) as Hva.
  pose proof (aligned_value b ez Hb (proj2 Hez)) as Hvb.
  assert (Hp : 0 < 2 ^ (- ez)) by (apply Z.pow_pos_nonneg; lia).
  rewrite Hva, Hvb, <- Z.mul_sub_distr_r.
  destruct (Zpos a - Zpos b) as [|n|n] eqn:Hd.
  - reflexivity.
  - assert (Hn : Zpos n < 2 ^ 53) by lia.
    destruct (Zpos n * 2 ^ (- ez)) as [|mz|mz] eqn:Hs; try lia.
    cbn [binary_normalize]. apply binary_round_integer; [exact Hn|lia|lia].
  - assert (Hn : Zpos n < 2 ^ 53) by lia.
    destruct (Zneg n * 2 ^ (- ez)) as [|mz|mz] eqn:Hs; try lia.
    cbn [binary_normalize]. apply binary_round_integer; [exact Hn|lia|lia].
Qed.

(** Multiplication of two positive integers is exact below [2^53]. *)
Lemma mul_pos (a b : positive) :
  Zpos (a * b) < 2 ^ 53 ->
  mul (of_pos false a) (of_pos false b) = of_pos false (a * b).
Proof.
  intros Hab. assert (Ha : Zpos a < 2 ^ 53) by nia.
  assert (Hb : Zpos b < 2 ^ 53) by nia.
  pose proof (integer_exponent_bounds a Ha) as Hea.
  pose proof (integer_exponent_bounds b Hb) as Heb.
  unfold mul, of_pos, SFmul. cbn [xorb].
  apply round_integer; [exact Hab| |].
  - unfold integer_exponent in *. rewrite !digits2_pos_log2.
    pose proof (Z.log2_mul_below (Zpos a) (Zpos b) ltac:(lia) ltac:(lia)).
    rewrite Pos2Z.inj_mul.
    pose proof (Z.log2_nonneg (Zpos a)). pose proof (Z.log2_nonneg (Zpos b)).
    rewrite !digits2_pos_log2 in Hea, Heb. lia.
  - rewrite Pos2Z.inj_mul, !integer_mantissa_value by assumption.
    rewrite Z.opp_add_distr, Z.pow_add_r by lia. rewrite Pos2Z.inj_mul. ring.
Qed.

Lemma new_location_exact (n : Z) : new_location n 0 = loc_Exact.
Proof. unfold new_location. destruct (Z.even n); reflexivity. Qed.

Lemma div_eucl_exact (q m : Z) : 0 < m -> Z.div_eucl (q * m) m = (q, 0).
Proof.
  intros Hm. pose proof (Z.div_mul q m ltac:(lia)) as Hq.
  pose proof (Z.mod_mul q m ltac:(lia)) as Hr.
  unfold Z.div, Z.modulo in Hq, Hr.
  destruct (Z.div_eucl (q * m) m) as [x r]. cbn in Hq, Hr. congruence.
Qed.

(** Division of a positive integer by one of its divisors is exact. *)
Lemma div_pos (q b : positive) :
  Zpos (q * b) < 2 ^ 53 ->
  div (of_pos false (q * b)) (of_pos false b) = of_pos false q.
Proof.
  intros Hab. assert (Hq : Zpos q < 2 ^ 53) by nia.
  assert (Hb : Zpos b < 2 ^ 53) by nia.
  pose proof (integer_exponent_bounds (q * b) Hab) as Hea.
  pose proof (integer_exponent_bounds b Hb) as Heb.
  pose proof (integer_exponent_bounds q Hq) as Heq.
  unfold div, of_pos, SFdiv. cbn [xorb].
  unfold SFdiv_core_binary. cbn [Zdigits2].
  rewrite !integer_mantissa_digits by assumption.
  set (ea := integer_exponent (q * b)) in *. set (eb := integer_exponent b) in *.
  replace (Z.min (fexp prec emax (53 + ea - (53 + eb))) (ea - eb))
    with (ea - eb - 53) by (unfold fexp, emin, prec, emax; lia).
  replace (ea - eb - (ea - eb - 53)) with 53 by lia.
  cbv iota. rewrite Z.shiftl_mul_pow2 by lia.
  assert (Hdiv : Zpos (integer_mantissa (q * b)) * 2 ^ 53
                 = (Zpos q * 2 ^ (53 - ea + eb)) * Zpos (integer_mantissa b)).
  { rewrite !integer_mantissa_value by assumption. fold ea eb.
    rewrite Pos2Z.inj_mul.
    transitivity (Zpos q * Zpos b * (2 ^ (- ea) * 2 ^ 53)); [ring|].
    transitivity (Zpos q * Zpos b * (2 ^ (53 - ea + eb) * 2 ^ (- eb))); [|ring].
    rewrite <- !Z.pow_add_r by lia. f_equal. f_equal. lia. }
  rewrite Hdiv, div_eucl_exact by lia. rewrite new_location_exact.
  assert (Hp : 0 < 2 ^ (53 - ea + eb)) by (apply Z.pow_pos_nonneg; lia).
  destruct (Zpos q * 2 ^ (53 - ea + eb)) as [|mz|mz] eqn:Hs; try lia.
  apply round_integer; [exact Hq| |].
  - unfold integer_exponent in *. subst ea eb.
    assert (Hd : Zpos (digits2_pos (q * b))
                 <= Zpos (digits2_pos q) + Zpos (digits2_pos b)).
    { apply digits2_pos_bound; [lia|]. rewrite Pos2Z.inj_mul, Z.pow_add_r by lia.
      assert (Zpos q < 2 ^ Zpos (digits2_pos q)) by (apply digits2_pos_bound; lia).
      assert (Zpos b < 2 ^ Zpos (digits2_pos b)) by (apply digits2_pos_bound; lia).
      nia. }
    lia.
  - rewrite <- Hs. f_equal. f_equal. lia.
Qed.

(** ** Number::toString on integers below [10^15] *)

Lemma of_pos_inj (a b : positive) :
  Zpos a < 2 ^ 53 -> Zpos b < 2 ^ 53 ->
  of_pos false a = of_pos false b -> a = b.
Proof.
  intros Ha Hb H. unfold of_pos in H. injection H as Hm He.
  apply (f_equal Zpos) in Hm.
  rewrite !integer_mantissa_value, He in Hm by assumption.
  pose proof (integer_exponent_bounds b Hb).
  assert (Hp : 0 < 2 ^ (- integer_exponent b)) by (apply Z.pow_pos_nonneg; lia).
  apply Pos2Z.inj. nia.
Qed.

Lemma of_decimal_integer (s : Z) (j : Z) :
  0 <= j -> 0 <= s -> s * 10 ^ j < 2 ^ 53 ->
  of_decimal false s j
  = match s * 10 ^ j with
    | Zpos n => of_pos false n
    | _ => S754_zero false
    end.
Proof.
  intros Hj Hs Hlt. unfold of_decimal.
  replace (0 <=? j) with true by (symmetry; apply Z.leb_le, Hj).
  assert (Hp : 0 < 10 ^ j) by (apply Z.pow_pos_nonneg; lia).
  destruct (s * 10 ^ j) as [|n|n] eqn:Hn; [reflexivity| |nia].
  apply of_ratio_pos. lia.
Qed.

Lemma ratio_of_pos (n : positive) :
  Zpos n < 2 ^ 53 ->
  exists den, 0 < den
    /\ ratio_of (integer_mantissa n) (integer_exponent n) = (Zpos n * den, den).
Proof.
  intros Hn. pose proof (integer_exponent_bounds n Hn) as He.
  pose proof (integer_mantissa_value n Hn) as Hm. unfold ratio_of.
  destruct (Z.leb_spec 0 (integer_exponent n)) as [H0|H0].
  - exists 1. split; [lia|]. replace (integer_exponent n) with 0 in * by lia.
    rewrite Hm. f_equal. change (2 ^ (- 0)) with 1. change (2 ^ 0) with 1. ring.
  - exists (2 ^ (- integer_exponent n)). split.
    + apply Z.pow_pos_nonneg; lia.
    + rewrite Hm. reflexivity.
Qed.

Lemma magnitude_below (N den B : Z) :
  0 < den -> 1 <= N < 10 ^ B -> 0 <= B <= 300 ->
  1 <= magnitude (N * den) den <= B
  /\ N < 10 ^ magnitude (N * den) den.
Proof.
  intros Hden HN HB. unfold magnitude.
  destruct (magnitude_fuel_spec 700 (N * den) den (-330)) as (H1 & H2 & H3).
  set (r := magnitude_fuel 700 (N * den) den (-330)) in *.
  assert (Hr1 : 1 <= r).
  { destruct (Z_lt_le_dec r 1) as [Hlt|]; [|assumption]. exfalso.
    assert (Hb : below (N * den) den r = true) by (apply H3; lia).
    rewrite below_integer in Hb by lia.
    apply andb_true_iff in Hb as [Hb1 Hb2].
    apply Z.leb_le in Hb1. apply Z.ltb_lt in Hb2.
    replace r with 0 in Hb2 by lia. change (10 ^ 0) with 1 in Hb2. lia. }
  assert (Hr2 : r <= B).
  { destruct (Z_lt_le_dec B r) as [Hlt|]; [|assumption]. exfalso.
    assert (Hb : below (N * den) den B = false) by (apply H2; lia).
    rewrite below_integer in Hb by lia.
    replace (0 <=? B) with true in Hb by (symmetry; apply Z.leb_le; lia).
    cbn [andb] in Hb. apply Z.ltb_ge in Hb. lia. }
  split; [lia|].
  assert (Hb : below (N * den) den r = true) by (apply H3; lia).
  rewrite below_integer in Hb by lia.
  apply andb_true_iff in Hb as [_ Hb]. apply Z.ltb_lt in Hb. exact Hb.
Qed.

(** What [candidate] can answer when [k] does not exceed [n0]. *)
Lemma candidate_answer (x : number) (num den n0 k s n : Z) :
  k <= n0 ->
  candidate x num den n0 k = Some (s, n) ->
  let lo := num / (den * 10 ^ (n0 - k)) in
  (s = lo /\ n = n0 /\ eqb (of_decimal false lo (n0 - k)) x = true)
  \/ (s = lo + 1 /\ n = n0
      /\ eqb (of_decimal false (lo + 1) (n0 - k)) x = true)
  \/ (s = 10 ^ (k - 1) /\ n = n0 + 1
      /\ eqb (of_decimal false (10 ^ (k - 1)) (n0 + 1 - k)) x = true).
Proof.
  intros Hk. unfold candidate.
  destruct (Z.leb_spec 0 (k - n0)) as [H0|H0].
  - replace k with n0 by lia. rewrite !Z.sub_diag.
    change (10 ^ 0) with 1. rewrite !Z.mul_1_r. cbv zeta.
    destruct (num / den + 1 <? 10 ^ n0); cbn [fst snd];
      rewrite ?Z.sub_diag;
      destruct (eqb (of_decimal false (num / den) 0) x) eqn:Hlo;
      destruct (eqb (of_decimal false _ _) x) eqn:Hhi in |- *;
      try discriminate;
      try destruct (match _ ?= _ with Eq => _ | Lt => _ | Gt => _ end);
      intros [= <- <-]; auto.
    all: try (right; left; repeat split; assumption).
    all: try (right; right; rewrite Z.add_simpl_l; repeat split; assumption).
  - cbv zeta.
    destruct (num / (den * 10 ^ (n0 - k)) + 1 <? 10 ^ k); cbn [fst snd];
      destruct (eqb (of_decimal false (num / (den * 10 ^ (n0 - k))) (n0 - k)) x) eqn:Hlo;
      destruct (eqb (of_decimal false _ _) x) eqn:Hhi in |- *;
      try discriminate;
      try destruct (match _ ?= _ with Eq => _ | Lt => _ | Gt => _ end);
      intros [= <- <-]; auto.
    all: try (right; left; repeat split; assumption).
    all: try (right; right; repeat split; assumption).
Qed.

Lemma eqb_of_pos (y : number) (n : positive) :
  eqb y (of_pos false n) = true -> y = of_pos false n.
Proof. apply eqb_finite_eq. Qed.

(** The digits found for a positive integer below [10^15] spell it. *)
Lemma shortest_of_pos (N : positive) :
  Zpos N < 10 ^ 15 ->
  let '(n, k, s) := shortest (integer_mantissa N) (integer_exponent N) in
  k <= n <= 21 /\ 0 < s /\ s * 10 ^ (n - k) = Zpos N.
Proof.
  intros HN.
  assert (H53 : Zpos N < 2 ^ 53).
  { change (2 ^ 53) with 9007199254740992.
    change (10 ^ 15) with 1000000000000000 in HN. lia. }
  destruct (ratio_of_pos N H53) as (den & Hden & Hr).
  unfold shortest. rewrite Hr.
  pose proof (of_ratio_pos N H53) as Hx. unfold of_pos in Hx.
  destruct (magnitude_below (Zpos N) den 15 Hden ltac:(lia) ltac:(lia))
    as [Hn0 Hbelow].
  set (n0 := magnitude (Zpos N * den) den) in *.
  set (x := S754_finite false (integer_mantissa N) (integer_exponent N)) in *.
  pose proof (candidate_exact _ _ (Zpos N) den n0 Hden Hx) as Hex. fold x in Hex.
  pose proof (shortest_fuel_spec 17 x (Zpos N * den) den n0 1) as Hs.
  destruct (shortest_fuel 17 x (Zpos N * den) den n0 1) as [[n k] s].
  destruct Hs as [Hnone [[Hk Hn]|[Hk Hc]]].
  { exfalso. apply Hex, Hnone. lia. }
  assert (Hkn : k <= n0).
  { destruct (Z_lt_le_dec n0 k) as [Hlt'|]; [|assumption].
    exfalso. apply Hex, Hnone. lia. }
  assert (Hp : 0 < 10 ^ (n0 - k)) by (apply Z.pow_pos_nonneg; lia).
  assert (Hj : 10 ^ (n0 - k) <= 10 ^ 14) by (apply Z.pow_le_mono_r; lia).
  assert (Hlo : Zpos N * den / (den * 10 ^ (n0 - k)) = Zpos N / 10 ^ (n0 - k)).
  { rewrite (Z.mul_comm (Zpos N) den). apply Z.div_mul_cancel_l; lia. }
  pose proof (Z.div_mod (Zpos N) (10 ^ (n0 - k)) ltac:(lia)) as Hdm.
  pose proof (Z.mod_pos_bound (Zpos N) (10 ^ (n0 - k)) Hp) as Hmod.
  assert (Hq : 0 <= Zpos N / 10 ^ (n0 - k)) by (apply Z.div_pos; lia).
  change (10 ^ 14) with 100000000000000 in Hj.
  change (10 ^ 15) with 1000000000000000 in HN.
  change (2 ^ 53) with 9007199254740992 in H53.
  destruct (candidate_answer x _ den n0 k s n Hkn Hc) as
    [(-> & -> & Hok)|[(-> & -> & Hok)|(-> & -> & Hok)]];
    rewrite ?Hlo in *; apply eqb_finite_eq in Hok; fold (of_pos false N) in Hok.
  - rewrite of_decimal_integer in Hok
      by (try lia; change (2 ^ 53) with 9007199254740992; nia).
    destruct (Zpos N / 10 ^ (n0 - k) * 10 ^ (n0 - k)) as [|v|v] eqn:Hv;
      [discriminate Hok| |nia].
    apply of_pos_inj in Hok;
      [|change (2 ^ 53) with 9007199254740992; nia
       |change (2 ^ 53) with 9007199254740992; lia].
    subst v. split; [lia|]. split; [nia|reflexivity].
  - exfalso. rewrite of_decimal_integer in Hok
      by (try lia; change (2 ^ 53) with 9007199254740992; nia).
    destruct ((Zpos N / 10 ^ (n0 - k) + 1) * 10 ^ (n0 - k)) as [|v|v] eqn:Hv;
      [discriminate Hok| |nia].
    apply of_pos_inj in Hok;
      [|change (2 ^ 53) with 9007199254740992; nia
       |change (2 ^ 53) with 9007199254740992; lia].
    subst v. nia.
  - exfalso.
    assert (H10 : 10 ^ (k - 1) * 10 ^ (n0 + 1 - k) = 10 ^ n0).
    { rewrite <- Z.pow_add_r by lia. f_equal. lia. }
    assert (Hn15 : 10 ^ n0 <= 10 ^ 15) by (apply Z.pow_le_mono_r; lia).
    change (10 ^ 15) with 1000000000000000 in Hn15.
    assert (Hk1 : 0 < 10 ^ (k - 1)) by (apply Z.pow_pos_nonneg; lia).
    rewrite of_decimal_integer in Hok
      by (try lia; rewrite H10; change (2 ^ 53) with 9007199254740992; lia).
    rewrite H10 in Hok.
    destruct (10 ^ n0) as [|v|v] eqn:Hv; [discriminate Hok| |lia].
    apply of_pos_inj in Hok;
      [|change (2 ^ 53) with 9007199254740992; lia
       |change (2 ^ 53) with 9007199254740992; lia].
    subst v. lia.
Qed.

Lemma toString_of_pos (s : bool) (N : positive) :
  Zpos N < 10 ^ 15 ->
  toString (of_pos s N)
  = (if s then js "-" else []) ++ digits_of_Z (Zpos N).
Proof.
  intros HN. pose proof (shortest_of_pos N HN) as Hs.
  unfold of_pos, toString.
  destruct (shortest (integer_mantissa N) (integer_exponent N)) as [[n k] d].
  destruct Hs as (Hkn & Hd & Hv). f_equal. unfold layout.
  replace ((k <=? n) && (n <=? 21)) with true
    by (symmetry; apply andb_true_iff; split; apply Z.leb_le; lia).
  rewrite <- Hv. rewrite <- (Z2Nat.id (n - k)) at 2 by lia.
  symmetry. apply digits_of_Z_pow10, Hd.
Qed.

(** ** The alphabet of the evaluator *)

Lemma filter_replace_all (p : char -> bool) (c d : char) (s : jsstring) :
  p c = p d ->
  filter p (replace_all c d s) = replace_all c d (filter p s).
Proof.
  intros Hp. unfold replace_all. induction s as [|x s IH]; [reflexivity|].
  cbn [map filter]. destruct (N.eqb_spec x c) as [->|Hne].
  - rewrite <- Hp. destruct (p c); cbn [map]; rewrite ?N.eqb_refl, IH; reflexivity.
  - destruct (p x); cbn [map]; rewrite IH; [|reflexivity].
    destruct (N.eqb_spec x c); [contradiction|reflexivity].
Qed.

Lemma truthy_replace_all (c d : char) (s : jsstring) :
  truthy (replace_all c d s) = truthy s.
Proof. destruct s; reflexivity. Qed.

(** Mapping the display glyphs back undoes [to_display]. *)
Lemma calculation_symbols_to_display (s : jsstring) :
  replace_all DIVIDE 47%N (replace_all TIMES 42%N (to_display s))
  = replace_all DIVIDE 47%N (replace_all TIMES 42%N s).
Proof.
  unfold to_display, replace_all. rewrite !map_map. apply map_ext.
  intros c. unfold TIMES, DIVIDE.
  destruct (N.eqb_spec c 42) as [->|H1]; [reflexivity|].
  destruct (N.eqb_spec c 47) as [->|H2]; [reflexivity|].
  reflexivity.
Qed.

Lemma to_display_idempotent (s : jsstring) :
  to_display (to_display s) = to_display s.
Proof.
  unfold to_display, replace_all. rewrite !map_map. apply map_ext.
  intros c. unfold TIMES, DIVIDE.
  destruct (N.eqb_spec c 42) as [->|H1]; [reflexivity|].
  destruct (N.eqb_spec c 47) as [->|H2]; [reflexivity|].
  destruct (N.eqb_spec c 42); [contradiction|].
  destruct (N.eqb_spec c 47); [contradiction|]. reflexivity.
Qed.

Section EvaluatorAlphabet.
Variable host_pow : number -> number -> number.

Lemma evaluateExpression_to_display (e : jsstring) :
  evaluateExpression host_pow (to_display e) = evaluateExpression host_pow e.
Proof.
  unfold evaluateExpression.
  assert (Hf : filter (fun c => negb (is_space c)) (to_display e)
               = to_display (filter (fun c => negb (is_space c)) e)).
  { unfold to_display. rewrite !filter_replace_all; reflexivity. }
  rewrite Hf. unfold to_display at 1. rewrite !truthy_replace_all.
  rewrite calculation_symbols_to_display. reflexivity.
Qed.

(** X5: the evaluator ignores white space: a white-space character
    anywhere in the text does not change the result. *)
Theorem evaluateExpression_space (a b : jsstring) (c : char) :
  is_space c = true ->
  evaluateExpression host_pow (a ++ c :: b) = evaluateExpression host_pow (a ++ b).
Proof.
  intros Hc. unfold evaluateExpression.
  rewrite !filter_app. cbn [filter]. rewrite Hc. reflexivity.
Qed.

(** X6: a text that holds a character outside the whitelist (digits,
    the four operators, parentheses, the point; white space and the two
    display glyphs apart) evaluates to the error marker. *)
Theorem evaluateExpression_whitelist (e : jsstring) (c : char) :
  In c e -> is_space c = false -> valid_char c = false ->
  c <> TIMES -> c <> DIVIDE ->
  evaluateExpression host_pow e = js "Error".
Proof.
  intros Hin Hs Hv Ht Hd. unfold evaluateExpression.
  set (s := filter (fun c => negb (is_space c)) e).
  assert (Hc : In c s).
  { apply filter_In. split; [exact Hin|]. rewrite Hs. reflexivity. }
  destruct s as [|x s'] eqn:Hse; [contradiction|]. cbn [truthy negb].
  rewrite <- Hse in *. clear Hse x s'.
  replace (forallb valid_char _) with false; [reflexivity|].
  symmetry. apply not_true_is_false. intros Hall.
  rewrite forallb_forall in Hall.
  specialize (Hall c). rewrite Hv in Hall. apply diff_false_true, Hall.
  unfold replace_all. apply in_map_iff. exists c. split.
  - destruct (N.eqb_spec c DIVIDE); [contradiction|reflexivity].
  - apply in_map_iff. exists c. split; [|exact Hc].
    destruct (N.eqb_spec c TIMES); [contradiction|reflexivity].
Qed.

End EvaluatorAlphabet.

Lemma history_updateDisplay hp (st : State) :
  history (updateDisplay hp st) = history st.
Proof. reflexivity. Qed.

Lemma length_snoc_cap (s d : jsstring) :
  (length d = 1 -> length s < 16 -> length (s ++ d) <= 16)%nat.
Proof. intros Hd Hs. rewrite length_app. lia. Qed.

Lemma no_leading_zero_snoc (s : jsstring) (c : char) :
  no_leading_zero s = true -> str_eqb s (js "0") = false ->
  no_leading_zero (s ++ [c]) = true.
Proof.
  destruct s as [|z [|c1 s]]; cbn [app no_leading_zero]; intros H H0.
  - reflexivity.
  - change (js "0") with [48%N] in H0. cbn [str_eqb] in H0.
    rewrite andb_true_r in H0. rewrite H0. reflexivity.
  - exact H.
Qed.

Section DigitKeys.
Variable host_pow : number -> number -> number.

(** X1: a one-character key handed to [handleNumber] never makes the
    pending input longer than sixteen characters (or than it already
    was), never makes it start with a zero that a digit follows when it
    did not before, and touches neither the expression nor the log. *)
Theorem handleNumber_key (c : char) (st : State) :
  let st' := handleNumber host_pow [c] st in
  (length (currentInput st') <= Nat.max 16 (length (currentInput st)))%nat
  /\ (no_leading_zero (currentInput st) = true ->
      no_leading_zero (currentInput st') = true)
  /\ expression st' = expression st
  /\ history st' = history st.
Proof.
  cbv zeta. unfold handleNumber.
  destruct (16 <=? length (currentInput st))%nat eqn:Hlen.
  { repeat split; [lia|tauto]. }
  apply Nat.leb_gt in Hlen.
  destruct (str_eqb [c] (js ".") && includes 46%N (currentInput st)).
  { repeat split; [lia|tauto]. }
  destruct (str_eqb [c] (js ".") && negb (truthy (currentInput st))).
  { cbn [updateDisplay currentInput expression history set_display set_currentInput].
    change (length (js "0.")) with 2%nat. repeat split. lia. }
  destruct (str_eqb [c] (js "0") && str_eqb (currentInput st) (js "0")).
  { repeat split; [lia|tauto]. }
  destruct (str_eqb (currentInput st) (js "0")) eqn:H0; cbn [andb].
  - apply str_eqb_eq in H0. rewrite H0.
    destruct (negb (str_eqb [c] (js "."))) eqn:Hp;
      cbn [updateDisplay currentInput expression history set_display set_currentInput].
    + cbn [length]. repeat split. lia.
    + change (length (js "0" ++ [c])) with 2%nat. change (length (js "0")) with 1%nat.
      split; [lia|]. split; [|split; reflexivity].
      intros _. apply negb_false_iff, str_eqb_eq in Hp.
      injection Hp as ->. reflexivity.
  - cbn [updateDisplay currentInput expression history set_display set_currentInput].
    split; [rewrite length_app; cbn [length]; lia|].
    split; [|split; reflexivity].
    intros Hz. apply no_leading_zero_snoc; assumption.
Qed.

End DigitKeys.

Section HistoryLog.
Variable host_pow : number -> number -> number.

Lemma addHistory_cases (expr result : jsstring) (now : Z) (st : State) :
  (addHistory expr result now st = st
   /\ exists item rest, history st = item :: rest
        /\ Entry.expression item = expr /\ Entry.result item = result)
  \/ (addHistory expr result now st
      = set_history
          (Entry.make expr result now :: firstn (MAX_HISTORY_ITEMS - 1) (history st))
          st).
Proof.
  unfold addHistory, renderHistoryModal, renderHistoryMini.
  destruct (match history st with [] => false | _ => _ end) eqn:Hd.
  - left. split; [reflexivity|].
    destruct (history st) as [|item rest]; [discriminate|].
    apply andb_true_iff in Hd as [H1 H2]. apply str_eqb_eq in H1, H2.
    exists item, rest. repeat split; assumption.
  - right. unfold saveHistory. cbn [history set_history length].
    destruct (MAX_HISTORY_ITEMS <? S (length (history st)))%nat eqn:Hl.
    + reflexivity.
    + apply Nat.ltb_ge in Hl.
      rewrite (firstn_all2 (n := MAX_HISTORY_ITEMS - 1))
        by (unfold MAX_HISTORY_ITEMS in *; lia).
      reflexivity.
Qed.

(** X3: adding to the log the calculation that [addHistory] has just
    added changes nothing, whatever the two times: the same expression and
    result are never recorded twice in a row. *)
Theorem addHistory_again (expr result : jsstring) (t1 t2 : Z) (st : State) :
  addHistory expr result t2 (addHistory expr result t1 st)
  = addHistory expr result t1 st.
Proof.
  assert (Hdup : forall s item rest,
             history s = item :: rest -> Entry.expression item = expr ->
             Entry.result item = result -> addHistory expr result t2 s = s).
  { intros s item rest Hh He Hr. unfold addHistory. rewrite Hh, He, Hr.
    rewrite !str_eqb_refl. reflexivity. }
  destruct (addHistory_cases expr result t1 st)
    as [[Heq (item & rest & Hh & He & Hr)] | Heq]; rewrite Heq.
  - eapply Hdup; eassumption.
  - eapply Hdup; reflexivity.
Qed.

Lemma addHistory_length (expr result : jsstring) (now : Z) (st : State) :
  (length (history st) <= MAX_HISTORY_ITEMS ->
   length (history (addHistory expr result now st)) <= MAX_HISTORY_ITEMS)%nat.
Proof.
  intros H.
  destruct (addHistory_cases expr result now st) as [[Heq _] | Heq]; rewrite Heq.
  - exact H.
  - cbn [history set_history length]. rewrite length_firstn.
    unfold MAX_HISTORY_ITEMS in *. lia.
Qed.

Lemma addHistory_history_only (expr result : jsstring) (now : Z) (s1 s2 : State) :
  history s1 = history s2 ->
  history (addHistory expr result now s1) = history (addHistory expr result now s2).
Proof.
  intros H. unfold addHistory, renderHistoryModal, renderHistoryMini.
  rewrite H. destruct (match history s2 with [] => false | _ => _ end);
    [exact H|]. rewrite !saveHistory_history. reflexivity.
Qed.

Lemma handleEquals_history (now : Z) (st : State) :
  history (handleEquals host_pow now st) = history st
  \/ exists expr result,
       history (handleEquals host_pow now st)
       = history (addHistory expr result now st).
Proof.
  unfold handleEquals.
  set (st1 := if truthy (currentInput st) then _ else st).
  assert (H1 : history st1 = history st).
  { subst st1. destruct (truthy (currentInput st)); reflexivity. }
  destruct (negb (truthy (expression st1))); [left; exact H1|].
  cbv zeta.
  destruct (negb (str_eqb (evaluateExpression host_pow (expression st1)) (js "Error")));
    [|left; exact H1].
  right. exists (to_display (expression st1)),
               (evaluateExpression host_pow (expression st1)).
  cbn [history set_currentInput set_expression].
  apply addHistory_history_only. exact H1.
Qed.

Lemma step_history_frame (st : State) (e : Event) :
  writes_history e = false -> history (step host_pow st e) = history st.
Proof.
  destruct e; cbn [writes_history step]; try discriminate; intros _.
  - unfold handleNumber. repeat (destruct (_ : bool); try reflexivity).
  - unfold handleOperator. repeat (destruct (_ : bool); try reflexivity).
  - reflexivity.
  - unfold handleBackspace.
    destruct (truthy (currentInput st)); [reflexivity|].
    destruct (truthy (expression st)); [|reflexivity].
    cbv zeta. destruct (array_includes _ _); [reflexivity|].
    destruct (trailing_operators _); reflexivity.
  - unfold handlePercent. repeat (destruct (_ : bool); try reflexivity).
  - unfold handleNumberClick.
    destruct (RegExp.construct _); cbn [state_of];
      destruct (truthy (currentInput st)); try reflexivity;
      destruct (RegExp.string_match _ _); reflexivity.
  - unfold handleOperatorClick. destruct (indexOf_from _ _ _); reflexivity.
  - unfold loadFromHistory. destruct (history_at _ _); reflexivity.
Qed.

Lemma step_history_bound (st : State) (e : Event) :
  (length (history st) <= MAX_HISTORY_ITEMS ->
   length (history (step host_pow st e)) <= MAX_HISTORY_ITEMS)%nat.
Proof.
  intros H. destruct (writes_history e) eqn:Hw.
  - destruct e; try discriminate; cbn [step].
    + destruct (handleEquals_history now st) as [Heq | (x & r & Heq)];
        rewrite Heq; [exact H|apply addHistory_length, H].
    + unfold deleteHistoryItem, renderHistoryModal, renderHistoryMini.
      rewrite saveHistory_history, length_firstn. lia.
    + reflexivity || (unfold clearAllHistory, renderHistoryModal, renderHistoryMini;
        rewrite saveHistory_history, length_firstn; lia).
  - rewrite step_history_frame by exact Hw. exact H.
Qed.

(** X7: the log never grows past MAX_HISTORY_ITEMS: when it holds at
    most 100 records, it still does after any sequence of events. *)
Theorem run_history_bound (events : list Event) (st : State) :
  (length (history st) <= MAX_HISTORY_ITEMS ->
   length (history (run host_pow events st)) <= MAX_HISTORY_ITEMS)%nat.
Proof.
  unfold run. revert st. induction events as [|e events IH]; intros st H.
  - exact H.
  - cbn [fold_left]. apply IH, step_history_bound, H.
Qed.

End HistoryLog.

Lemma concat_split_tokens (s piece : jsstring) :
  concat (split_tokens s piece) = piece ++ s.
Proof.
  revert piece; induction s as [|c s IH]; intros piece; cbn [split_tokens].
  - cbn. now rewrite !app_nil_r.
  - destruct (is_separator c).
    + cbn [concat]. rewrite IH. reflexivity.
    + rewrite IH, <- app_assoc. reflexivity.
Qed.

Lemma concat_filter_truthy (l : list jsstring) :
  concat (filter truthy l) = concat l.
Proof.
  induction l as [|[|c s] l IH]; cbn [filter truthy concat]; [reflexivity|exact IH|].
  rewrite IH. reflexivity.
Qed.

Lemma span_text_span_of (i : nat) (t : jsstring) : span_text (span_of i t) = t.
Proof.
  unfold span_of. destruct (array_includes _ _); [reflexivity|].
  destruct (is_number_token t); reflexivity.
Qed.

Lemma spans_from_text (i : nat) (l : list jsstring) :
  map span_text (spans_from i l) = l.
Proof.
  revert i; induction l as [|t l IH]; intros i; [reflexivity|].
  cbn [spans_from map]. rewrite span_text_span_of, IH. reflexivity.
Qed.

Lemma spans_from_index (i j : nat) (l : list jsstring) (sp : Span) (k : nat) :
  nth_error (spans_from i l) j = Some sp -> span_index sp = Some k ->
  k = (i + j)%nat.
Proof.
  revert i j; induction l as [|t l IH]; intros i j; cbn [spans_from].
  - destruct j; discriminate.
  - destruct j as [|j]; cbn [nth_error].
    + intros [= <-]. unfold span_of.
      destruct (array_includes _ _); [intros [= <-]; lia|].
      destruct (is_number_token t); [intros [= <-]; lia|discriminate].
    + intros H1 H2. rewrite (IH _ _ H1 H2). lia.
Qed.

Lemma spans_from_truthy (i : nat) (l : list jsstring) (sp : Span) :
  In sp (spans_from i (filter truthy l)) -> span_text sp <> [].
Proof.
  intros Hin Ht.
  assert (Hm : In (span_text sp) (map span_text (spans_from i (filter truthy l))))
    by (apply in_map, Hin).
  rewrite spans_from_text in Hm. apply filter_In in Hm as [_ Hm].
  rewrite Ht in Hm. discriminate.
Qed.

(** X11: the spans of the expression line, read in order, spell the
    expression in display glyphs; no span is empty; a span that carries
    an index carries its own position in the line. *)
Theorem renderExpressionHTML_spans (expr : jsstring) :
  concat (map span_text (renderExpressionHTML expr)) = to_display expr
  /\ (forall sp, In sp (renderExpressionHTML expr) -> span_text sp <> [])
  /\ (forall j sp k, nth_error (renderExpressionHTML expr) j = Some sp ->
                     span_index sp = Some k -> k = j).
Proof.
  unfold renderExpressionHTML. destruct expr as [|c e]; cbn [truthy negb].
  - repeat split; [intros sp []|intros [|j] sp k H; discriminate H].
  - split; [|split].
    + rewrite spans_from_text, concat_filter_truthy, concat_split_tokens.
      reflexivity.
    + intros sp. apply spans_from_truthy.
    + intros j sp k H1 H2. apply (spans_from_index 0 j _ sp k H1 H2).
Qed.

Lemma replace_operator_miss (s : jsstring) (n index : Z) (new : jsstring) :
  (index < n \/ n + count_operators s <= index) ->
  replace_operator s n index new = s.
Proof.
  revert n; induction s as [|c s IH]; intros n H; [reflexivity|].
  cbn [replace_operator]. unfold count_operators in *. cbn [filter] in H.
  destruct (is_op c).
  - cbn [length] in H. destruct (Z.eqb_spec n index) as [->|Hne]; [lia|].
    rewrite IH by lia. reflexivity.
  - rewrite IH by lia. reflexivity.
Qed.

Lemma replace_operator_hit (a b : jsstring) (c : char) (n index : Z)
      (new : jsstring) :
  is_op c = true -> n + count_operators a = index ->
  replace_operator (a ++ c :: b) n index new = a ++ new ++ b.
Proof.
  intros Hc. revert n; induction a as [|x a IH]; intros n H.
  - cbn [app replace_operator]. rewrite Hc.
    unfold count_operators in H. cbn in H.
    replace (n =? index) with true by (symmetry; apply Z.eqb_eq; lia).
    rewrite replace_operator_miss by lia. reflexivity.
  - cbn [app replace_operator]. unfold count_operators in *. cbn [filter] in H.
    destruct (is_op x).
    + cbn [length] in H.
      replace (n =? index) with false by (symmetry; apply Z.eqb_neq; lia).
      rewrite IH by lia. reflexivity.
    + rewrite IH by lia. reflexivity.
Qed.

Lemma length_replace_operator (s : jsstring) (n index : Z) (new : jsstring) :
  length new = 1%nat ->
  length (replace_operator s n index new) = length s.
Proof.
  intros Hn. revert n; induction s as [|c s IH]; intros n; [reflexivity|].
  cbn [replace_operator]. destruct (is_op c); [destruct (n =? index)|];
    rewrite ?length_app; cbn [length]; rewrite IH; lia.
Qed.

Section OperatorClick.
Variable host_pow : number -> number -> number.

Lemma handleOperatorClick_expression (op new : jsstring) (index : Z) (st : State) :
  next_operator op = Some new ->
  expression (handleOperatorClick host_pow op index st)
  = replace_operator (expression st) 0 index new.
Proof.
  unfold next_operator, handleOperatorClick, opCycle, display_operators.
  change (js "+") with [43%N]. change (js "-") with [45%N].
  cbn [indexOf_from].
  destruct (str_eqb op [43%N]) eqn:H1.
  { apply str_eqb_eq in H1 as ->. intros [= <-]. reflexivity. }
  destruct (str_eqb op [45%N]) eqn:H2.
  { apply str_eqb_eq in H2 as ->. intros [= <-]. reflexivity. }
  destruct (str_eqb op [TIMES]) eqn:H3.
  { apply str_eqb_eq in H3 as ->. intros [= <-]. reflexivity. }
  destruct (str_eqb op [DIVIDE]) eqn:H4; [|discriminate].
  apply str_eqb_eq in H4 as ->. intros [= <-]. reflexivity.
Qed.

Lemma handleOperatorClick_other (op : jsstring) (index : Z) (st : State) :
  next_operator op = None -> handleOperatorClick host_pow op index st = st.
Proof.
  unfold next_operator, handleOperatorClick, opCycle, display_operators.
  change (js "+") with [43%N]. change (js "-") with [45%N].
  cbn [indexOf_from].
  destruct op as [|c [|d op]]; try reflexivity;
    [|cbn [str_eqb]; rewrite !andb_false_r; reflexivity].
  cbn [str_eqb]. rewrite !andb_true_r.
  destruct (N.eqb_spec c 43); [discriminate|].
  destruct (N.eqb_spec c 45); [discriminate|].
  destruct (N.eqb_spec c TIMES); [discriminate|].
  destruct (N.eqb_spec c DIVIDE); [discriminate|]. 
  rewrite (proj2 (N.eqb_neq 43 c)) by congruence.
  rewrite (proj2 (N.eqb_neq 45 c)) by congruence.
  rewrite (proj2 (N.eqb_neq TIMES c)) by congruence.
  rewrite (proj2 (N.eqb_neq DIVIDE c)) by congruence.
  reflexivity.
Qed.

End OperatorClick.

Lemma slice_0_m1_app (a b : jsstring) :
  b <> [] -> slice_0_m1 (a ++ b) = a ++ slice_0_m1 b.
Proof. intros H. unfold slice_0_m1. apply removelast_app, H. Qed.

Lemma slice_0_m1_snoc (a : jsstring) (c : char) : slice_0_m1 (a ++ [c]) = a.
Proof. unfold slice_0_m1. apply removelast_last. Qed.

Lemma slice_m1_snoc (a : jsstring) (c : char) : slice_m1 (a ++ [c]) = [c].
Proof.
  induction a as [|x [|y a] IH]; [reflexivity|reflexivity|].
  change (slice_m1 ((x :: y :: a) ++ [c])) with (slice_m1 ((y :: a) ++ [c])).
  exact IH.
Qed.

Lemma truthy_app_r (a b : jsstring) : truthy b = true -> truthy (a ++ b) = true.
Proof. destruct a, b; try reflexivity; discriminate. Qed.

Lemma includes_snoc (c : char) (s : jsstring) (d : char) :
  includes c (s ++ [d]) = includes c s || N.eqb c d.
Proof.
  unfold includes. rewrite existsb_app. cbn [existsb]. now rewrite orb_false_r.
Qed.

Section Backspace.
Variable host_pow : number -> number -> number.

(** A refresh depends on the two strings, on the log and on whether the
    expression line is there. *)
Lemma updateDisplay_eq (s1 s2 : State) :
  currentInput s1 = currentInput s2 -> expression s1 = expression s2 ->
  history s1 = history s2 ->
  has_expressionText s1 = has_expressionText s2 ->
  updateDisplay host_pow s1 = updateDisplay host_pow s2.
Proof.
  destruct s1 as [c1 e1 h1 [dE1 dR1 dP1 t1]], s2 as [c2 e2 h2 [dE2 dR2 dP2 t2]].
  cbn [currentInput expression history display expressionText].
  unfold has_expressionText. cbn [display expressionText].
  intros -> -> -> Ht. unfold updateDisplay.
  cbn [currentInput expression history display expressionText set_display].
  destruct t1, t2; try discriminate; reflexivity.
Qed.

Lemma has_expressionText_updateDisplay (st : State) :
  has_expressionText (updateDisplay host_pow st) = has_expressionText st.
Proof.
  unfold has_expressionText, updateDisplay. cbn [display set_display expressionText].
  destruct (expressionText (display st)); reflexivity.
Qed.

Lemma currentInput_updateDisplay (st : State) :
  currentInput (updateDisplay host_pow st) = currentInput st.
Proof. reflexivity. Qed.

Lemma expression_updateDisplay (st : State) :
  expression (updateDisplay host_pow st) = expression st.
Proof. reflexivity. Qed.

Lemma has_expressionText_strings (c e : jsstring) (st : State) :
  has_expressionText (set_currentInput c st) = has_expressionText st
  /\ has_expressionText (set_expression e st) = has_expressionText st.
Proof. split; reflexivity. Qed.

(** X13: with a pending input, or with an expression that ends in an
    operator, backspace deletes exactly the last character of what the
    expression and the input spell together: from the input when there is
    one, else from the expression; the log is not touched. *)
Theorem handleBackspace_last (st : State) :
  currentInput st <> [] \/
  array_includes canonical_operators (slice_m1 (expression st)) = true ->
  let st' := handleBackspace host_pow st in
  expression st' ++ currentInput st'
  = slice_0_m1 (expression st ++ currentInput st)
  /\ (currentInput st <> [] -> expression st' = expression st)
  /\ (currentInput st = [] -> currentInput st' = [])
  /\ history st' = history st.
Proof.
  intros H. cbv zeta. unfold handleBackspace.
  destruct (currentInput st) as [|c s] eqn:Hc; cbn [truthy].
  - destruct H as [H|H]; [contradiction|]. rewrite H.
    destruct (expression st) as [|x e] eqn:He; [discriminate H|].
    cbn [truthy]. cbn [updateDisplay expression currentInput history
                       set_display set_expression].
    rewrite Hc, !app_nil_r. repeat split. intros []. reflexivity.
  - cbn [updateDisplay expression currentInput history set_display
         set_currentInput].
    rewrite slice_0_m1_app by discriminate. repeat split. discriminate.
Qed.

(** X14: backspace takes back a key of the digit pad: when the
    pending input is not empty, is not 0, is shorter than sixteen
    characters and (for the point) has no point yet, the key followed by
    backspace gives the state a refresh of the display alone gives. *)
Theorem handleNumber_handleBackspace (c : char) (st : State) :
  currentInput st <> [] -> currentInput st <> js "0" ->
  (length (currentInput st) < 16)%nat ->
  (c = 46%N -> includes 46%N (currentInput st) = false) ->
  handleBackspace host_pow (handleNumber host_pow [c] st)
  = updateDisplay host_pow st.
Proof.
  intros Hne H0 Hlen Hpoint. unfold handleNumber.
  replace (16 <=? length (currentInput st))%nat with false
    by (symmetry; apply Nat.leb_gt, Hlen).
  destruct (currentInput st) as [|x s] eqn:Hc; [contradiction|].
  cbn [truthy negb]. rewrite !andb_false_r.
  replace (str_eqb [c] (js ".") && includes 46%N (x :: s)) with false.
  2:{ symmetry. apply andb_false_iff.
      destruct (N.eqb_spec c 46) as [->|Hn]; [right; apply Hpoint; reflexivity|].
      left. change (js ".") with [46%N]. cbn [str_eqb].
      rewrite andb_true_r. apply N.eqb_neq, Hn. }
  replace (str_eqb (x :: s) (js "0")) with false.
  2:{ symmetry. apply not_true_is_false. intros H. apply str_eqb_eq in H.
      contradiction. }
  rewrite andb_false_r. cbn [andb].
  unfold handleBackspace. rewrite currentInput_updateDisplay.
  cbn [currentInput set_currentInput].
  rewrite truthy_app_r by reflexivity.
  apply updateDisplay_eq.
  - cbn [currentInput set_currentInput]. rewrite slice_0_m1_snoc. symmetry; exact Hc.
  - reflexivity.
  - reflexivity.
  - rewrite (proj1 (has_expressionText_strings _ [] _)),
      has_expressionText_updateDisplay.
    apply (proj1 (has_expressionText_strings _ [] _)).
Qed.

End Backspace.

Lemma history_items_nth (i : nat) (l : list Entry.t) (it : HistoryItem) :
  In it (history_items i l) ->
  exists entry,
    nth_error l (item_index it - i) = Some entry
    /\ (i <= item_index it < i + length l)%nat
    /\ Entry.expression entry = item_expression it
    /\ Entry.result entry = item_result it.
Proof.
  revert i; induction l as [|e l IH]; intros i; cbn [history_items].
  - intros [].
  - intros [<-|Hin].
    + exists e. cbn [item_index item_expression item_result length].
      rewrite Nat.sub_diag. repeat split; lia.
    + destruct (IH _ Hin) as (entry & Hn & Hr & He & Hres).
      exists entry. cbn [length]. repeat split; try lia; try assumption.
      replace (item_index it - i)%nat with (S (item_index it - S i)) by lia.
      exact Hn.
Qed.

Lemma length_history_items (i : nat) (l : list Entry.t) :
  length (history_items i l) = length l.
Proof.
  revert i; induction l as [|e l IH]; intros i; cbn; [reflexivity|].
  now rewrite IH.
Qed.

Lemma nth_error_splice (A : Type) (i j : nat) (l : list A) :
  (i < length l)%nat ->
  nth_error (firstn i l ++ skipn (S i) l) j
  = if (j <? i)%nat then nth_error l j else nth_error l (S j).
Proof.
  revert i j; induction l as [|a l IH]; intros i j Hi; [cbn in Hi; lia|].
  destruct i as [|i].
  - cbn [firstn skipn app]. reflexivity.
  - cbn [firstn skipn app length] in *. destruct j as [|j]; [reflexivity|].
    cbn [nth_error]. rewrite IH by lia.
    change (S j <? S i)%nat with (j <? i)%nat. reflexivity.
Qed.

Section MiniList.
Variable host_pow : number -> number -> number.

(** X18: every line of the mini history list is bound to the index
    of the record it shows, which is below MAX_DISPLAY_ITEMS: the click on
    a line loads the expression the line shows, empties the pending input
    and leaves the log alone. *)
Theorem historyListMini_click (st : State) (items : list HistoryItem)
      (it : HistoryItem) :
  historyListMini st = Some items -> In it items ->
  let st' := loadFromHistory host_pow (Z.of_nat (item_index it)) st in
  (item_index it < MAX_DISPLAY_ITEMS)%nat
  /\ expression st' = item_expression it
  /\ currentInput st' = []
  /\ history st' = history st.
Proof.
  unfold historyListMini. destruct (length (history st) =? 0)%nat; [discriminate|].
  intros Heq Hin.
  assert (Hitems : items = history_items 0 (firstn MAX_DISPLAY_ITEMS (history st)))
    by congruence.
  rewrite Hitems in Hin. clear Heq Hitems.
  destruct (history_items_nth _ _ _ Hin) as (entry & Hn & Hr & He & _).
  rewrite Nat.sub_0_r in Hn. rewrite length_firstn in Hr.
  assert (Hn' : nth_error (history st) (item_index it) = Some entry).
  { rewrite <- Hn, nth_error_firstn.
    replace (item_index it <? MAX_DISPLAY_ITEMS)%nat with true; [reflexivity|].
    symmetry. apply Nat.ltb_lt. lia. }
  cbv zeta. unfold loadFromHistory, history_at.
  replace (Z.of_nat (item_index it) <? 0) with false by (symmetry; apply Z.ltb_ge; lia).
  rewrite Nat2Z.id, Hn'.
  cbn [updateDisplay expression currentInput history set_display
       set_currentInput set_expression].
  repeat split; [lia|exact He].
Qed.

End MiniList.

(** A key or button glyph of the four operators. *)
Lemma opMap_glyph (op : jsstring) :
  array_includes display_operators op = true ->
  exists c, opMap op = [c] /\ array_includes canonical_operators [c] = true.
Proof.
  unfold array_includes, display_operators, opMap, opCalcMap.
  cbn [existsb]. rewrite orb_false_r.
  intros H. repeat (apply orb_true_iff in H as [H|H]);
    apply str_eqb_eq in H; subst op.
  - exists 43%N. split; reflexivity.
  - exists 45%N. split; reflexivity.
  - exists 42%N. split; reflexivity.
  - exists 47%N. split; reflexivity.
Qed.

Section Undo.
Variable host_pow : number -> number -> number.

(** X15: backspace takes back an operator key: after one of the
    four operator glyphs, backspace leaves the expression as the old
    expression followed by the input that was pending, and no pending
    input. *)
Theorem handleOperator_handleBackspace (op : jsstring) (st : State) :
  array_includes display_operators op = true ->
  currentInput st <> [] \/ expression st <> [] ->
  handleBackspace host_pow (handleOperator host_pow op st)
  = updateDisplay host_pow
      (set_currentInput []
         (set_expression (expression st ++ currentInput st) st)).
Proof.
  intros Hop Hne. destruct (opMap_glyph op Hop) as (c & Hc & Hcan).
  assert (Hflush : handleOperator host_pow op st
                   = updateDisplay host_pow
                       (set_currentInput []
                          (set_expression
                             ((expression st ++ currentInput st) ++ [c]) st))).
  { unfold handleOperator. rewrite Hc.
    destruct (currentInput st) as [|x s] eqn:Hci; cbn [truthy].
    - destruct (expression st) as [|y e] eqn:He; cbn [truthy negb].
      + destruct Hne as [H|H]; contradiction.
      + rewrite app_nil_r. apply updateDisplay_eq; try reflexivity.
        cbn [currentInput set_expression set_currentInput]. exact Hci.
    - cbn [expression currentInput set_expression set_currentInput].
      reflexivity. }
  rewrite Hflush. unfold handleBackspace.
  rewrite currentInput_updateDisplay, expression_updateDisplay.
  cbn [currentInput expression set_currentInput set_expression truthy].
  rewrite truthy_app_r by reflexivity.
  rewrite slice_m1_snoc, Hcan, slice_0_m1_snoc.
  apply updateDisplay_eq; try reflexivity.
  rewrite (proj2 (has_expressionText_strings [] _ _)),
    has_expressionText_updateDisplay. reflexivity.
Qed.

Lemma deleteHistoryItem_history (index : Z) (st : State) :
  history (deleteHistoryItem index st)
  = firstn MAX_HISTORY_ITEMS (splice_one index (history st)).
Proof.
  unfold deleteHistoryItem, renderHistoryModal, renderHistoryMini.
  rewrite saveHistory_history. reflexivity.
Qed.

(** X16: deleting a record by its index removes that record and no
    other, and then the log is cut to its first MAX_HISTORY_ITEMS
    records: below that cap the records before the index stay in place
    and the later ones move up by one, and the length is the smaller of
    MAX_HISTORY_ITEMS and the old length less one; an index at or past
    the end removes nothing, the cut apart; the input and the expression
    are not touched. *)
Theorem deleteHistoryItem_nth (i : nat) (st : State) :
  let st' := deleteHistoryItem (Z.of_nat i) st in
  (i < length (history st) ->
   length (history st')
   = Nat.min MAX_HISTORY_ITEMS (length (history st) - 1)
   /\ forall j, j < MAX_HISTORY_ITEMS ->
                nth_error (history st') j
                = if (j <? i)%nat then nth_error (history st) j
                  else nth_error (history st) (S j))%nat
  /\ (length (history st) <= i ->
      history st' = firstn MAX_HISTORY_ITEMS (history st))%nat
  /\ currentInput st' = currentInput st /\ expression st' = expression st.
Proof.
  cbv zeta. rewrite deleteHistoryItem_history.
  unfold splice_one. replace (Z.of_nat i <? 0) with false
    by (symmetry; apply Z.ltb_ge; lia).
  rewrite Nat2Z.id.
  split; [|split].
  - intros Hi. split.
    + rewrite length_firstn, length_app, length_firstn, length_skipn.
      f_equal. lia.
    + intros j Hj. rewrite nth_error_firstn.
      replace (j <? MAX_HISTORY_ITEMS)%nat with true
        by (symmetry; apply Nat.ltb_lt, Hj).
      apply nth_error_splice, Hi.
  - intros Hi. rewrite (firstn_all2 (n := i)) by lia.
    rewrite skipn_all2 by lia. rewrite app_nil_r. reflexivity.
  - unfold deleteHistoryItem, renderHistoryModal, renderHistoryMini.
    destruct (saveHistory_frame
                (set_history (splice_one (Z.of_nat i) (history st)) st))
      as (H1 & H2 & _).
    rewrite H1, H2. split; reflexivity.
Qed.

(** X17: deleting the newest record right after [addHistory] has
    recorded it gives the log back as it was, while the log held fewer
    than MAX_HISTORY_ITEMS records. *)
Theorem addHistory_deleteHistoryItem (expr result : jsstring) (now : Z)
      (st : State) :
  (length (history st) < MAX_HISTORY_ITEMS)%nat ->
  addHistory expr result now st <> st ->
  history (deleteHistoryItem 0 (addHistory expr result now st)) = history st.
Proof.
  intros Hlen Hnew. rewrite deleteHistoryItem_history.
  destruct (addHistory_cases expr result now st) as [[Heq _] | Heq];
    [contradiction|].
  rewrite Heq. cbn [history set_history]. unfold splice_one.
  cbn [Z.ltb Z.compare Z.to_nat firstn skipn app].
  rewrite firstn_firstn.
  apply firstn_all2. unfold MAX_HISTORY_ITEMS in *. lia.
Qed.

End Undo.

Lemma truthy_to_display (e : jsstring) : truthy (to_display e) = truthy e.
Proof. destruct e; reflexivity. Qed.

Section EqualsAndRecall.
Variable host_pow : number -> number -> number.

(** [handleEquals] when there is something to evaluate and the evaluator
    gives a result. *)
Lemma handleEquals_success (now : Z) (st : State) (e r : jsstring) :
  (if truthy (currentInput st) then expression st ++ currentInput st
   else expression st) = e ->
  truthy e = true ->
  evaluateExpression host_pow e = r ->
  str_eqb r (js "Error") = false ->
  let st' := handleEquals host_pow now st in
  currentInput st' = r /\ expression st' = []
  /\ displayResult (display st') = r
  /\ displayExpression (display st') = to_display e
  /\ history st' = history (addHistory (to_display e) r now st).
Proof.
  intros He Ht Hr Hne. unfold handleEquals.
  set (st1 := if truthy (currentInput st) then _ else st).
  assert (Hx : expression st1 = e).
  { subst st1. destruct (truthy (currentInput st)); exact He. }
  assert (Hh : history st1 = history st).
  { subst st1. destruct (truthy (currentInput st)); reflexivity. }
  rewrite Hx, Ht, Hr, Hne. cbn [negb]. cbv zeta.
  set (st2 := set_display _ st1).
  destruct (addHistory_frame (to_display e) r now st2) as (_ & _ & Hd).
  cbn [currentInput expression display history set_currentInput
       set_expression].
  change (expression st2) with (expression st1). rewrite Hx, Hd.
  repeat split. apply addHistory_history_only. exact Hh.
Qed.

(** X9: round trip through the log: after equals has shown a result,
    recalling the newest record puts the recorded expression back with no
    pending input, and equals on it shows the same result again and
    records nothing new. *)
Theorem equals_recall_equals (now1 now2 : Z) (st : State) (e r : jsstring) :
  (if truthy (currentInput st) then expression st ++ currentInput st
   else expression st) = e ->
  truthy e = true ->
  evaluateExpression host_pow e = r ->
  str_eqb r (js "Error") = false ->
  let st1 := handleEquals host_pow now1 st in
  let st2 := loadFromHistory host_pow 0 st1 in
  let st3 := handleEquals host_pow now2 st2 in
  expression st2 = to_display e /\ currentInput st2 = []
  /\ displayResult (display st3) = r /\ currentInput st3 = r
  /\ history st3 = history st1.
Proof.
  intros He Ht Hr Hne st1 st2 st3.
  destruct (handleEquals_success now1 st e r He Ht Hr Hne)
    as (_ & _ & _ & _ & Hh1).
  fold st1 in Hh1.
  destruct (addHistory_newest (to_display e) r now1 st)
    as (item & rest & Hh & Hi & Hres).
  rewrite Hh in Hh1.
  assert (H2 : st2 = updateDisplay host_pow
                       (set_currentInput []
                          (set_expression (to_display e) st1))).
  { subst st2. unfold loadFromHistory, history_at.
    cbn [Z.ltb Z.compare Z.to_nat]. rewrite Hh1. cbn [nth_error].
    rewrite Hi. reflexivity. }
  assert (Hx2 : expression st2 = to_display e) by (rewrite H2; reflexivity).
  assert (Hc2 : currentInput st2 = []) by (rewrite H2; reflexivity).
  assert (Hh2 : history st2 = history st1) by (rewrite H2; reflexivity).
  split; [exact Hx2|]. split; [exact Hc2|].
  destruct (handleEquals_success now2 st2 (to_display e) r)
    as (Hc3 & _ & Hd3 & _ & Hh3).
  - rewrite Hc2, Hx2. reflexivity.
  - rewrite truthy_to_display. exact Ht.
  - rewrite evaluateExpression_to_display. exact Hr.
  - exact Hne.
  - fold st3 in Hc3, Hd3, Hh3. split; [exact Hd3|]. split; [exact Hc3|].
    rewrite Hh3, to_display_idempotent.
    unfold addHistory. rewrite Hh2, Hh1, Hi, Hres, !str_eqb_refl.
    cbn [andb]. rewrite Hh2. exact Hh1.
Qed.

(** X10: the preview line never shows the error marker: after a
    refresh it is empty, or it is the equals sign, a space and a result of
    the evaluator other than Error, for the expression followed by the
    pending input or for the expression without its last character. *)
Theorem updateDisplay_preview (st : State) :
  let preview := displayPreview (display (updateDisplay host_pow st)) in
  preview = []
  \/ exists e,
       preview = js "= " ++ evaluateExpression host_pow e
       /\ evaluateExpression host_pow e <> js "Error"
       /\ (e = expression st ++ currentInput st
           \/ e = slice_0_m1 (expression st)).
Proof.
  cbv zeta. unfold updateDisplay. cbn [display set_display displayPreview].
  destruct (truthy (currentInput st) && is_number_token (currentInput st)).
  - destruct (str_eqb (evaluateExpression host_pow
                         (expression st ++ currentInput st)) (js "Error")) eqn:He;
      cbn [negb andb]; [left; reflexivity|].
    destruct (negb (str_eqb _ (currentInput st))); [|left; reflexivity].
    right. eexists. split; [reflexivity|]. split; [|left; reflexivity].
    intros H. apply str_eqb_eq in H. congruence.
  - destruct (negb (truthy (currentInput st)) && truthy (expression st));
      [|left; reflexivity].
    destruct (array_includes _ _); [|left; reflexivity].
    destruct (truthy (slice_0_m1 (expression st))); [|left; reflexivity].
    destruct (str_eqb (evaluateExpression host_pow (slice_0_m1 (expression st)))
                (js "Error")) eqn:He; cbn [negb]; [left; reflexivity|].
    right. eexists. split; [reflexivity|]. split; [|right; reflexivity].
    intros H. apply str_eqb_eq in H. congruence.
Qed.

End EqualsAndRecall.

(** ** The evaluator on integer literals *)

Lemma span_digits_app (d rest : jsstring) :
  forallb is_digit d = true ->
  match rest with [] => true | c :: _ => negb (is_digit c) end = true ->
  span_digits (d ++ rest) = (d, rest).
Proof.
  intros Hd Hr. induction d as [|c d IH]; cbn [app].
  - destruct rest as [|c r]; [reflexivity|]. cbn [span_digits].
    apply negb_true_iff in Hr. rewrite Hr. reflexivity.
  - cbn [forallb] in Hd. apply andb_true_iff in Hd as [Hc Hd].
    cbn [span_digits]. rewrite Hc, (IH Hd). reflexivity.
Qed.

Lemma lex_number_digits (a : Z) (rest : jsstring) :
  0 <= a -> ends_number rest = true ->
  JSProgram.lex_number (digits_of_Z a ++ rest) = (of_decimal false a 0, rest).
Proof.
  intros Ha Hr. unfold JSProgram.lex_number.
  rewrite span_digits_app.
  2: apply digits_of_Z_digits.
  2:{ destruct rest as [|c r]; [reflexivity|]. cbn in Hr.
      apply andb_true_iff in Hr as [Hr _]. exact Hr. }
  rewrite Z_of_digits_digits_of_Z by exact Ha.
  assert (Hw : match rest with
               | c :: r1 =>
                   if N.eqb c 46 then
                     let '(fp, r2) := span_digits r1 in
                     (of_decimal false (Z_of_digits 10 (digits_of_Z a ++ fp))
                        (- Z.of_nat (length fp)), r2)
                   else (of_decimal false a 0, rest)
               | [] => (of_decimal false a 0, rest)
               end = (of_decimal false a 0, rest)).
  { destruct rest as [|c r]; [reflexivity|]. cbn in Hr.
    apply andb_true_iff in Hr as [_ Hr]. apply negb_true_iff in Hr.
    rewrite Hr. reflexivity. }
  destruct (Z.eq_dec a 0) as [->|Hne].
  - change (digits_of_Z 0) with [48%N]. cbv iota. exact Hw.
  - destruct (digits_of_Z_head a ltac:(lia)) as (c & r & Hd & _ & Hc).
    rewrite Hd in *. destruct r as [|c2 r]; [exact Hw|].
    replace (N.eqb c 48) with false by (symmetry; apply N.eqb_neq, Hc).
    cbn [andb]. exact Hw.
Qed.

Lemma lex_digits (operand : bool) (a : Z) (rest : jsstring) :
  0 <= a -> ends_number rest = true ->
  JSProgram.lex operand (digits_of_Z a ++ rest)
  = Some (JSProgram.TNum (of_decimal false a 0), rest).
Proof.
  intros Ha Hr. unfold JSProgram.lex.
  assert (Hhead : exists c r, digits_of_Z a ++ rest = c :: r /\ is_digit c = true).
  { destruct (Z.eq_dec a 0) as [->|Hne].
    - exists 48%N, rest. split; reflexivity.
    - destruct (digits_of_Z_head a ltac:(lia)) as (c & r & Hd & Hc & _).
      exists c, (r ++ rest). rewrite Hd. split; [reflexivity|exact Hc]. }
  destruct Hhead as (c & r & Hs & Hc).
  assert (Hne47 : N.eqb c 47 = false).
  { unfold is_digit in Hc. apply andb_true_iff in Hc as [Hc _].
    apply N.leb_le in Hc. apply N.eqb_neq. lia. }
  assert (Hskip : JSProgram.skip_comments (length (digits_of_Z a ++ rest))
                    (digits_of_Z a ++ rest) = Some (c :: r)).
  { rewrite Hs. cbn [length JSProgram.skip_comments].
    destruct r as [|b r']; [reflexivity|]. rewrite Hne47. reflexivity. }
  rewrite Hskip, Hc. rewrite <- Hs, lex_number_digits by assumption.
  reflexivity.
Qed.

Section Evaluator.
Import JSProgram.

Lemma lex_end (operand : bool) : lex operand [] = Some (TEOF, []).
Proof. reflexivity. Qed.

(** The parser functions, one step each. *)
Lemma additive_S (f : nat) (s : jsstring) :
  additive (S f) s
  = match multiplicative f s with
    | Some (l, r) => additive_rest f l r
    | None => None
    end.
Proof. reflexivity. Qed.

Lemma additive_rest_S (f : nat) (l : expr) (s : jsstring) :
  additive_rest (S f) l s
  = match lex false s with
    | Some (TPunct PPlus, r) =>
        match multiplicative f r with
        | Some (e, r') => additive_rest f (Bin Add l e) r'
        | None => None
        end
    | Some (TPunct PMinus, r) =>
        match multiplicative f r with
        | Some (e, r') => additive_rest f (Bin Sub l e) r'
        | None => None
        end
    | Some _ => Some (l, s)
    | None => None
    end.
Proof. reflexivity. Qed.

Lemma multiplicative_S (f : nat) (s : jsstring) :
  multiplicative (S f) s
  = match exponentiation f s with
    | Some (l, r) => multiplicative_rest f l r
    | None => None
    end.
Proof. reflexivity. Qed.

Lemma multiplicative_rest_S (f : nat) (l : expr) (s : jsstring) :
  multiplicative_rest (S f) l s
  = match lex false s with
    | Some (TPunct PStar, r) =>
        match exponentiation f r with
        | Some (e, r') => multiplicative_rest f (Bin Mul l e) r'
        | None => None
        end
    | Some (TPunct PSlash, r) =>
        match exponentiation f r with
        | Some (e, r') => multiplicative_rest f (Bin Div l e) r'
        | None => None
        end
    | Some _ => Some (l, s)
    | None => None
    end.
Proof. reflexivity. Qed.

Lemma exponentiation_S (f : nat) (s : jsstring) :
  exponentiation (S f) s
  = match lex true s with
    | Some (TPunct PPlus, _) | Some (TPunct PMinus, _) =>
        match unary f s with
        | Some (u, r) =>
            match lex false r with
            | Some (TPunct PStarStar, _) => None
            | Some _ => Some (u, r)
            | None => None
            end
        | None => None
        end
    | _ =>
        match postfix f s with
        | Some (b, r) =>
            match lex false r with
            | Some (TPunct PStarStar, r') =>
                match exponentiation f r' with
                | Some (e, r'') => Some (Bin Exp b e, r'')
                | None => None
                end
            | Some _ => Some (b, r)
            | None => None
            end
        | None => None
        end
    end.
Proof. reflexivity. Qed.

Lemma postfix_S (f : nat) (s : jsstring) :
  postfix (S f) s
  = match primary f s with
    | Some (p, r) =>
        match lex false r with
        | Some (TPunct PPlusPlus, _) | Some (TPunct PMinusMinus, _) => None
        | Some (TPunct PLParen, _) => None
        | Some _ => Some (p, r)
        | None => None
        end
    | None => None
    end.
Proof. reflexivity. Qed.

Lemma primary_S (f : nat) (s : jsstring) :
  primary (S f) s
  = match lex true s with
    | Some (TNum x, r) => Some (Lit x, r)
    | Some (TRegex, r) => Some (Regex, r)
    | Some (TPunct PLParen, r) =>
        match additive f r with
        | Some (e, r') =>
            match lex false r' with
            | Some (TPunct PRParen, r'') => Some (e, r'')
            | _ => None
            end
        | None => None
        end
    | _ => None
    end.
Proof. reflexivity. Qed.

Lemma lex_operator (c d : char) (r : jsstring) (t : token) :
  operator_token c = Some t -> is_digit d = true ->
  lex false (c :: d :: r) = Some (t, d :: r).
Proof.
  intros Ht Hd. unfold is_digit in Hd. apply andb_true_iff in Hd as [Hd1 Hd2].
  apply N.leb_le in Hd1, Hd2.
  assert (Hd43 : N.eqb d 43 = false) by (apply N.eqb_neq; lia).
  assert (Hd45 : N.eqb d 45 = false) by (apply N.eqb_neq; lia).
  assert (Hd42 : N.eqb d 42 = false) by (apply N.eqb_neq; lia).
  assert (Hd47 : N.eqb d 47 = false) by (apply N.eqb_neq; lia).
  unfold operator_token in Ht. unfold lex.
  cbn [length skip_comments]. rewrite Hd47, Hd42, !andb_false_r.
  destruct (N.eqb_spec c 43) as [->|H43].
  { injection Ht as <-. cbn. rewrite Hd43. reflexivity. }
  destruct (N.eqb_spec c 45) as [->|H45].
  { injection Ht as <-. cbn. rewrite Hd45. reflexivity. }
  destruct (N.eqb_spec c 42) as [->|H42].
  { injection Ht as <-. cbn. rewrite Hd42. reflexivity. }
  destruct (N.eqb_spec c 47) as [->|H47]; [|discriminate].
  injection Ht as <-. reflexivity.
Qed.

(** An operand that is a numeric literal. *)
Lemma exponentiation_literal (f : nat) (s rest : jsstring) (x : number)
      (t : token) (r : jsstring) :
  lex true s = Some (TNum x, rest) ->
  lex false rest = Some (t, r) -> ends_operand t = true ->
  exponentiation (S (S (S f))) s = Some (Lit x, rest).
Proof.
  intros Hs Hr Ht.
  assert (Hprim : primary (S f) s = Some (Lit x, rest)).
  { rewrite primary_S, Hs. reflexivity. }
  assert (Hpost : postfix (S (S f)) s = Some (Lit x, rest)).
  { rewrite postfix_S, Hprim, Hr.
    destruct t as [| |[]|]; try discriminate; reflexivity. }
  rewrite exponentiation_S, Hs, Hpost, Hr.
  destruct t as [| |[]|]; try discriminate; reflexivity.
Qed.

Lemma digits_of_Z_cons (b : Z) :
  0 <= b -> exists d r, digits_of_Z b = d :: r /\ is_digit d = true.
Proof.
  intros Hb. destruct (Z.eq_dec b 0) as [->|Hne].
  - exists 48%N, []. split; reflexivity.
  - destruct (digits_of_Z_head b ltac:(lia)) as (c & r & Hd & Hc & _).
    exists c, r. split; assumption.
Qed.

Lemma operator_token_ends (c : char) (t : token) :
  operator_token c = Some t -> ends_operand t = true.
Proof.
  unfold operator_token.
  repeat (destruct (N.eqb c _); [intros [= <-]; reflexivity|]). discriminate.
Qed.

Lemma operator_ends_number (c : char) (op : binop) (r : jsstring) :
  operator_binop c = Some op -> ends_number (c :: r) = true.
Proof.
  unfold operator_binop, ends_number, is_digit.
  destruct (N.eqb_spec c 43) as [->|?]; [reflexivity|].
  destruct (N.eqb_spec c 45) as [->|?]; [reflexivity|].
  destruct (N.eqb_spec c 42) as [->|?]; [reflexivity|].
  destruct (N.eqb_spec c 47) as [->|?]; [reflexivity|discriminate].
Qed.

Lemma operator_binop_token (c : char) (op : binop) :
  operator_binop c = Some op -> exists t, operator_token c = Some t.
Proof.
  unfold operator_binop, operator_token.
  repeat (destruct (N.eqb c _); [eexists; reflexivity|]). discriminate.
Qed.

(** Two integer literals with a binary operator between them. *)
Lemma additive_binary (f : nat) (a b : Z) (c : char) (op : binop) :
  0 <= a -> 0 <= b -> operator_binop c = Some op ->
  additive (12 + f) (digits_of_Z a ++ c :: digits_of_Z b)
  = Some (Bin op (Lit (of_decimal false a 0)) (Lit (of_decimal false b 0)), []).
Proof.
  intros Ha Hb Hop.
  destruct (digits_of_Z_cons b Hb) as (d & r & Hdb & Hd).
  destruct (operator_binop_token c op Hop) as (t & Ht).
  pose proof (operator_token_ends c t Ht) as Hte.
  pose proof (operator_ends_number c op (digits_of_Z b) Hop) as Hen.
  assert (HlexA : lex true (digits_of_Z a ++ c :: digits_of_Z b)
                  = Some (TNum (of_decimal false a 0), c :: digits_of_Z b))
    by (apply lex_digits; assumption).
  assert (HlexB : lex true (digits_of_Z b)
                  = Some (TNum (of_decimal false b 0), [])).
  { rewrite <- (app_nil_r (digits_of_Z b)) at 1. apply lex_digits; auto. }
  assert (Hlexop : lex false (c :: digits_of_Z b) = Some (t, digits_of_Z b)).
  { rewrite Hdb. apply lex_operator; assumption. }
  assert (HexpA : forall g, exponentiation (S (S (S g)))
                              (digits_of_Z a ++ c :: digits_of_Z b)
                            = Some (Lit (of_decimal false a 0), c :: digits_of_Z b)).
  { intros g. eapply exponentiation_literal; eassumption. }
  assert (HexpB : forall g, exponentiation (S (S (S g))) (digits_of_Z b)
                            = Some (Lit (of_decimal false b 0), [])).
  { intros g. eapply exponentiation_literal;
      [exact HlexB|apply lex_end|reflexivity]. }
  assert (HmulB : forall g, multiplicative (S (S (S (S g)))) (digits_of_Z b)
                            = Some (Lit (of_decimal false b 0), [])).
  { intros g. rewrite multiplicative_S, HexpB, multiplicative_rest_S, lex_end.
    reflexivity. }
  change (12 + f)%nat with (S (S (S (S (S (S (S (S (S (S (S (S f)))))))))))).
  unfold operator_binop in Hop. unfold operator_token in Ht.
  rewrite additive_S, multiplicative_S, HexpA, multiplicative_rest_S, Hlexop.
  destruct (N.eqb c 43).
  { injection Hop as <-. injection Ht as <-.
    rewrite additive_rest_S, Hlexop, HmulB, additive_rest_S, lex_end.
    reflexivity. }
  destruct (N.eqb c 45).
  { injection Hop as <-. injection Ht as <-.
    rewrite additive_rest_S, Hlexop, HmulB, additive_rest_S, lex_end.
    reflexivity. }
  destruct (N.eqb c 42).
  { injection Hop as <-. injection Ht as <-.
    rewrite HexpB, multiplicative_rest_S, lex_end, additive_rest_S, lex_end.
    reflexivity. }
  destruct (N.eqb c 47); [|discriminate].
  injection Hop as <-. injection Ht as <-.
  rewrite HexpB, multiplicative_rest_S, lex_end, additive_rest_S, lex_end.
  reflexivity.
Qed.

Lemma additive_literal (f : nat) (a : Z) :
  0 <= a ->
  additive (12 + f) (digits_of_Z a) = Some (Lit (of_decimal false a 0), []).
Proof.
  intros Ha.
  assert (HlexA : lex true (digits_of_Z a) = Some (TNum (of_decimal false a 0), [])).
  { rewrite <- (app_nil_r (digits_of_Z a)) at 1. apply lex_digits; auto. }
  assert (HexpA : forall g, exponentiation (S (S (S g))) (digits_of_Z a)
                            = Some (Lit (of_decimal false a 0), [])).
  { intros g. eapply exponentiation_literal;
      [exact HlexA|apply lex_end|reflexivity]. }
  change (12 + f)%nat with (S (S (S (S (S (S (S (S (S (S (S (S f)))))))))))).
  rewrite additive_S, multiplicative_S, HexpA, multiplicative_rest_S, lex_end,
    additive_rest_S, lex_end.
  reflexivity.
Qed.

Lemma valid_char_plain (c : char) :
  valid_char c = true ->
  is_space c = false /\ c <> TIMES /\ c <> DIVIDE.
Proof.
  intros Hv.
  assert (Hr : (40 <= c <= 57)%N).
  { unfold valid_char, is_digit, is_op in Hv.
    repeat (apply orb_true_iff in Hv as [Hv|Hv]);
      try (apply N.eqb_eq in Hv; lia).
    apply andb_true_iff in Hv as [H1 H2]. apply N.leb_le in H1, H2. lia. }
  unfold TIMES, DIVIDE. split; [|lia].
  unfold is_space.
  repeat (apply orb_false_iff; split);
    try (apply N.eqb_neq; lia);
    apply andb_false_iff; (left; apply N.leb_gt; lia) || (right; apply N.leb_gt; lia).
Qed.

Lemma filter_valid (s : jsstring) :
  forallb valid_char s = true ->
  filter (fun c => negb (is_space c)) s = s.
Proof.
  induction s as [|c s IH]; [reflexivity|]. cbn [forallb filter].
  intros [Hc Hs]%andb_true_iff.
  destruct (valid_char_plain c Hc) as (-> & _). cbn [negb].
  rewrite (IH Hs). reflexivity.
Qed.

Lemma replace_all_absent (c d : char) (s : jsstring) :
  (forall x, In x s -> x <> c) -> replace_all c d s = s.
Proof.
  intros H. unfold replace_all. rewrite <- (map_id s) at 2.
  apply map_ext_in. intros x Hx. destruct (N.eqb_spec x c) as [->|]; [|reflexivity].
  exfalso. apply (H c Hx). reflexivity.
Qed.

Section Arithmetic.
Variable host_pow : number -> number -> number.

(** On a text of the whitelist with no glyph to map, the evaluator runs
    the text as it is. *)
Lemma evaluateExpression_valid (s : jsstring) :
  forallb valid_char s = true -> s <> [] ->
  evaluateExpression host_pow s
  = match JSProgram.run host_pow s with
    | Some result =>
        if negb (is_finite (to_number result)) then js "Error"
        else format_result (to_number result)
    | None => js "Error"
    end.
Proof.
  intros Hv Hne. unfold evaluateExpression.
  rewrite filter_valid by exact Hv.
  destruct s as [|c s]; [contradiction|]. cbn [truthy negb].
  assert (Hall : forall x, In x (c :: s) -> valid_char x = true)
    by (apply forallb_forall, Hv).
  rewrite (replace_all_absent TIMES).
  2:{ intros x Hx. apply (valid_char_plain x (Hall x Hx)). }
  rewrite (replace_all_absent DIVIDE).
  2:{ intros x Hx. apply (valid_char_plain x (Hall x Hx)). }
  rewrite Hv. reflexivity.
Qed.

Lemma digits_valid (a : Z) : forallb valid_char (digits_of_Z a) = true.
Proof.
  pose proof (digits_of_Z_digits a) as H. rewrite forallb_forall in *.
  intros x Hx. unfold valid_char. rewrite (H x Hx). reflexivity.
Qed.

Lemma operator_valid (c : char) (op : binop) :
  operator_binop c = Some op -> valid_char c = true.
Proof.
  intros Hop.
  assert (His : is_op c = true).
  { unfold operator_binop in Hop. unfold is_op.
    destruct (N.eqb c 43); [reflexivity|].
    destruct (N.eqb c 45); [reflexivity|].
    destruct (N.eqb c 42); [reflexivity|].
    destruct (N.eqb c 47); [reflexivity|discriminate]. }
  unfold valid_char. rewrite His, orb_true_r. reflexivity.
Qed.

Lemma run_binary (a b : Z) (c : char) (op : binop) :
  0 <= a -> 0 <= b -> operator_binop c = Some op ->
  JSProgram.run host_pow (digits_of_Z a ++ c :: digits_of_Z b)
  = Some (eval host_pow
            (Bin op (Lit (of_decimal false a 0)) (Lit (of_decimal false b 0)))).
Proof.
  intros Ha Hb Hop. unfold JSProgram.run.
  rewrite lex_digits by (try assumption; eapply operator_ends_number; eassumption).
  set (text := digits_of_Z a ++ c :: digits_of_Z b).
  replace (8 * length text + 16)%nat with (12 + (8 * length text + 4))%nat by lia.
  unfold text. rewrite (additive_binary _ a b c op Ha Hb Hop).
  rewrite lex_end. reflexivity.
Qed.

Lemma run_literal (a : Z) :
  0 <= a ->
  JSProgram.run host_pow (digits_of_Z a) = Some (VNumber (of_decimal false a 0)).
Proof.
  intros Ha. unfold JSProgram.run.
  rewrite <- (app_nil_r (digits_of_Z a)) at 1.
  rewrite lex_digits by auto.
  replace (8 * length (digits_of_Z a) + 16)%nat
    with (12 + (8 * length (digits_of_Z a) + 4))%nat by lia.
  rewrite (additive_literal _ a Ha). rewrite lex_end. reflexivity.
Qed.

Lemma evaluateExpression_binary (a b : Z) (c : char) (op : binop) :
  0 <= a -> 0 <= b -> operator_binop c = Some op ->
  evaluateExpression host_pow (digits_of_Z a ++ c :: digits_of_Z b)
  = let result :=
      to_number
        (eval host_pow
           (Bin op (Lit (of_decimal false a 0)) (Lit (of_decimal false b 0)))) in
    if negb (is_finite result) then js "Error" else format_result result.
Proof.
  intros Ha Hb Hop. rewrite evaluateExpression_valid.
  - rewrite (run_binary a b c op Ha Hb Hop). reflexivity.
  - rewrite forallb_app. cbn [forallb].
    rewrite !digits_valid, (operator_valid c op Hop). reflexivity.
  - destruct (digits_of_Z a); discriminate.
Qed.

Lemma of_decimal_natural (a : Z) :
  0 <= a < 2 ^ 53 -> of_decimal false a 0 = of_natural a.
Proof.
  intros Ha. destruct a as [|n|n]; [reflexivity| |lia].
  apply of_decimal_pos. lia.
Qed.

Lemma format_result_of_pos (s : bool) (n : positive) :
  Zpos n < 10 ^ 15 ->
  format_result (of_pos s n) = (if s then js "-" else []) ++ digits_of_Z (Zpos n).
Proof.
  intros Hn.
  assert (H53 : Zpos n < 2 ^ 53).
  { change (2 ^ 53) with 9007199254740992.
    change (10 ^ 15) with 1000000000000000 in Hn. lia. }
  unfold format_result.
  replace (is_integer (of_pos s n)) with true.
  - apply toString_of_pos, Hn.
  - symmetry. unfold of_pos, is_integer.
    destruct (ratio_of_pos n H53) as (den & Hden & ->).
    rewrite Z.mod_mul by lia. reflexivity.
Qed.

Lemma format_result_of_natural (a : Z) :
  0 <= a < 10 ^ 15 -> format_result (of_natural a) = digits_of_Z a.
Proof.
  intros Ha. destruct a as [|n|n]; [reflexivity| |lia].
  apply (format_result_of_pos false n). lia.
Qed.

End Arithmetic.

Lemma pow_10_15_lt : 10 ^ 15 < 2 ^ 53.
Proof. reflexivity. Qed.

Lemma add_natural (a b : Z) :
  0 <= a -> 0 <= b -> a + b < 2 ^ 53 ->
  add (of_natural a) (of_natural b) = of_natural (a + b).
Proof.
  intros Ha Hb Hab. destruct a as [|n|n], b as [|m|m]; try lia; try reflexivity.
  apply add_pos. exact Hab.
Qed.

Lemma mul_natural (a b : Z) :
  0 <= a -> 0 <= b -> a * b < 2 ^ 53 ->
  mul (of_natural a) (of_natural b) = of_natural (a * b).
Proof.
  intros Ha Hb Hab. destruct a as [|n|n], b as [|m|m]; try lia; try reflexivity.
  apply mul_pos. exact Hab.
Qed.

Lemma sub_natural (a b : Z) :
  0 <= a < 2 ^ 53 -> 0 <= b < 2 ^ 53 ->
  sub (of_natural a) (of_natural b)
  = match a - b with
    | Zneg n => of_pos true n
    | d => of_natural d
    end.
Proof.
  intros Ha Hb. destruct a as [|n|n], b as [|m|m]; try lia; try reflexivity.
  cbn [of_natural]. rewrite sub_pos by lia.
  destruct (Zpos n - Zpos m); reflexivity.
Qed.

Lemma div_natural (q b : Z) :
  0 <= q -> 0 < b -> q * b < 2 ^ 53 ->
  div (of_natural (q * b)) (of_natural b) = of_natural q.
Proof.
  intros Hq Hb Hqb. destruct q as [|n|n], b as [|m|m]; try lia; try reflexivity.
  apply div_pos. exact Hqb.
Qed.

Section Calculations.
Variable host_pow : number -> number -> number.

(** X22: a non-negative integer below 10^15, written in decimal,
    evaluates to itself. *)
Theorem evaluateExpression_literal (a : Z) :
  0 <= a < 10 ^ 15 ->
  evaluateExpression host_pow (digits_of_Z a) = digits_of_Z a.
Proof.
  intros Ha. pose proof pow_10_15_lt.
  rewrite evaluateExpression_valid.
  - rewrite run_literal by lia. cbn [to_number].
    rewrite of_decimal_natural by lia.
    rewrite format_result_of_natural by lia.
    destruct a as [|n|n]; reflexivity.
  - apply digits_valid.
  - destruct (digits_of_Z_cons a ltac:(lia)) as (d & r & -> & _). discriminate.
Qed.

Lemma finite_of_natural (a : Z) : is_finite (of_natural a) = true.
Proof. destruct a; reflexivity. Qed.

(** The sum of two literals, as [evaluateExpression_binary] leaves it. *)
Lemma sum_result (a b : Z) :
  0 <= a -> 0 <= b -> a + b < 10 ^ 15 ->
  (let result :=
     to_number
       (eval host_pow
          (Bin Add (Lit (of_decimal false a 0)) (Lit (of_decimal false b 0)))) in
   if negb (is_finite result) then js "Error" else format_result result)
  = digits_of_Z (a + b).
Proof.
  intros Ha Hb Hab. pose proof pow_10_15_lt.
  cbn [eval to_number]. cbv zeta.
  rewrite !of_decimal_natural, add_natural by lia.
  rewrite finite_of_natural. apply format_result_of_natural. lia.
Qed.

(** X25: the product of two non-negative integers is exact while
    it stays below 10^15. *)
Theorem evaluateExpression_product (a b : Z) :
  0 <= a < 10 ^ 15 -> 0 <= b < 10 ^ 15 -> a * b < 10 ^ 15 ->
  evaluateExpression host_pow (digits_of_Z a ++ js "*" ++ digits_of_Z b)
  = digits_of_Z (a * b).
Proof.
  intros Ha Hb Hab. pose proof pow_10_15_lt.
  refine (eq_trans (evaluateExpression_binary host_pow a b 42%N Mul
                      (proj1 Ha) (proj1 Hb) eq_refl) _).
  cbn [eval to_number]. cbv zeta.
  rewrite !of_decimal_natural, mul_natural by lia.
  rewrite finite_of_natural. apply format_result_of_natural. nia.
Qed.

(** X24: the difference of two non-negative integers below 10^15
    is exact; a negative one is written with a minus sign. *)
Theorem evaluateExpression_difference (a b : Z) :
  0 <= a < 10 ^ 15 -> 0 <= b < 10 ^ 15 ->
  evaluateExpression host_pow (digits_of_Z a ++ js "-" ++ digits_of_Z b)
  = if a <? b then js "-" ++ digits_of_Z (b - a) else digits_of_Z (a - b).
Proof.
  intros Ha Hb. pose proof pow_10_15_lt.
  refine (eq_trans (evaluateExpression_binary host_pow a b 45%N Sub
                      (proj1 Ha) (proj1 Hb) eq_refl) _).
  cbn [eval to_number]. cbv zeta.
  rewrite !of_decimal_natural, sub_natural by lia.
  destruct (Z.ltb_spec a b) as [Hlt|Hge].
  - destruct (a - b) as [|n|n] eqn:Hd; try lia.
    replace (b - a) with (Zpos n) by lia.
    apply (format_result_of_pos true n). lia.
  - destruct (a - b) as [|n|n] eqn:Hd; try lia.
    + reflexivity.
    + apply (format_result_of_pos false n). lia.
Qed.

(** X26: a division that comes out even is exact: q * b divided
    by b gives q, for a positive divisor and a dividend below 10^15. *)
Theorem evaluateExpression_quotient (q b : Z) :
  0 <= q -> 0 < b < 10 ^ 15 -> q * b < 10 ^ 15 ->
  evaluateExpression host_pow (digits_of_Z (q * b) ++ js "/" ++ digits_of_Z b)
  = digits_of_Z q.
Proof.
  intros Hq [Hb Hb'] Hqb. pose proof pow_10_15_lt.
  assert (Hqb0 : 0 <= q * b) by nia.
  refine (eq_trans (evaluateExpression_binary host_pow (q * b) b 47%N Div
                      Hqb0 (Z.lt_le_incl _ _ Hb) eq_refl) _).
  cbn [eval to_number]. cbv zeta.
  rewrite !of_decimal_natural, div_natural by nia.
  rewrite finite_of_natural. apply format_result_of_natural. nia.
Qed.

(** X27: division of a non-negative integer by zero gives the
    error marker, whatever the dividend. *)
Theorem evaluateExpression_division_by_zero (a : Z) :
  0 <= a ->
  evaluateExpression host_pow (digits_of_Z a ++ js "/0") = js "Error".
Proof.
  intros Ha.
  refine (eq_trans (evaluateExpression_binary host_pow a 0 47%N Div
                      Ha (Z.le_refl 0) eq_refl) _).
  cbn [eval to_number]. cbv zeta.
  change (of_decimal false 0 0) with (S754_zero false).
  destruct (of_decimal false a 0) as [s|s| |s m e]; reflexivity.
Qed.

End Calculations.

End Evaluator.

(** ** Calculations typed on the keys *)

Lemma length_digits_of_Z (a : Z) (k : nat) :
  0 <= a < 10 ^ Z.of_nat k -> (1 <= k)%nat ->
  (length (digits_of_Z a) <= k)%nat.
Proof.
  revert a; induction k as [|k IH]; intros a Ha Hk; [lia|].
  destruct (Z_lt_le_dec a 10) as [Hlt|Hge].
  - rewrite digits_of_Z_small by lia. cbn [length]. lia.
  - rewrite digits_of_Z_step, length_app by lia. cbn [length].
    rewrite Nat2Z.inj_succ, Z.pow_succ_r in Ha by lia.
    assert (Hq : 0 <= a / 10 < 10 ^ Z.of_nat k).
    { split; [apply Z.div_pos; lia|apply Z.div_lt_upper_bound; lia]. }
    destruct k as [|k]; [cbn in Hq; lia|].
    specialize (IH (a / 10) Hq ltac:(lia)). lia.
Qed.

Section Typing.
Variable host_pow : number -> number -> number.

(** Typing digits after an input that does not start with a zero appends
    them, up to sixteen characters. *)
Lemma run_digit_keys (s : jsstring) (st : State) :
  forallb is_digit s = true ->
  (length (currentInput st ++ s) <= 16)%nat ->
  match currentInput st ++ s with c :: _ => c <> 48%N | [] => True end ->
  let st' := run host_pow (digit_keys s) st in
  currentInput st' = currentInput st ++ s
  /\ expression st' = expression st
  /\ history st' = history st.
Proof.
  revert st; induction s as [|c s IH]; intros st Hd Hlen Hz.
  - cbn. rewrite app_nil_r. repeat split.
  - cbn [forallb] in Hd. apply andb_true_iff in Hd as [Hc Hd].
    cbv zeta.
    change (run host_pow (digit_keys (c :: s)) st)
      with (run host_pow (digit_keys s) (handleNumber host_pow [c] st)).
    assert (Hstep : currentInput (handleNumber host_pow [c] st)
                    = currentInput st ++ [c]
                    /\ expression (handleNumber host_pow [c] st) = expression st
                    /\ history (handleNumber host_pow [c] st) = history st).
    { unfold handleNumber. rewrite length_app in Hlen. cbn [length] in Hlen.
      replace (16 <=? length (currentInput st))%nat with false
        by (symmetry; apply Nat.leb_gt; lia).
      assert (Hp : str_eqb [c] (js ".") = false).
      { change (js ".") with [46%N]. cbn [str_eqb]. rewrite andb_true_r.
        unfold is_digit in Hc. apply andb_true_iff in Hc as [Hc _].
        apply N.leb_le in Hc. apply N.eqb_neq. lia. }
      rewrite Hp. cbn [andb negb].
      assert (H0 : str_eqb (currentInput st) (js "0") = false).
      { apply not_true_is_false. intros H. apply str_eqb_eq in H.
        rewrite H in Hz. cbn in Hz. apply Hz. reflexivity. }
      rewrite H0, andb_false_r. cbn [andb]. repeat split. }
    destruct Hstep as (H1 & H2 & H3).
    destruct (IH (handleNumber host_pow [c] st) Hd) as (I1 & I2 & I3).
    + rewrite H1, <- app_assoc. exact Hlen.
    + rewrite H1, <- app_assoc. exact Hz.
    + cbv zeta in I1, I2, I3. rewrite I1, I2, I3, H1, H2, H3, <- app_assoc.
      repeat split.
Qed.

End Typing.

Lemma digits_not_error (n : Z) :
  0 <= n -> str_eqb (digits_of_Z n) (js "Error") = false.
Proof.
  intros Hn. destruct (digits_of_Z_cons n Hn) as (c & r & -> & Hc).
  change (js "Error") with (69%N :: js "rror"). cbn [str_eqb].
  unfold is_digit in Hc. apply andb_true_iff in Hc as [_ Hc].
  apply N.leb_le in Hc.
  replace (N.eqb c 69) with false by (symmetry; apply N.eqb_neq; lia).
  reflexivity.
Qed.

Lemma to_display_digits (s : jsstring) :
  forallb is_digit s = true -> to_display s = s.
Proof.
  intros H. unfold to_display.
  rewrite (replace_all_absent 42%N), (replace_all_absent 47%N); [reflexivity| |];
    intros x Hx; rewrite forallb_forall in H; specialize (H x Hx);
    unfold is_digit in H; apply andb_true_iff in H as [H _];
    apply N.leb_le in H; lia.
Qed.

Lemma to_display_app (a b : jsstring) :
  to_display (a ++ b) = to_display a ++ to_display b.
Proof. unfold to_display, replace_all. rewrite !map_app. reflexivity. Qed.

Section Keys.
Variable host_pow : number -> number -> number.

(** Two positive integers typed with an operator key between them, then
    equals. *)
Lemma keys_binary (a b : Z) (g : jsstring) (c : char) (r : jsstring)
      (h : list Entry.t) (d : Display) (now : Z) :
  1 <= a < 10 ^ 15 -> 1 <= b < 10 ^ 15 ->
  opMap g = [c] ->
  evaluateExpression host_pow (digits_of_Z a ++ c :: digits_of_Z b) = r ->
  str_eqb r (js "Error") = false ->
  let st :=
    run host_pow
      (digit_keys (digits_of_Z a) ++ Operator g
         :: digit_keys (digits_of_Z b) ++ [Equals now])
      (cleared h d) in
  displayResult (display st) = r /\ currentInput st = r
  /\ expression st = []
  /\ exists item rest,
       history st = item :: rest
       /\ Entry.expression item
          = digits_of_Z a ++ to_display [c] ++ digits_of_Z b
       /\ Entry.result item = r.
Proof.
  intros Ha Hb Hg Hr Hne. cbv zeta.
  assert (Hlen : forall n, 1 <= n < 10 ^ 15 -> (length (digits_of_Z n) <= 16)%nat).
  { intros n Hn. pose proof (length_digits_of_Z n 15 ltac:(lia) ltac:(lia)). lia. }
  assert (Hhead : forall n, 1 <= n ->
            match digits_of_Z n with c :: _ => c <> 48%N | [] => True end).
  { intros n Hn. destruct (digits_of_Z_head n ltac:(lia)) as (x & t & -> & _ & Hx).
    exact Hx. }
  rewrite run_app.
  destruct (run_digit_keys host_pow (digits_of_Z a) (cleared h d))
    as (A1 & A2 & A3).
  { apply digits_of_Z_digits. }
  { cbn [currentInput cleared app]. apply Hlen, Ha. }
  { cbn [currentInput cleared app]. apply Hhead. lia. }
  cbv zeta in A1, A2, A3. cbn [currentInput expression history cleared app] in A1, A2, A3.
  set (st1 := run host_pow (digit_keys (digits_of_Z a)) (cleared h d)) in *.
  change (run host_pow (Operator g :: ?l) st1)
    with (run host_pow l (handleOperator host_pow g st1)).
  rewrite run_app.
  assert (Hop : currentInput (handleOperator host_pow g st1) = []
                /\ expression (handleOperator host_pow g st1) = digits_of_Z a ++ [c]
                /\ history (handleOperator host_pow g st1) = h).
  { unfold handleOperator. rewrite A1, A2, Hg.
    destruct (digits_of_Z_cons a ltac:(lia)) as (x & t & Hx & _). rewrite Hx.
    cbn [truthy]. cbn [updateDisplay currentInput expression history set_display
                       set_expression set_currentInput app].
    rewrite A3. repeat split. }
  destruct Hop as (B1 & B2 & B3).
  set (st2 := handleOperator host_pow g st1) in *.
  destruct (run_digit_keys host_pow (digits_of_Z b) st2) as (C1 & C2 & C3).
  { apply digits_of_Z_digits. }
  { rewrite B1. cbn [app]. apply Hlen, Hb. }
  { rewrite B1. cbn [app]. apply Hhead. lia. }
  cbv zeta in C1, C2, C3. rewrite B1 in C1. rewrite B2 in C2. rewrite B3 in C3.
  cbn [app] in C1.
  set (st3 := run host_pow (digit_keys (digits_of_Z b)) st2) in *.
  change (run host_pow [Equals now] st3)
    with (handleEquals host_pow now st3).
  destruct (handleEquals_success host_pow now st3
              (digits_of_Z a ++ c :: digits_of_Z b) r)
    as (D1 & D2 & D3 & _ & D5); try assumption.
  { rewrite C1, C2. destruct (digits_of_Z_cons b ltac:(lia)) as (x & t & -> & _).
    cbn [truthy]. rewrite <- app_assoc. reflexivity. }
  { destruct (digits_of_Z a); reflexivity. }
  split; [exact D3|]. split; [exact D1|]. split; [exact D2|].
  destruct (addHistory_newest
              (to_display (digits_of_Z a ++ c :: digits_of_Z b)) r now st3)
    as (item & rest & E1 & E2 & E3).
  exists item, rest. rewrite D5. split; [exact E1|]. split; [|exact E3].
  rewrite E2. change (c :: digits_of_Z b) with ([c] ++ digits_of_Z b).
  rewrite !to_display_app.
  rewrite (to_display_digits (digits_of_Z a)), (to_display_digits (digits_of_Z b))
    by apply digits_of_Z_digits.
  reflexivity.
Qed.

(** X28: typing a positive integer, the plus key, a positive integer and
    equals from the cleared state shows their sum (while it stays below
    10^15), leaves it as the pending input with an empty expression, and
    records the calculation as the newest record of the log. *)
Theorem keys_sum (a b : Z) (h : list Entry.t) (d : Display) (now : Z) :
  1 <= a -> 1 <= b -> a + b < 10 ^ 15 ->
  let st :=
    run host_pow
      (digit_keys (digits_of_Z a) ++ Operator (js "+")
         :: digit_keys (digits_of_Z b) ++ [Equals now])
      (cleared h d) in
  displayResult (display st) = digits_of_Z (a + b)
  /\ currentInput st = digits_of_Z (a + b)
  /\ expression st = []
  /\ exists item rest,
       history st = item :: rest
       /\ Entry.expression item = digits_of_Z a ++ js "+" ++ digits_of_Z b
       /\ Entry.result item = digits_of_Z (a + b).
Proof.
  intros Ha Hb Hab.
  apply (keys_binary a b (js "+") 43%N (digits_of_Z (a + b)) h d now);
    try lia; try reflexivity.
  - refine (eq_trans (evaluateExpression_binary host_pow a b 43%N
                        JSProgram.Add _ _ eq_refl) _); [lia|lia|].
    apply sum_result; lia.
  - apply digits_not_error. lia.
Qed.

End Keys.

Lemma parseFloat_digits (n : Z) :
  0 <= n -> parseFloat (digits_of_Z n) = of_decimal false n 0.
Proof.
  intros Hn. destruct (digits_of_Z_cons n Hn) as (c & r & Hd & Hc).
  assert (Hr : (48 <= c <= 57)%N).
  { unfold is_digit in Hc. apply andb_true_iff in Hc as [H1 H2].
    apply N.leb_le in H1, H2. lia. }
  unfold parseFloat. rewrite Hd.
  assert (Hsp : is_space c = false).
  { assert (Hv : valid_char c = true) by (unfold valid_char; rewrite Hc; reflexivity).
    apply (valid_char_plain c Hv). }
  cbn [skip_space]. rewrite Hsp.
  replace (N.eqb c 43) with false by (symmetry; apply N.eqb_neq; lia).
  replace (N.eqb c 45) with false by (symmetry; apply N.eqb_neq; lia).
  unfold unsigned_decimal.
  replace (starts_with (js "Infinity") (c :: r)) with false.
  2:{ change (js "Infinity") with (73%N :: js "nfinity"). cbn [starts_with].
      replace (N.eqb 73 c) with false by (symmetry; apply N.eqb_neq; lia).
      reflexivity. }
  rewrite <- Hd. rewrite <- (app_nil_r (digits_of_Z n)) at 1.
  rewrite span_digits_app by (try apply digits_of_Z_digits; reflexivity).
  rewrite Hd at 1. rewrite app_nil_r, Z_of_digits_digits_of_Z by exact Hn.
  reflexivity.
Qed.

Lemma toString_of_natural (a : Z) :
  0 <= a < 10 ^ 15 -> toString (of_natural a) = digits_of_Z a.
Proof.
  intros Ha. destruct a as [|n|n]; [reflexivity| |lia].
  apply (toString_of_pos false n). lia.
Qed.

Section Percent.
Variable host_pow : number -> number -> number.

(** X29: percent on a pending input that is a multiple of one
    hundred (below 10^15) leaves the exact hundredth as the pending input
    and touches neither the expression nor the log. *)
Theorem handlePercent_exact (q : Z) (st : State) :
  0 <= q -> q * 100 < 10 ^ 15 ->
  currentInput st = digits_of_Z (q * 100) ->
  let st' := handlePercent host_pow st in
  currentInput st' = digits_of_Z q
  /\ expression st' = expression st /\ history st' = history st.
Proof.
  intros Hq Hlt Hc. pose proof pow_10_15_lt. cbv zeta. unfold handlePercent.
  rewrite Hc. destruct (digits_of_Z_cons (q * 100) ltac:(lia)) as (c & r & Hd & _).
  replace (truthy (digits_of_Z (q * 100))) with true by (rewrite Hd; reflexivity).
  rewrite parseFloat_digits by lia.
  rewrite of_decimal_natural by lia.
  change (of_Z 100) with (of_ratio false 100 1).
  rewrite (of_ratio_pos 100) by reflexivity.
  change (of_pos false 100) with (of_natural 100).
  replace (is_nan (of_natural (q * 100))) with false
    by (destruct (q * 100); reflexivity).
  cbn [negb updateDisplay currentInput expression history set_display
       set_currentInput].
  rewrite div_natural by lia. rewrite toString_of_natural by lia.
  repeat split.
Qed.

End Percent.

Section Dialog.
Variable host_pow : number -> number -> number.

(** X19: every line of the history dialog is bound to the index of
    the record whose expression and result it shows: the click on the line
    loads that expression, and its delete button removes the record at
    that position of the log. *)
Theorem historyModalList_line (st : State) (items : list HistoryItem)
      (it : HistoryItem) :
  historyModalList st = Some items -> In it items ->
  exists entry,
    history_at (Z.of_nat (item_index it)) st = Some entry
    /\ Entry.expression entry = item_expression it
    /\ Entry.result entry = item_result it
    /\ expression (loadFromHistory host_pow (Z.of_nat (item_index it)) st)
       = item_expression it
    /\ history (deleteHistoryItem (Z.of_nat (item_index it)) st)
       = firstn MAX_HISTORY_ITEMS
           (firstn (item_index it) (history st)
            ++ skipn (S (item_index it)) (history st)).
Proof.
  unfold historyModalList. destruct (length (history st) =? 0)%nat; [discriminate|].
  intros Heq Hin.
  assert (Hitems : items = history_items 0 (history st)) by congruence.
  rewrite Hitems in Hin. clear Heq Hitems.
  destruct (history_items_nth _ _ _ Hin) as (entry & Hn & Hr & He & Hres).
  rewrite Nat.sub_0_r in Hn.
  assert (Hat : history_at (Z.of_nat (item_index it)) st = Some entry).
  { unfold history_at.
    replace (Z.of_nat (item_index it) <? 0) with false by (symmetry; apply Z.ltb_ge; lia).
    rewrite Nat2Z.id. exact Hn. }
  exists entry. split; [exact Hat|]. split; [exact He|]. split; [exact Hres|].
  split.
  - unfold loadFromHistory. rewrite Hat. cbn. exact He.
  - rewrite deleteHistoryItem_history. unfold splice_one.
    replace (Z.of_nat (item_index it) <? 0) with false by (symmetry; apply Z.ltb_ge; lia).
    rewrite Nat2Z.id. reflexivity.
Qed.

End Dialog.

(** ** The keyboard *)

Section KeyboardProperties.
Variable host_pow : number -> number -> number.

Lemma is_digit_key_handled (key : jsstring) :
  is_digit_key key = true -> array_includes handled_keys key = true.
Proof.
  destruct key as [|c [|d key]]; try discriminate. cbn [is_digit_key].
  unfold is_digit. intros [H1 H2]%andb_true_iff.
  apply N.leb_le in H1, H2.
  assert (Hc : (c = 48 \/ c = 49 \/ c = 50 \/ c = 51 \/ c = 52 \/ c = 53
                \/ c = 54 \/ c = 55 \/ c = 56 \/ c = 57)%N) by lia.
  repeat (destruct Hc as [->|Hc]; [reflexivity|]). subst c. reflexivity.
Qed.

(** X20: while the history dialog is open the keyboard reaches the
    calculator with no key: Escape closes the dialog and every other key
    does nothing; with the dialog closed a key outside the handled ones
    (digits, point, the four operators, =, %, Enter, Backspace, Escape)
    does nothing. *)
Theorem handleKeyboard_ignores (now : Z) (key : jsstring) (p : Page) :
  let p' := handleKeyboard host_pow now key p in
  (modalActive p = true ->
   calculator p' = calculator p
   /\ (key = js "Escape" -> p' = closeHistoryModal p)
   /\ (key <> js "Escape" -> p' = p))
  /\ (modalActive p = false -> array_includes handled_keys key = false ->
      p' = p).
Proof.
  cbv zeta. unfold handleKeyboard. split.
  - intros ->. destruct (str_eqb key (js "Escape")) eqn:He.
    + repeat split. intros H. apply str_eqb_eq in He. contradiction.
    + repeat split. intros ->. rewrite str_eqb_refl in He. discriminate.
  - intros -> Hk.
    destruct (is_digit_key key) eqn:Hd.
    { rewrite (is_digit_key_handled key Hd) in Hk. discriminate. }
    assert (Hnot : forall k, In k handled_keys -> str_eqb key k = false).
    { intros k Hin. apply not_true_is_false. intros He.
      apply str_eqb_eq in He. subst k.
      assert (Hx : array_includes handled_keys key = true).
      { unfold array_includes. apply existsb_exists. exists key.
        split; [exact Hin|apply str_eqb_refl]. }
      congruence. }
    rewrite !Hnot; [reflexivity|..]; unfold handled_keys; cbn; tauto.
Qed.

End KeyboardProperties.

(** ** Start-up *)

Lemma entry_line (v : JSON.json) (e : Entry.t) :
  entry_of_json v = Some e -> line_throws v = false.
Proof.
  destruct v as [| | | | |members]; try discriminate.
  cbn [entry_of_json line_throws].
  destruct (JSON.get (js "expression") members) as [[| | |s1| |]|]; try discriminate.
  destruct (JSON.get (js "result") members) as [[| | |s2| |]|]; try discriminate.
  reflexivity.
Qed.

Lemma entries_lines (items : list JSON.json) (h : list Entry.t) :
  entries_of_json items = Some h -> existsb line_throws items = false.
Proof.
  revert h; induction items as [|v items IH]; intros h; [reflexivity|].
  cbn [entries_of_json existsb].
  destruct (entry_of_json v) as [e|] eqn:He; [|discriminate].
  destruct (entries_of_json items) as [l|]; [|discriminate].
  intros _. rewrite (entry_line v e He), (IH l eq_refl). reflexivity.
Qed.

Lemma existsb_firstn {A} (f : A -> bool) (n : nat) (l : list A) :
  existsb f l = false -> existsb f (firstn n l) = false.
Proof.
  revert n; induction l as [|a l IH]; intros [|n]; cbn; try reflexivity.
  intros [Ha Hl]%orb_false_iff. rewrite Ha, (IH n Hl). reflexivity.
Qed.

(** X21: start-up on the store: a stored text that parses to a log of
    records is rendered and becomes the history; a stored text that
    parses to a value that is no array and has no length of zero makes
    [init] throw before the listeners are bound; a failing read, no stored
    text, the empty text and a text that is no JSON all start with the
    empty log. *)
Theorem init_outcome (read : StoreRead) :
  (forall stored v h,
      read = GetItemText stored -> truthy stored = true ->
      JSON.parse stored = Some v -> log_of_json v = Some h ->
      init read = Returns v)
  /\ (forall stored v,
         read = GetItemText stored -> truthy stored = true ->
         JSON.parse stored = Some v -> not_a_list v = true ->
         init read = Raises)
  /\ (read = GetItemThrows \/ read = GetItemNull \/ read = GetItemText []
      \/ (exists stored, read = GetItemText stored /\ JSON.parse stored = None) ->
      init read = Returns (JSON.JArray [])).
Proof.
  split; [|split].
  - intros stored v h -> Ht Hp Hl. unfold init, loadHistory, loadHistory_try.
    rewrite Ht, Hp. destruct v as [| | | |items|]; try discriminate.
    cbn [log_of_json] in Hl. pose proof (entries_lines items h Hl) as Hno.
    unfold renderHistoryMini_of, renderHistoryModal_of. cbn [length_is_zero].
    destruct (length items =? 0)%nat; [reflexivity|].
    rewrite (existsb_firstn _ _ _ Hno), Hno. reflexivity.
  - intros stored v -> Ht Hp Hn. unfold init, loadHistory, loadHistory_try.
    rewrite Ht, Hp. unfold renderHistoryMini_of.
    destruct v as [| | | |items|]; try discriminate; cbn [not_a_list] in Hn;
      destruct (length_is_zero _) as [[|]|]; try discriminate; reflexivity.
  - intros [->|[->|[->|(stored & -> & Hp)]]]; try reflexivity.
    unfold init, loadHistory, loadHistory_try. rewrite Hp.
    destruct (truthy stored); reflexivity.
Qed.

Lemma init_examples :
  init (GetItemText (js "null")) = Raises
  /\ init (GetItemText (js "5")) = Raises
  /\ init (GetItemText (js "{}")) = Raises
  /\ init (GetItemText (js "[null]")) = Raises
  /\ init (GetItemText (js "[1]")) = Returns (JSON.JArray [JSON.JNumber (of_Z 1)])
  /\ init (GetItemText (js "[")) = Returns (JSON.JArray []).
Proof. repeat split; vm_compute; reflexivity. Qed.

(** ** The stored text read back *)

(** *** Strings *)

Lemma hex_value_hex_digit (d : N) :
  (d < 16)%N -> JSON.hex_value (hex_digit d) = Some d.
Proof.
  intros Hd. 
  assert (H : (d = 0 \/ d = 1 \/ d = 2 \/ d = 3 \/ d = 4 \/ d = 5 \/ d = 6 \/ d = 7
              \/ d = 8 \/ d = 9 \/ d = 10 \/ d = 11 \/ d = 12 \/ d = 13
              \/ d = 14 \/ d = 15)%N) by lia.
  repeat (destruct H as [->|H]; [reflexivity|]). subst d. reflexivity.
Qed.

Lemma hex4_unicode (c : char) :
  (c < 65536)%N ->
  JSON.hex4 (hex_digit (c / 4096)) (hex_digit ((c / 256) mod 16))
            (hex_digit ((c / 16) mod 16)) (hex_digit (c mod 16)) = Some c.
Proof.
  intros Hc. unfold JSON.hex4.
  assert (H3 : (c / 4096 < 16)%N) by (apply N.Div0.div_lt_upper_bound; lia).
  assert (H2 : ((c / 256) mod 16 < 16)%N) by (apply N.mod_lt; lia).
  assert (H1 : ((c / 16) mod 16 < 16)%N) by (apply N.mod_lt; lia).
  assert (H0 : (c mod 16 < 16)%N) by (apply N.mod_lt; lia).
  rewrite !hex_value_hex_digit by assumption. f_equal.
  pose proof (N.div_mod c 16 ltac:(lia)) as E0.
  pose proof (N.div_mod (c / 16) 16 ltac:(lia)) as E1.
  pose proof (N.div_mod (c / 256) 16 ltac:(lia)) as E2.
  assert (D1 : (c / 16 / 16 = c / 256)%N) by (rewrite N.Div0.div_div; reflexivity).
  assert (D2 : (c / 256 / 16 = c / 4096)%N) by (rewrite N.Div0.div_div; reflexivity).
  rewrite D1 in E1. rewrite D2 in E2. lia.
Qed.

Lemma parse_string_escape (c : char) (t : jsstring) :
  (c < 65536)%N ->
  JSON.parse_string (unicode_escape c ++ t)
  = match JSON.parse_string t with
    | Some (s, rest) => Some (c :: s, rest)
    | None => None
    end.
Proof.
  intros Hc. unfold unicode_escape. cbn [app].
  change (JSON.parse_string (92%N :: 117%N :: ?h1 :: ?h2 :: ?h3 :: ?h4 :: t))
    with (match JSON.hex4 h1 h2 h3 h4 with
          | Some u =>
              match JSON.parse_string t with
              | Some (s, rest) => Some (u :: s, rest)
              | None => None
              end
          | None => None
          end).
  rewrite hex4_unicode by exact Hc. reflexivity.
Qed.

Lemma parse_string_raw (c : char) (t : jsstring) :
  N.eqb c 34 = false -> N.eqb c 92 = false -> (c <? 32)%N = false ->
  JSON.parse_string (c :: t)
  = match JSON.parse_string t with
    | Some (s, rest) => Some (c :: s, rest)
    | None => None
    end.
Proof.
  intros H1 H2 H3. cbn [JSON.parse_string]. rewrite H1, H2, H3. reflexivity.
Qed.

Lemma parse_string_quote_chars (n : nat) (s rest : jsstring) :
  (length s <= n)%nat ->
  JSON.parse_string (quote_chars s ++ 34%N :: rest) = Some (s, rest).
Proof.
  revert s; induction n as [|n IH]; intros s Hn.
  - destruct s; [reflexivity|cbn in Hn; lia].
  - destruct s as [|c r]; [reflexivity|]. cbn [length] in Hn.
    assert (IHr : JSON.parse_string (quote_chars r ++ 34%N :: rest) = Some (r, rest))
      by (apply IH; lia).
    cbn [quote_chars].
    destruct (N.eqb_spec c 8) as [->|H8].
    { cbn [app]. change (JSON.parse_string (92%N :: 98%N :: ?t))
        with (match JSON.parse_string t with
              | Some (s, rest) => Some (8%N :: s, rest) | None => None end).
      rewrite IHr. reflexivity. }
    destruct (N.eqb_spec c 9) as [->|H9].
    { cbn [app]. change (JSON.parse_string (92%N :: 116%N :: ?t))
        with (match JSON.parse_string t with
              | Some (s, rest) => Some (9%N :: s, rest) | None => None end).
      rewrite IHr. reflexivity. }
    destruct (N.eqb_spec c 10) as [->|H10].
    { cbn [app]. change (JSON.parse_string (92%N :: 110%N :: ?t))
        with (match JSON.parse_string t with
              | Some (s, rest) => Some (10%N :: s, rest) | None => None end).
      rewrite IHr. reflexivity. }
    destruct (N.eqb_spec c 12) as [->|H12].
    { cbn [app]. change (JSON.parse_string (92%N :: 102%N :: ?t))
        with (match JSON.parse_string t with
              | Some (s, rest) => Some (12%N :: s, rest) | None => None end).
      rewrite IHr. reflexivity. }
    destruct (N.eqb_spec c 13) as [->|H13].
    { cbn [app]. change (JSON.parse_string (92%N :: 114%N :: ?t))
        with (match JSON.parse_string t with
              | Some (s, rest) => Some (13%N :: s, rest) | None => None end).
      rewrite IHr. reflexivity. }
    destruct (N.eqb_spec c 34) as [->|H34].
    { cbn [app]. change (JSON.parse_string (92%N :: 34%N :: ?t))
        with (match JSON.parse_string t with
              | Some (s, rest) => Some (34%N :: s, rest) | None => None end).
      rewrite IHr. reflexivity. }
    destruct (N.eqb_spec c 92) as [->|H92].
    { cbn [app]. change (JSON.parse_string (92%N :: 92%N :: ?t))
        with (match JSON.parse_string t with
              | Some (s, rest) => Some (92%N :: s, rest) | None => None end).
      rewrite IHr. reflexivity. }
    destruct (N.ltb_spec c 32) as [H32|H32].
    { rewrite <- app_assoc, parse_string_escape, IHr by lia. reflexivity. }
    assert (Hraw : forall t, JSON.parse_string (c :: t)
                   = match JSON.parse_string t with
                     | Some (s, rest) => Some (c :: s, rest) | None => None end).
    { intros t. apply parse_string_raw;
        [apply N.eqb_neq; assumption|apply N.eqb_neq; assumption
        |apply N.ltb_ge; assumption]. }
    destruct (is_leading_surrogate c) eqn:Hl.
    { unfold is_leading_surrogate in Hl. apply andb_true_iff in Hl as [L1 L2].
      apply N.leb_le in L1, L2.
      destruct r as [|d r'].
      - rewrite parse_string_escape by lia. reflexivity.
      - destruct (is_trailing_surrogate d) eqn:Ht.
        + unfold is_trailing_surrogate in Ht. apply andb_true_iff in Ht as [T1 T2].
          apply N.leb_le in T1, T2.
          cbn [app]. rewrite Hraw.
          rewrite parse_string_raw;
            [|apply N.eqb_neq; lia|apply N.eqb_neq; lia|apply N.ltb_ge; lia].
          rewrite IH by (cbn [length] in Hn; lia). reflexivity.
        + rewrite <- app_assoc, parse_string_escape, IHr by lia. reflexivity. }
    destruct (is_trailing_surrogate c) eqn:Ht.
    { unfold is_trailing_surrogate in Ht. apply andb_true_iff in Ht as [T1 T2].
      apply N.leb_le in T1, T2.
      rewrite <- app_assoc, parse_string_escape, IHr by lia. reflexivity. }
    cbn [app]. rewrite Hraw, IHr. reflexivity.
Qed.

(** Reading back a quoted string. *)
Lemma parse_string_quote (s rest : jsstring) :
  JSON.parse_string (quote_chars s ++ 34%N :: rest) = Some (s, rest).
Proof. apply (parse_string_quote_chars (length s)). lia. Qed.

(** *** Reading the text back *)

Lemma parse_value_S (f : nat) (s : jsstring) :
  JSON.parse_value (S f) s
  = match JSON.skip_ws s with
    | [] => None
    | c :: r =>
        if N.eqb c 34 then
          match JSON.parse_string r with
          | Some (t, r') => Some (JSON.JString t, r')
          | None => None
          end
        else if N.eqb c 91 then
          match JSON.skip_ws r with
          | d :: r' =>
              if N.eqb d 93 then Some (JSON.JArray [], r')
              else
                match JSON.parse_elements f r with
                | Some (l, r'') => Some (JSON.JArray l, r'')
                | None => None
                end
          | [] => None
          end
        else if N.eqb c 123 then
          match JSON.skip_ws r with
          | d :: r' =>
              if N.eqb d 125 then Some (JSON.JObject [], r')
              else
                match JSON.parse_members f r with
                | Some (l, r'') => Some (JSON.JObject l, r'')
                | None => None
                end
          | [] => None
          end
        else if starts_with (js "null") (c :: r) then
          Some (JSON.JNull, skipn 4 (c :: r))
        else if starts_with (js "true") (c :: r) then
          Some (JSON.JBool true, skipn 4 (c :: r))
        else if starts_with (js "false") (c :: r) then
          Some (JSON.JBool false, skipn 5 (c :: r))
        else
          match JSON.parse_number (c :: r) with
          | Some (x, r') => Some (JSON.JNumber x, r')
          | None => None
          end
    end.
Proof. reflexivity. Qed.

Lemma parse_elements_S (f : nat) (s : jsstring) :
  JSON.parse_elements (S f) s
  = match JSON.parse_value f s with
    | Some (v, r) =>
        match JSON.skip_ws r with
        | c :: r' =>
            if N.eqb c 44 then
              match JSON.parse_elements f r' with
              | Some (l, r'') => Some (v :: l, r'')
              | None => None
              end
            else if N.eqb c 93 then Some ([v], r')
            else None
        | [] => None
        end
    | None => None
    end.
Proof. reflexivity. Qed.

Lemma parse_members_S (f : nat) (s : jsstring) :
  JSON.parse_members (S f) s
  = match JSON.skip_ws s with
    | q :: r0 =>
        if N.eqb q 34 then
          match JSON.parse_string r0 with
          | Some (key, r1) =>
              match JSON.skip_ws r1 with
              | c :: r2 =>
                  if N.eqb c 58 then
                    match JSON.parse_value f r2 with
                    | Some (v, r3) =>
                        match JSON.skip_ws r3 with
                        | d :: r4 =>
                            if N.eqb d 44 then
                              match JSON.parse_members f r4 with
                              | Some (l, r5) => Some ((key, v) :: l, r5)
                              | None => None
                              end
                            else if N.eqb d 125 then Some ([(key, v)], r4)
                            else None
                        | [] => None
                        end
                    | None => None
                    end
                  else None
              | [] => None
              end
          | None => None
          end
        else None
    | [] => None
    end.
Proof. reflexivity. Qed.

(** A quoted string where a value is expected. *)
Lemma parse_value_quote (f : nat) (s rest : jsstring) :
  JSON.parse_value (S f) (quote s ++ rest) = Some (JSON.JString s, rest).
Proof.
  rewrite parse_value_S. unfold quote. cbn [app]. rewrite <- app_assoc.
  cbn [app JSON.skip_ws JSON.is_ws N.eqb Pos.eqb orb].
  rewrite parse_string_quote. reflexivity.
Qed.

(** The digits of a time where a value is expected, before the closing
    brace. *)
Lemma parse_number_digits (t : Z) (rest : jsstring) :
  0 <= t ->
  JSON.parse_number (digits_of_Z t ++ 125%N :: rest)
  = Some (of_decimal false t 0, 125%N :: rest).
Proof.
  intros Ht. unfold JSON.parse_number.
  assert (Hhead : exists c r, digits_of_Z t = c :: r /\ is_digit c = true
                              /\ (r = [] \/ c <> 48%N)).
  { destruct (Z.eq_dec t 0) as [->|Hne].
    - exists 48%N, []. repeat split. left; reflexivity.
    - destruct (digits_of_Z_head t ltac:(lia)) as (c & r & Hd & Hc & H0).
      exists c, r. repeat split; [assumption|assumption|right; assumption]. }
  destruct Hhead as (c & r & Hd & Hc & Hz).
  assert (H45 : N.eqb c 45 = false).
  { unfold is_digit in Hc. apply andb_true_iff in Hc as [H1 H2].
    apply N.leb_le in H1, H2. apply N.eqb_neq. lia. }
  pose proof (span_digits_app (digits_of_Z t) (125%N :: rest)
                (digits_of_Z_digits t) eq_refl) as Hspan.
  rewrite Hd in *. cbn [app]. rewrite H45.
  cbn [app] in Hspan. rewrite Hspan.
  cbn [N.eqb Pos.eqb orb].
  assert (Hok : match c :: r with
                | [] => false
                | [_] => true
                | z :: _ => negb (N.eqb z 48)
                end = true).
  { destruct r as [|d r']; [reflexivity|]. destruct Hz as [Hz|Hz]; [discriminate|].
    apply negb_true_iff, N.eqb_neq, Hz. }
  rewrite Hok. rewrite app_nil_r. rewrite <- Hd, Z_of_digits_digits_of_Z by exact Ht.
  reflexivity.
Qed.

Lemma parse_value_digits (f : nat) (t : Z) (rest : jsstring) :
  0 <= t ->
  JSON.parse_value (S f) (digits_of_Z t ++ 125%N :: rest)
  = Some (JSON.JNumber (of_decimal false t 0), 125%N :: rest).
Proof.
  intros Ht. rewrite parse_value_S.
  pose proof (parse_number_digits t rest Ht) as Hnum.
  destruct (digits_of_Z_cons t Ht) as (c & r & Hd & Hc).
  rewrite Hd in *. cbn [app] in *.
  assert (Hr : (48 <= c <= 57)%N).
  { unfold is_digit in Hc. apply andb_true_iff in Hc as [H1 H2].
    apply N.leb_le in H1, H2. lia. }
  assert (Hws : JSON.is_ws c = false).
  { unfold JSON.is_ws. repeat (apply orb_false_iff; split); apply N.eqb_neq; lia. }
  cbn [JSON.skip_ws]. rewrite Hws.
  replace (N.eqb c 34) with false by (symmetry; apply N.eqb_neq; lia).
  replace (N.eqb c 91) with false by (symmetry; apply N.eqb_neq; lia).
  replace (N.eqb c 123) with false by (symmetry; apply N.eqb_neq; lia).
  assert (Hn : forall p q, N.eqb p c = false -> starts_with (p :: q) (c :: r ++ 125%N :: rest) = false).
  { intros p q Hp. cbn [starts_with]. rewrite Hp. reflexivity. }
  unfold js. cbn [list_ascii_of_string map N_of_ascii].
  rewrite !Hn by (apply N.eqb_neq; cbn; lia).
  rewrite Hnum. reflexivity.
Qed.

Lemma quote_app (s t : jsstring) :
  quote s ++ t = 34%N :: quote_chars s ++ 34%N :: t.
Proof. unfold quote. cbn [app]. rewrite <- app_assoc. reflexivity. Qed.

(** A member [key:value] followed by a comma and the remaining members. *)
Lemma parse_members_comma (f : nat) (key text rest : jsstring)
    (v : JSON.json) (l : list (jsstring * JSON.json)) (r5 : jsstring) :
  JSON.parse_value f text = Some (v, 44%N :: rest) ->
  JSON.parse_members f rest = Some (l, r5) ->
  forall whole, whole = quote key ++ 58%N :: text ->
  JSON.parse_members (S f) whole = Some ((key, v) :: l, r5).
Proof.
  intros Hv Hl whole ->. rewrite parse_members_S, quote_app.
  cbn [JSON.skip_ws JSON.is_ws N.eqb Pos.eqb orb].
  rewrite parse_string_quote. cbn [JSON.skip_ws JSON.is_ws N.eqb Pos.eqb orb].
  rewrite Hv. cbn [JSON.skip_ws JSON.is_ws N.eqb Pos.eqb orb].
  rewrite Hl. reflexivity.
Qed.

(** The last member, before the closing brace. *)
Lemma parse_members_last (f : nat) (key text rest : jsstring) (v : JSON.json) :
  JSON.parse_value f text = Some (v, 125%N :: rest) ->
  forall whole, whole = quote key ++ 58%N :: text ->
  JSON.parse_members (S f) whole = Some ([(key, v)], rest).
Proof.
  intros Hv whole ->. rewrite parse_members_S, quote_app.
  cbn [JSON.skip_ws JSON.is_ws N.eqb Pos.eqb orb].
  rewrite parse_string_quote. cbn [JSON.skip_ws JSON.is_ws N.eqb Pos.eqb orb].
  rewrite Hv. cbn [JSON.skip_ws JSON.is_ws N.eqb Pos.eqb orb].
  reflexivity.
Qed.

Lemma of_Z_natural (t : Z) : 0 <= t -> of_Z t = of_decimal false t 0.
Proof.
  intros Ht. unfold of_Z, of_decimal. change (0 <=? 0) with true. cbn iota.
  change (10 ^ 0) with 1. rewrite Z.mul_1_r, Z.abs_eq by exact Ht.
  replace (t <? 0) with false by (symmetry; apply Z.ltb_ge; exact Ht).
  reflexivity.
Qed.

(** One record is read back as the object it was written from. *)
Lemma parse_value_entry (f : nat) (e : Entry.t) (rest : jsstring) :
  0 <= Entry.timestamp e < 10 ^ 15 ->
  JSON.parse_value (5 + f) (stringify_entry e ++ rest)
  = Some (json_of_entry e, rest).
Proof.
  intros Ht. unfold stringify_entry, json_of_entry.
  assert (H53 : (10 ^ 15 < 2 ^ 53)%Z) by reflexivity.
  rewrite (of_Z_natural (Entry.timestamp e)) by lia.
  rewrite of_decimal_natural, toString_of_natural by lia.
  rewrite <- of_decimal_natural by lia.
  change (5 + f)%nat with (S (S (S (S (S f))))).
  rewrite parse_value_S.
  change (js "{") with [123%N]. cbn [app].
  rewrite quote_app.
  cbn [JSON.skip_ws JSON.is_ws N.eqb Pos.eqb orb].
  rewrite <- quote_app.
  rewrite (parse_members_comma (S (S (S f))) (js "expression")
             (quote (Entry.expression e) ++ js "," ++ quote (js "result")
              ++ js ":" ++ quote (Entry.result e) ++ js ","
              ++ quote (js "timestamp") ++ js ":"
              ++ digits_of_Z (Entry.timestamp e) ++ js "}" ++ rest)
             (quote (js "result")
              ++ js ":" ++ quote (Entry.result e) ++ js ","
              ++ quote (js "timestamp") ++ js ":"
              ++ digits_of_Z (Entry.timestamp e) ++ js "}" ++ rest)
             (JSON.JString (Entry.expression e))
             [(js "result", JSON.JString (Entry.result e));
              (js "timestamp",
               JSON.JNumber (of_decimal false (Entry.timestamp e) 0))]
             rest).
  - reflexivity.
  - apply parse_value_quote.
  - apply (parse_members_comma (S (S f)) (js "result")
             (quote (Entry.result e) ++ js ","
              ++ quote (js "timestamp") ++ js ":"
              ++ digits_of_Z (Entry.timestamp e) ++ js "}" ++ rest)
             (quote (js "timestamp") ++ js ":"
              ++ digits_of_Z (Entry.timestamp e) ++ js "}" ++ rest)).
    + apply parse_value_quote.
    + apply (parse_members_last (S f) (js "timestamp")
               (digits_of_Z (Entry.timestamp e) ++ js "}" ++ rest)).
      * apply parse_value_digits. lia.
      * reflexivity.
    + reflexivity.
  - repeat rewrite <- app_assoc. reflexivity.
Qed.

Lemma stringify_entries_cons (e : Entry.t) (l : list Entry.t) :
  l <> [] ->
  stringify_entries (e :: l) = stringify_entry e ++ 44%N :: stringify_entries l.
Proof. destruct l; [congruence|reflexivity]. Qed.

Lemma stringify_entry_head (e : Entry.t) :
  exists t, stringify_entry e = 123%N :: t.
Proof. eexists. reflexivity. Qed.

Lemma stringify_entries_head (l : list Entry.t) :
  l <> [] -> exists t, stringify_entries l = 123%N :: t.
Proof.
  destruct l as [|e [|e' l]]; [congruence| |]; intros _.
  - apply stringify_entry_head.
  - eexists. reflexivity.
Qed.

(** The records of a log that is not empty, up to the closing bracket. *)
Lemma parse_elements_entries (l : list Entry.t) (f : nat) (rest : jsstring) :
  l <> [] ->
  Forall (fun e => 0 <= Entry.timestamp e < 10 ^ 15) l ->
  JSON.parse_elements (length l + 5 + f) (stringify_entries l ++ 93%N :: rest)
  = Some (map json_of_entry l, rest).
Proof.
  induction l as [|e l IH]; [congruence|]. intros _ Hall.
  inversion Hall as [|? ? He Hl]; subst.
  cbn [length]. change (S (length l) + 5 + f)%nat with (S (length l + 5 + f)).
  rewrite parse_elements_S.
  destruct l as [|e' l'].
  - cbn [stringify_entries length]. 
    change (0 + 5 + f)%nat with (5 + f)%nat.
    rewrite parse_value_entry by exact He.
    cbn [JSON.skip_ws JSON.is_ws N.eqb Pos.eqb orb]. reflexivity.
  - rewrite stringify_entries_cons by congruence.
    rewrite <- app_assoc.
    replace (length (e' :: l') + 5 + f)%nat with (5 + (length (e' :: l') + f))%nat by lia.
    rewrite parse_value_entry by exact He.
    cbn [app JSON.skip_ws JSON.is_ws N.eqb Pos.eqb orb].
    replace (5 + (length (e' :: l') + f))%nat with (length (e' :: l') + 5 + f)%nat by lia.
    rewrite IH by (congruence || assumption). reflexivity.
Qed.

Lemma length_stringify_entries (l : list Entry.t) :
  (length l <= length (stringify_entries l))%nat.
Proof.
  induction l as [|e l IH]; [cbn; lia|].
  destruct l as [|e' l'].
  - destruct (stringify_entry_head e) as (t & Ht).
    cbn [stringify_entries length]. rewrite Ht. cbn [length]. lia.
  - rewrite stringify_entries_cons by congruence.
    destruct (stringify_entry_head e) as (t & Ht). rewrite Ht.
    cbn [app length] in *. rewrite length_app. cbn [length]. lia.
Qed.

(** The written log is read back as the array of its records. *)
Lemma parse_stringify_history (l : list Entry.t) :
  Forall (fun e => 0 <= Entry.timestamp e < 10 ^ 15) l ->
  JSON.parse (stringify_history l) = Some (JSON.JArray (map json_of_entry l)).
Proof.
  intros Hall. unfold JSON.parse, stringify_history.
  change (js "[") with [91%N]. change (js "]") with [93%N]. cbn [app].
  pose proof (length_stringify_entries l) as Hlen.
  cbn [length]. rewrite length_app. cbn [length].
  destruct l as [|e l'] eqn:El.
  - reflexivity.
  - rewrite <- El in *.
    assert (Hne : l <> []) by (rewrite El; congruence).
    remember (2 * S (length (stringify_entries l) + 1) + 2)%nat as fuel eqn:Hfuel.
    assert (Hf : exists f, fuel = S (length l + 5 + f)).
    { exists (fuel - S (length l + 5))%nat. lia. }
    destruct Hf as (f & ->).
    rewrite parse_value_S.
    cbn [JSON.skip_ws JSON.is_ws N.eqb Pos.eqb orb].
    destruct (stringify_entries_head l Hne) as (t & Ht).
    assert (Hskip : JSON.skip_ws (stringify_entries l ++ [93%N])
                    = 123%N :: t ++ [93%N]).
    { rewrite Ht. reflexivity. }
    rewrite Hskip. cbn [N.eqb Pos.eqb].
    rewrite parse_elements_entries by assumption. reflexivity.
Qed.

Lemma integer_of_natural (t : Z) :
  0 <= t < 2 ^ 53 ->
  is_integer (of_natural t) = true /\ integer_value (of_natural t) = t.
Proof.
  intros Ht. destruct t as [|n|n]; [split; reflexivity| |lia].
  cbn [of_natural]. unfold of_pos, is_integer, integer_value.
  destruct (ratio_of_pos n ltac:(lia)) as (den & Hden & ->).
  rewrite Z.mod_mul, Z.div_mul by lia. split; reflexivity.
Qed.

Lemma entry_of_json_entry (e : Entry.t) :
  0 <= Entry.timestamp e < 10 ^ 15 ->
  entry_of_json (json_of_entry e) = Some e.
Proof.
  intros Ht. assert (H53 : (10 ^ 15 < 2 ^ 53)%Z) by reflexivity.
  destruct (integer_of_natural (Entry.timestamp e) ltac:(lia)) as [Hi Hv].
  unfold json_of_entry, entry_of_json.
  rewrite of_Z_natural, of_decimal_natural by lia.
  change (JSON.get (js "expression") ?m) with (Some (JSON.JString (Entry.expression e))).
  change (JSON.get (js "result") ?m) with (Some (JSON.JString (Entry.result e))).
  change (JSON.get (js "timestamp") ?m)
    with (Some (JSON.JNumber (of_natural (Entry.timestamp e)))).
  cbv beta iota. rewrite Hi, Hv. destruct e; reflexivity.
Qed.

Lemma entries_of_json_entries (l : list Entry.t) :
  Forall (fun e => 0 <= Entry.timestamp e < 10 ^ 15) l ->
  entries_of_json (map json_of_entry l) = Some l.
Proof.
  induction 1 as [|e l He Hl IH]; [reflexivity|].
  cbn [map entries_of_json]. rewrite entry_of_json_entry, IH by exact He.
  reflexivity.
Qed.

(** X30: what [saveHistory] writes, [loadHistory] reads back: for a log
    of records as [addHistory] builds them, the text handed to the store
    parses, and the parsed value is the log as [saveHistory] left it,
    record for record (times from 0 to below 10^15; the strings may hold
    any characters). *)
Theorem saved_history_loads (st : State) (old : JSON.json) :
  Forall (fun e => 0 <= Entry.timestamp e < 10 ^ 15) (history st) ->
  exists v,
    loadHistory (GetItemText (saved_text st)) old = Returns v
    /\ log_of_json v = Some (history (saveHistory st)).
Proof.
  intros Hall.
  assert (Hcut : Forall (fun e => 0 <= Entry.timestamp e < 10 ^ 15)
                   (history (saveHistory st))).
  { unfold saveHistory. destruct (_ <? _)%nat; [|exact Hall].
    cbn. rewrite <- (firstn_skipn MAX_HISTORY_ITEMS (history st)) in Hall.
    apply Forall_app in Hall. exact (proj1 Hall). }
  exists (JSON.JArray (map json_of_entry (history (saveHistory st)))).
  split.
  - unfold loadHistory, loadHistory_try, saved_text.
    rewrite parse_stringify_history by exact Hcut. reflexivity.
  - cbn [log_of_json]. apply entries_of_json_entries, Hcut.
Qed.

(** ** Further properties of the handlers *)

Section Further.
Variable host_pow : number -> number -> number.

(** X4: the evaluator reads the display glyphs as the operators they stand
    for: an expression evaluates to the same text whether its
    multiplications and divisions are written with the canonical
    characters or with the glyphs of the display, in either direction. *)
Theorem evaluateExpression_display_glyphs (e : jsstring) :
  evaluateExpression host_pow (to_display e) = evaluateExpression host_pow e
  /\ evaluateExpression host_pow
       (replace_all DIVIDE 47%N (replace_all TIMES 42%N e))
     = evaluateExpression host_pow e.
Proof.
  split; [apply evaluateExpression_to_display|].
  rewrite <- (evaluateExpression_to_display host_pow
                (replace_all DIVIDE 47%N (replace_all TIMES 42%N e))).
  rewrite <- (evaluateExpression_to_display host_pow e).
  f_equal. unfold to_display, replace_all. rewrite !map_map. apply map_ext.
  intros c. unfold TIMES, DIVIDE.
  destruct (N.eqb_spec c 215) as [->|H1]; [reflexivity|].
  destruct (N.eqb_spec c 247) as [->|H2]; [reflexivity|].
  reflexivity.
Qed.

(** X8: only equals, the delete button of a record and the clear button of
    the log write the history: a run of any other events (digits,
    operators, clear, backspace, percent, clicks on the expression line,
    recalls) leaves the log as it was. *)
Theorem history_written_only_by (events : list Event) (st : State) :
  forallb (fun e => negb (writes_history e)) events = true ->
  history (run host_pow events st) = history st.
Proof.
  unfold run. revert st. induction events as [|e events IH]; intros st H.
  - reflexivity.
  - cbn [forallb] in H. apply andb_true_iff in H as [He H].
    cbn [fold_left]. rewrite (IH _ H).
    apply step_history_frame, negb_true_iff, He.
Qed.

(** X12: a click on an operator of the cycle +, -, *, / rewrites the
    operator character of the expression whose ordinal (counted from 0
    over the operator characters) is the index it was given, to the next
    operator of the cycle, whatever that character was; with an index
    that is the ordinal of no operator character the expression stays.
    The pending input and the log are never touched. *)
Theorem handleOperatorClick_cycles (op new : jsstring) (index : Z) (st : State) :
  next_operator op = Some new ->
  let st' := handleOperatorClick host_pow op index st in
  (forall a c b,
      expression st = a ++ c :: b -> is_op c = true ->
      count_operators a = index ->
      expression st' = a ++ new ++ b)
  /\ (index < 0 \/ count_operators (expression st) <= index ->
      expression st' = expression st)
  /\ currentInput st' = currentInput st
  /\ history st' = history st.
Proof.
  intros Hop. cbv zeta.
  rewrite (handleOperatorClick_expression host_pow op new index st Hop).
  split; [|split; [|split]].
  - intros a c b He Hc Hn. rewrite He.
    apply replace_operator_hit; [exact Hc|lia].
  - intros H. apply replace_operator_miss. lia.
  - unfold handleOperatorClick. destruct (indexOf_from _ _ _); reflexivity.
  - unfold handleOperatorClick. destruct (indexOf_from _ _ _); reflexivity.
Qed.

(** X23: the sum of two non-negative integers written in decimal is
    exact while it stays below 10^15. *)
Theorem evaluateExpression_sum (a b : Z) :
  0 <= a -> 0 <= b -> a + b < 10 ^ 15 ->
  evaluateExpression host_pow (digits_of_Z a ++ js "+" ++ digits_of_Z b)
  = digits_of_Z (a + b).
Proof.
  intros Ha Hb Hab.
  refine (eq_trans (evaluateExpression_binary host_pow a b 43%N
                      JSProgram.Add Ha Hb eq_refl) _).
  apply sum_result; assumption.
Qed.

End Further.

(** ** Concrete runs of the further properties *)

Lemma handleNumber_key_witness :
  let st := set_currentInput (js "12") (cleared [] blank_display) in
  no_leading_zero (currentInput st) = true
  /\ no_leading_zero
       (currentInput (handleNumber JSProgram.integral_pow (js "3") st)) = true.
Proof.
  split; [reflexivity|].
  apply (proj1 (proj2 (handleNumber_key JSProgram.integral_pow 51%N
                         (set_currentInput (js "12")
                            (cleared [] blank_display))))).
  reflexivity.
Defined.

Lemma evaluateExpression_space_witness :
  is_space 32%N = true
  /\ evaluateExpression JSProgram.integral_pow (js "1 +2")
     = evaluateExpression JSProgram.integral_pow (js "1+2").
Proof.
  split; [reflexivity|].
  exact (evaluateExpression_space JSProgram.integral_pow (js "1") (js "+2")
           32%N eq_refl).
Defined.

Lemma evaluateExpression_whitelist_witness :
  valid_char 97%N = false
  /\ evaluateExpression JSProgram.integral_pow (js "2a") = js "Error".
Proof.
  split; [reflexivity|].
  apply (evaluateExpression_whitelist JSProgram.integral_pow (js "2a") 97%N).
  - right. left. reflexivity.
  - reflexivity.
  - reflexivity.
  - intros H. discriminate H.
  - intros H. discriminate H.
Defined.

Lemma run_history_bound_witness :
  (length (history (run JSProgram.integral_pow
                      [Digit (js "1"); Operator (js "+"); Digit (js "2");
                       Equals 0]
                      (cleared [] blank_display)))
   <= MAX_HISTORY_ITEMS)%nat.
Proof.
  apply (run_history_bound JSProgram.integral_pow
           [Digit (js "1"); Operator (js "+"); Digit (js "2"); Equals 0]
           (cleared [] blank_display)).
  apply Nat.le_0_l.
Defined.

Lemma history_written_only_by_witness :
  let h := [Entry.make (js "1+1") (js "2") 0] in
  history (run JSProgram.integral_pow
             [Digit (js "1"); Operator (js "+"); Backspace; Percent; Clear]
             (cleared h blank_display))
  = h.
Proof.
  exact (history_written_only_by JSProgram.integral_pow
           [Digit (js "1"); Operator (js "+"); Backspace; Percent; Clear]
           (cleared [Entry.make (js "1+1") (js "2") 0] blank_display)
           eq_refl).
Defined.

Lemma equals_recall_equals_witness :
  let st := set_currentInput (js "3")
              (set_expression (js "12*") (cleared [] blank_display)) in
  let st1 := handleEquals JSProgram.integral_pow 1 st in
  let st2 := loadFromHistory JSProgram.integral_pow 0 st1 in
  let st3 := handleEquals JSProgram.integral_pow 2 st2 in
  evaluateExpression JSProgram.integral_pow (js "12*3") = js "36"
  /\ expression st2 = to_display (js "12*3") /\ currentInput st2 = []
  /\ displayResult (display st3) = js "36" /\ currentInput st3 = js "36"
  /\ history st3 = history st1.
Proof.
  split; [vm_compute; reflexivity|].
  apply (equals_recall_equals JSProgram.integral_pow 1 2
           (set_currentInput (js "3")
              (set_expression (js "12*") (cleared [] blank_display)))
           (js "12*3") (js "36")).
  - reflexivity.
  - reflexivity.
  - vm_compute; reflexivity.
  - reflexivity.
Defined.

Lemma renderExpressionHTML_spans_witness :
  nth_error (renderExpressionHTML (js "12*3")) 1
  = Some (OperatorSpan 1 [TIMES])
  /\ concat (map span_text (renderExpressionHTML (js "12*3")))
     = to_display (js "12*3")
  /\ In (OperatorSpan 1 [TIMES]) (renderExpressionHTML (js "12*3")).
Proof.
  split; [reflexivity|]. split.
  - exact (proj1 (renderExpressionHTML_spans (js "12*3"))).
  - right. left. reflexivity.
Defined.

Lemma handleOperatorClick_cycles_witness :
  let st := set_expression (js "1+2-3") (cleared [] blank_display) in
  next_operator (js "-") = Some (js "*")
  /\ expression (handleOperatorClick JSProgram.integral_pow (js "-") 1 st)
     = js "1+2*3".
Proof.
  split; [reflexivity|].
  apply (proj1 (handleOperatorClick_cycles JSProgram.integral_pow
                  (js "-") (js "*") 1
                  (set_expression (js "1+2-3") (cleared [] blank_display))
                  eq_refl)
           (js "1+2") 45%N (js "3")); reflexivity.
Defined.

Lemma handleBackspace_last_witness :
  let st := set_currentInput (js "34")
              (set_expression (js "12+") (cleared [] blank_display)) in
  let st' := handleBackspace JSProgram.integral_pow st in
  expression st' ++ currentInput st' = js "12+3".
Proof.
  apply (proj1 (handleBackspace_last JSProgram.integral_pow
                  (set_currentInput (js "34")
                     (set_expression (js "12+") (cleared [] blank_display)))
                  ltac:(left; intros H; discriminate H))).
Defined.

Lemma handleNumber_handleBackspace_witness :
  let st := set_currentInput (js "12") (cleared [] blank_display) in
  handleBackspace JSProgram.integral_pow
    (handleNumber JSProgram.integral_pow (js "3") st)
  = updateDisplay JSProgram.integral_pow st.
Proof.
  apply (handleNumber_handleBackspace JSProgram.integral_pow 51%N
           (set_currentInput (js "12") (cleared [] blank_display))).
  - intros H. discriminate H.
  - intros H. discriminate H.
  - cbn. lia.
  - intros H. discriminate H.
Defined.

Lemma handleOperator_handleBackspace_witness :
  let st := set_currentInput (js "12") (cleared [] blank_display) in
  array_includes display_operators [TIMES] = true
  /\ handleBackspace JSProgram.integral_pow
       (handleOperator JSProgram.integral_pow [TIMES] st)
     = updateDisplay JSProgram.integral_pow
         (set_currentInput [] (set_expression (js "12") st)).
Proof.
  split; [reflexivity|].
  apply (handleOperator_handleBackspace JSProgram.integral_pow [TIMES]
           (set_currentInput (js "12") (cleared [] blank_display)) eq_refl).
  left. intros H. discriminate H.
Defined.

Lemma deleteHistoryItem_nth_witness :
  let a := Entry.make (js "1+1") (js "2") 1 in
  let b := Entry.make (js "2+2") (js "4") 2 in
  let st := cleared [b; a] blank_display in
  length (history (deleteHistoryItem 0 st)) = 1%nat
  /\ nth_error (history (deleteHistoryItem 0 st)) 0 = Some a.
Proof.
  destruct (proj1 (deleteHistoryItem_nth 0
                     (cleared [Entry.make (js "2+2") (js "4") 2;
                               Entry.make (js "1+1") (js "2") 1]
                        blank_display))
              ltac:(cbn; lia)) as [Hlen Hnth].
  split; [exact Hlen|].
  apply (Hnth 0%nat). unfold MAX_HISTORY_ITEMS. lia.
Defined.

Lemma addHistory_deleteHistoryItem_witness :
  let st := cleared [Entry.make (js "1+1") (js "2") 1] blank_display in
  history (deleteHistoryItem 0 (addHistory (js "2+2") (js "4") 2 st))
  = history st.
Proof.
  apply (addHistory_deleteHistoryItem (js "2+2") (js "4") 2
           (cleared [Entry.make (js "1+1") (js "2") 1] blank_display)).
  - unfold MAX_HISTORY_ITEMS. cbn. lia.
  - intros H. discriminate H.
Defined.

Lemma historyListMini_click_witness :
  let a := Entry.make (js "1+1") (js "2") 1 in
  let b := Entry.make (js "2+2") (js "4") 2 in
  let st := cleared [b; a] blank_display in
  let it := {| item_index := 1; item_expression := js "1+1";
               item_result := js "2" |} in
  historyListMini st
  = Some [{| item_index := 0; item_expression := js "2+2";
             item_result := js "4" |}; it]
  /\ expression (loadFromHistory JSProgram.integral_pow 1 st) = js "1+1".
Proof.
  split; [reflexivity|].
  apply (historyListMini_click JSProgram.integral_pow
           (cleared [Entry.make (js "2+2") (js "4") 2;
                     Entry.make (js "1+1") (js "2") 1] blank_display)
           _ {| item_index := 1; item_expression := js "1+1";
                item_result := js "2" |} eq_refl).
  right. left. reflexivity.
Defined.

Lemma historyModalList_line_witness :
  let a := Entry.make (js "1+1") (js "2") 1 in
  let b := Entry.make (js "2+2") (js "4") 2 in
  let st := cleared [b; a] blank_display in
  exists entry,
    history_at 1 st = Some entry
    /\ Entry.expression entry = js "1+1"
    /\ Entry.result entry = js "2"
    /\ expression (loadFromHistory JSProgram.integral_pow 1 st) = js "1+1"
    /\ history (deleteHistoryItem 1 st) = [b].
Proof.
  apply (historyModalList_line JSProgram.integral_pow
           (cleared [Entry.make (js "2+2") (js "4") 2;
                     Entry.make (js "1+1") (js "2") 1] blank_display)
           _ {| item_index := 1; item_expression := js "1+1";
                item_result := js "2" |} eq_refl).
  right. left. reflexivity.
Defined.

Lemma handleKeyboard_ignores_witness :
  let p := openHistoryModal
             {| modalActive := false; overlayActive := false;
                bodyOverflow := [];
                calculator := cleared [] blank_display |} in
  handleKeyboard JSProgram.integral_pow 0 (js "5") p = p
  /\ handleKeyboard JSProgram.integral_pow 0 (js "Escape") p
     = closeHistoryModal p.
Proof.
  destruct (proj1 (handleKeyboard_ignores JSProgram.integral_pow 0 (js "5")
                     (openHistoryModal
                        {| modalActive := false; overlayActive := false;
                           bodyOverflow := [];
                           calculator := cleared [] blank_display |}))
              eq_refl) as (_ & _ & Hother).
  split; [apply Hother; intros H; discriminate H|reflexivity].
Defined.

Lemma init_outcome_witness :
  JSON.parse (js "5") = Some (JSON.JNumber (of_Z 5))
  /\ init (GetItemText (js "5")) = Raises
  /\ init (GetItemText (js "[broken")) = Returns (JSON.JArray []).
Proof.
  split; [vm_compute; reflexivity|]. split.
  - apply (proj1 (proj2 (init_outcome (GetItemText (js "5"))))
             (js "5") (JSON.JNumber (of_Z 5)) eq_refl eq_refl);
      vm_compute; reflexivity.
  - apply (proj2 (proj2 (init_outcome (GetItemText (js "[broken"))))).
    right. right. right. exists (js "[broken").
    split; [reflexivity|vm_compute; reflexivity].
Defined.

Lemma evaluateExpression_literal_witness :
  evaluateExpression JSProgram.integral_pow (js "42") = js "42".
Proof.
  apply (evaluateExpression_literal JSProgram.integral_pow 42). lia.
Defined.

Lemma evaluateExpression_sum_witness :
  evaluateExpression JSProgram.integral_pow (js "999+1") = js "1000".
Proof.
  apply (evaluateExpression_sum JSProgram.integral_pow 999 1); lia.
Defined.

Lemma evaluateExpression_difference_witness :
  evaluateExpression JSProgram.integral_pow (js "3-12") = js "-9".
Proof.
  apply (evaluateExpression_difference JSProgram.integral_pow 3 12); lia.
Defined.

Lemma evaluateExpression_product_witness :
  evaluateExpression JSProgram.integral_pow (js "12*12") = js "144".
Proof.
  apply (evaluateExpression_product JSProgram.integral_pow 12 12); lia.
Defined.

Lemma evaluateExpression_quotient_witness :
  evaluateExpression JSProgram.integral_pow (js "144/12") = js "12".
Proof.
  apply (evaluateExpression_quotient JSProgram.integral_pow 12 12); lia.
Defined.

Lemma evaluateExpression_division_by_zero_witness :
  evaluateExpression JSProgram.integral_pow (js "7/0") = js "Error".
Proof.
  apply (evaluateExpression_division_by_zero JSProgram.integral_pow 7). lia.
Defined.

Lemma keys_sum_witness :
  let st :=
    run JSProgram.integral_pow
      [Digit (js "1"); Digit (js "2"); Operator (js "+"); Digit (js "3");
       Equals 0]
      (cleared [] blank_display) in
  displayResult (display st) = js "15"
  /\ currentInput st = js "15"
  /\ expression st = []
  /\ exists item rest,
       history st = item :: rest
       /\ Entry.expression item = js "12+3"
       /\ Entry.result item = js "15".
Proof.
  apply (keys_sum JSProgram.integral_pow 12 3 [] blank_display 0); lia.
Defined.

Lemma handlePercent_exact_witness :
  let st := set_currentInput (js "500") (cleared [] blank_display) in
  currentInput (handlePercent JSProgram.integral_pow st) = js "5".
Proof.
  apply (proj1 (handlePercent_exact JSProgram.integral_pow 5
                  (set_currentInput (js "500") (cleared [] blank_display))
                  ltac:(lia) ltac:(lia) eq_refl)).
Defined.

Lemma saved_history_loads_witness :
  let st := cleared [Entry.make (js "12+3") (js "15") 1700000000000]
              blank_display in
  exists v,
    loadHistory (GetItemText (saved_text st)) (JSON.JArray []) = Returns v
    /\ log_of_json v = Some (history (saveHistory st)).
Proof.
  apply (saved_history_loads
           (cleared [Entry.make (js "12+3") (js "15") 1700000000000]
              blank_display)
           (JSON.JArray [])).
  repeat constructor; cbn; lia.
Defined.

(* ===================================================================== *)
(** * The results of the evaluator *)
(* ===================================================================== *)

(** ** Integer results *)

(** A binary64 integer below [2^53] is the canonical float of its value. *)
Lemma integer_float_canonical (s : bool) (m : positive) (e : Z) (n : positive) :
  digits2_pos m = 53%positive ->
  (if 0 <=? e then Zpos n = Zpos m * 2 ^ e else Zpos n * 2 ^ (- e) = Zpos m) ->
  Zpos n < 2 ^ 53 ->
  S754_finite s m e = of_pos s n.
Proof.
  intros Hd Hn Hlt.
  assert (Hm : 2 ^ 52 <= Zpos m).
  { pose proof (digits2_pos_log2 m) as Hl. rewrite Hd in Hl.
    assert (H52 : Z.log2 (Zpos m) = 52) by lia.
    rewrite <- H52. apply Z.log2_spec. lia. }
  assert (He : e <= 0 /\ Zpos n * 2 ^ (- e) = Zpos m).
  { destruct (Z.leb_spec 0 e) as [H0|H0]; [|split; [lia|exact Hn]].
    destruct (Z.eq_dec e 0) as [->|Hne]; [split; [lia|cbn; lia]|].
    exfalso. assert (2 ^ 1 <= 2 ^ e) by (apply Z.pow_le_mono_r; lia).
    change (2 ^ 1) with 2 in *. change (2 ^ 53) with (2 ^ 52 * 2) in Hlt. nia. }
  destruct He as [He Hv].
  assert (Hs : Pos.shiftl n (Z.to_N (- e)) = m).
  { apply Pos2Z.inj. rewrite Zpos_shiftl, Z2N.id by lia. exact Hv. }
  assert (Hdn : Zpos (digits2_pos n) = 53 + e).
  { pose proof (digits2_pos_shiftl n (Z.to_N (- e))) as H.
    rewrite Hs, Hd, Z2N.id in H by lia. lia. }
  unfold of_pos, integer_mantissa, integer_exponent. rewrite Hdn.
  replace (53 - (53 + e)) with (- e) by lia. rewrite Hs.
  f_equal. lia.
Qed.

Lemma digits_of_Z_nonempty (n : Z) : digits_of_Z n <> [].
Proof.
  unfold digits_of_Z. cbn [digits_fuel].
  destruct (n <? 10); [discriminate|].
  rewrite digits_fuel_acc. intros H. apply app_eq_nil in H as [_ H]. discriminate.
Qed.

(** An integer Number below [10^15] in magnitude prints as the decimal
    digits of its value, after a minus sign when it is negative. *)
Lemma format_result_integer (x : number) :
  valid_binary prec emax x = true -> is_integer x = true ->
  Z.abs (integer_value x) < 10 ^ 15 ->
  format_result x = integer_text (integer_value x).
Proof.
  destruct x as [s|s| |s m e]; cbn [valid_binary is_integer]; try discriminate.
  - intros _ _ _. reflexivity.
  - intros Hb Hint Hlt.
    destruct (integer_float_shape m e Hb Hint) as (n & den & Hr & Hden & Hd & _ & Hn).
    unfold integer_value in *. rewrite Hr in *.
    rewrite Z.div_mul in * by lia.
    assert (Hlt' : Zpos n < 10 ^ 15) by (destruct s; lia).
    assert (H53 : (10 ^ 15 < 2 ^ 53)%Z) by reflexivity.
    rewrite (integer_float_canonical s m e n Hd Hn) by lia.
    rewrite format_result_of_pos by exact Hlt'.
    unfold integer_text. destruct s.
    + replace (- Zpos n <? 0) with true by (symmetry; apply Z.ltb_lt; lia).
      rewrite Z.opp_involutive. reflexivity.
    + replace (Zpos n <? 0) with false by (symmetry; apply Z.ltb_ge; lia).
      reflexivity.
Qed.

(** An integer Number below [10^21] in magnitude prints as digits, after a
    minus sign exactly when it is negative, with no point and no
    exponent. *)
Lemma toString_integer_signed (x : number) :
  valid_binary prec emax x = true -> is_integer x = true ->
  Z.abs (integer_value x) < 10 ^ 21 ->
  exists digits,
    digits <> [] /\ forallb is_digit digits = true
    /\ toString x
       = if integer_value x <? 0 then ch "-" :: digits else digits.
Proof.
  destruct x as [s|s| |s m e]; cbn [valid_binary is_integer]; try discriminate.
  - intros _ _ _. exists (js "0"). repeat split. discriminate.
  - intros Hb Hint Hlt.
    pose proof (shortest_integer m e Hb Hint) as Hs.
    destruct (integer_float_shape m e Hb Hint) as (N & den & Hr & Hden & _).
    unfold integer_value in *. unfold toString.
    rewrite Hr in *. rewrite Z.div_mul in * by lia.
    assert (Hlt' : Zpos N < 10 ^ 21) by (destruct s; lia).
    specialize (Hs Hlt'). destruct (shortest m e) as [[n k] d].
    unfold layout.
    replace ((k <=? n) && (n <=? 21)) with true
      by (symmetry; apply andb_true_iff; split; apply Z.leb_le; lia).
    exists (digits_of_Z d ++ zeros (Z.to_nat (n - k))). split; [|split].
    + intros H. apply app_eq_nil in H as [H _]. exact (digits_of_Z_nonempty d H).
    + rewrite forallb_app, digits_of_Z_digits, zeros_digits. reflexivity.
    + destruct s.
      * replace (- Zpos N <? 0) with true by (symmetry; apply Z.ltb_lt; lia).
        reflexivity.
      * replace (Zpos N <? 0) with false by (symmetry; apply Z.ltb_ge; lia).
        reflexivity.
Qed.

(** ** Results that are no integers *)

Lemma Z_of_digits_zeros (k : nat) (d : jsstring) :
  Z_of_digits 10 (zeros k ++ d) = Z_of_digits 10 d.
Proof.
  unfold Z_of_digits, zeros. rewrite fold_left_app. f_equal.
  induction k as [|k IH]; [reflexivity|]. cbn [repeat fold_left].
  exact IH.
Qed.

Lemma forallb_firstn {A} (f : A -> bool) (n : nat) (l : list A) :
  forallb f l = true -> forallb f (firstn n l) = true.
Proof.
  revert l; induction n as [|n IH]; intros [|a l]; cbn; try tauto.
  intros [Ha H]%andb_true_iff. rewrite Ha. apply IH, H.
Qed.

(** Reading back digits, a point, digits. *)
Lemma unsigned_decimal_fixed (s : bool) (a b : jsstring) :
  a <> [] -> forallb is_digit a = true -> forallb is_digit b = true ->
  unsigned_decimal s (a ++ ch "." :: b)
  = of_decimal s (Z_of_digits 10 (a ++ b)) (- Z.of_nat (length b)).
Proof.
  intros Ha Hda Hdb. unfold unsigned_decimal.
  destruct a as [|c a']; [contradiction|].
  assert (Hc : is_digit c = true).
  { cbn [forallb] in Hda. apply andb_true_iff in Hda as [H _]. exact H. }
  assert (Hinf : starts_with (js "Infinity") ((c :: a') ++ ch "." :: b) = false).
  { change (js "Infinity") with (73%N :: js "nfinity"). cbn [app starts_with].
    unfold is_digit in Hc. apply andb_true_iff in Hc as [_ H2].
    apply N.leb_le in H2.
    replace (N.eqb 73 c) with false by (symmetry; apply N.eqb_neq; lia).
    reflexivity. }
  rewrite Hinf.
  rewrite (span_digits_app (c :: a') (ch "." :: b) Hda eq_refl).
  change (N.eqb (ch ".") 46) with true. cbn iota.
  rewrite <- (app_nil_r b) at 1.
  rewrite (span_digits_app b [] Hdb eq_refl).
  destruct b; reflexivity.
Qed.

(** A result that is no integer is rounded to ten fractional digits, the
    half upwards in magnitude, and the decimal is read back as a Number. *)
Lemma parseFloat_toFixed (s : bool) (m : positive) (e : Z) :
  bounded prec emax m e = true ->
  is_integer (S754_finite s m e) = false ->
  parseFloat (toFixed 10 (S754_finite s m e))
  = let '(num, den) := ratio_of m e in
    of_decimal s ((2 * num * 10 ^ 10 + den) / (2 * den)) (-10).
Proof.
  intros Hb Hint. pose proof (mantissa_bound m e Hb) as Hm.
  unfold is_integer in Hint. unfold toFixed. unfold ratio_of in *.
  destruct (0 <=? e) eqn:H0.
  { rewrite Z.mod_1_r in Hint. discriminate. }
  apply Z.leb_gt in H0.
  assert (Hden : 1 <= 2 ^ (- e)) by (apply Z.lt_pred_le, Z.pow_pos_nonneg; lia).
  replace (10 ^ 21 * 2 ^ (- e) <=? Zpos m) with false
    by (symmetry; apply Z.leb_gt; change (2 ^ 53) with 9007199254740992 in Hm;
        change (10 ^ 21) with 1000000000000000000000; nia).
  change (10 =? 0)%nat with false. cbn iota.
  change (Z.of_nat 10) with 10.
  set (n := (2 * Zpos m * 10 ^ 10 + 2 ^ (- e)) / (2 * 2 ^ (- e))).
  assert (Hn : 0 <= n).
  { unfold n. apply Z.div_pos; [|lia].
    change (10 ^ 10) with 10000000000. lia. }
  set (d := digits_of_Z n).
  set (m1 := zeros (11 - length d) ++ d).
  assert (Hlen : (11 <= length m1)%nat).
  { unfold m1, zeros. rewrite length_app, repeat_length. lia. }
  assert (Hdig : forallb is_digit m1 = true).
  { unfold m1. rewrite forallb_app, zeros_digits. apply digits_of_Z_digits. }
  set (a := firstn (length m1 - 10) m1).
  set (b := skipn (length m1 - 10) m1).
  assert (Ha : a <> []).
  { unfold a. destruct m1 as [|c r]; [cbn in Hlen; lia|].
    replace (length (c :: r) - 10)%nat with (S (length r - 10))
      by (cbn [length] in *; lia).
    discriminate. }
  assert (Hda : forallb is_digit a = true) by (apply forallb_firstn, Hdig).
  assert (Hdb : forallb is_digit b = true) by (apply forallb_skipn, Hdig).
  assert (Hlb : length b = 10%nat) by (unfold b; rewrite length_skipn; lia).
  assert (Hval : Z_of_digits 10 (a ++ b) = n).
  { unfold a, b. rewrite firstn_skipn. unfold m1.
    rewrite Z_of_digits_zeros. apply Z_of_digits_digits_of_Z, Hn. }
  assert (Hu : unsigned_decimal s (a ++ ch "." :: b) = of_decimal s n (-10)).
  { rewrite unsigned_decimal_fixed, Hval, Hlb by assumption. reflexivity. }
  unfold parseFloat. destruct s.
  - change ((js "-") ++ a ++ ch "." :: b) with (45%N :: (a ++ ch "." :: b)).
    cbn [skip_space]. change (is_space 45%N) with false. cbn iota.
    change (N.eqb 45 43) with false. change (N.eqb 45 45) with true. cbn iota.
    exact Hu.
  - cbn [app]. destruct a as [|c a'] eqn:Ea; [contradiction|].
    assert (Hc : is_digit c = true).
    { cbn [forallb] in Hda. apply andb_true_iff in Hda as [H _]. exact H. }
    assert (Hr : (48 <= c <= 57)%N).
    { unfold is_digit in Hc. apply andb_true_iff in Hc as [H1 H2].
      apply N.leb_le in H1, H2. lia. }
    cbn [app skip_space].
    assert (Hsp : is_space c = false).
    { assert (Hv : valid_char c = true) by (unfold valid_char; rewrite Hc; reflexivity).
      apply (valid_char_plain c Hv). }
    rewrite Hsp.
    replace (N.eqb c 43) with false by (symmetry; apply N.eqb_neq; lia).
    replace (N.eqb c 45) with false by (symmetry; apply N.eqb_neq; lia).
    exact Hu.
Qed.

(** ** Integer results from [10^21] on *)

Lemma includes_app (c : char) (a b : jsstring) :
  includes c (a ++ b) = includes c a || includes c b.
Proof. unfold includes. apply existsb_app. Qed.

Lemma exponent_text_mark (n : Z) : includes (ch "e") (exponent_text n) = true.
Proof. reflexivity. Qed.

(** An integer Number of magnitude [10^21] or more prints with an
    exponent. *)
Lemma toString_large_integer (x : number) :
  valid_binary prec emax x = true -> is_integer x = true ->
  10 ^ 21 <= Z.abs (integer_value x) ->
  includes (ch "e") (toString x) = true.
Proof.
  destruct x as [s|s| |s m e]; cbn [valid_binary is_integer]; try discriminate.
  - intros _ _ H. vm_compute in H. destruct (H eq_refl).
  - intros Hb Hint Hge.
    destruct (integer_float_shape m e Hb Hint) as (N & den & Hr & Hden & _).
    unfold integer_value in Hge. unfold toString, shortest.
    rewrite Hr in *. rewrite Z.div_mul in Hge by lia.
    assert (HN : 10 ^ 21 <= Zpos N) by (destruct s; lia).
    assert (Hmag : 22 <= magnitude (Zpos N * den) den).
    { unfold magnitude.
      destruct (magnitude_fuel_spec 700 (Zpos N * den) den (-330))
        as (Hrange & _ & Hfound).
      cbv zeta in Hrange, Hfound.
      set (r := magnitude_fuel 700 (Zpos N * den) den (-330)) in *.
      destruct (Z_lt_le_dec r (-330 + Z.of_nat 700)) as [Hlt|Hle]; [|lia].
      specialize (Hfound Hlt). rewrite below_integer in Hfound by lia.
      apply andb_true_iff in Hfound as [H0 H1].
      apply Z.leb_le in H0. apply Z.ltb_lt in H1.
      destruct (Z_lt_le_dec r 22) as [Hr22|]; [|assumption].
      exfalso. assert (10 ^ r <= 10 ^ 21) by (apply Z.pow_le_mono_r; lia). lia. }
    set (n0 := magnitude (Zpos N * den) den) in *.
    pose proof (shortest_fuel_spec 17 (S754_finite false m e)
                  (Zpos N * den) den n0 1) as Hs.
    destruct (shortest_fuel 17 (S754_finite false m e) (Zpos N * den) den n0 1)
      as [[n k] d].
    destruct Hs as (_ & Hs).
    assert (Hn : 22 <= n).
    { destruct Hs as [[_ ->]|[_ Hc]]; [exact Hmag|].
      destruct (candidate_decade _ _ _ _ _ _ _ Hc) as [->|[-> _]]; lia. }
    rewrite includes_app. apply orb_true_iff. right.
    unfold layout.
    replace (n <=? 21) with false by (symmetry; apply Z.leb_gt; lia).
    replace (n <=? 0) with false by (symmetry; apply Z.leb_gt; lia).
    rewrite !andb_false_r.
    destruct (k =? 1).
    + rewrite includes_app, exponent_text_mark. apply orb_true_r.
    + rewrite includes_app. apply orb_true_iff. right.
      change (ch "." :: skipn 1 (digits_of_Z d) ++ exponent_text n)
        with ((ch "." :: skipn 1 (digits_of_Z d)) ++ exponent_text n).
      rewrite includes_app, exponent_text_mark. apply orb_true_r.
Qed.

Section Results.
Variable host_pow : number -> number -> number.

(** C4: the five results the specification lists for the evaluator: the
    empty text gives 0, a division by zero gives the error marker, and
    2*3+4, 10/4, 1/3 give 10, 2.5 and 0.3333333333.  Every result of the
    evaluator is 0 (for a blank text), the error marker, or
    [format_result] of a finite Number.

    Integers.  On every Number that is an integer below 10^15 in magnitude
    it gives exactly the decimal digits of the integer, after a minus sign
    when it is negative.  Up to 10^21 it still gives a non-empty string of
    digits, after a minus sign exactly for the negative ones, so no point
    (from 2^53 on the digits are the shortest ones that read back, padded
    with zeros: 2^53 * 128 is shown as 1152921504606847000).  From 10^21
    on every integer is printed with an exponent, and with a point as soon
    as it has two digits: 1500000000000000 * 1000000 is shown as 1.5e+21,
    against the comment on the integer branch of the evaluator, which
    says that an integer is shown without a decimal point.

    Other results.  A finite Number that is no integer is rounded to the
    nearest multiple [n / 10^10] of 10^-10 (a half goes up in magnitude),
    and what is shown is Number::toString of the Number read back from
    that decimal: 10/4 passes through 2.5000000000 and is shown as 2.5,
    2/3 is shown as 0.6666666667, 1/3/1000000 as 3.333e-7. *)
Theorem evaluateExpression_results :
  (evaluateExpression host_pow [] = js "0"
   /\ evaluateExpression host_pow (js "5/0") = js "Error"
   /\ evaluateExpression host_pow (js "2*3+4") = js "10"
   /\ evaluateExpression host_pow (js "10/4") = js "2.5"
   /\ evaluateExpression host_pow (js "1/3") = js "0.3333333333")
  /\ (forall expr : jsstring,
        evaluateExpression host_pow expr = js "0"
        \/ evaluateExpression host_pow expr = js "Error"
        \/ exists x : number,
             is_finite x = true
             /\ evaluateExpression host_pow expr = format_result x)
  /\ (forall x : number,
        valid_binary prec emax x = true -> is_integer x = true ->
        Z.abs (integer_value x) < 10 ^ 15 ->
        format_result x = integer_text (integer_value x))
  /\ (forall x : number,
        valid_binary prec emax x = true -> is_integer x = true ->
        Z.abs (integer_value x) < 10 ^ 21 ->
        exists digits,
          digits <> [] /\ forallb is_digit digits = true
          /\ format_result x
             = if integer_value x <? 0 then ch "-" :: digits else digits)
  /\ (forall x : number,
        valid_binary prec emax x = true -> is_integer x = true ->
        10 ^ 21 <= Z.abs (integer_value x) ->
        includes (ch "e") (format_result x) = true)
  /\ (evaluateExpression host_pow (js "1500000000000000*1000000")
      = js "1.5e+21"
      /\ is_integer (mul (of_Z 1500000000000000) (of_Z 1000000)) = true
      /\ integer_value (mul (of_Z 1500000000000000) (of_Z 1000000))
         = 1500000000000000 * 1000000
      /\ includes (ch ".")
           (evaluateExpression host_pow (js "1500000000000000*1000000"))
         = true)
  /\ (forall (s : bool) (m : positive) (e : Z),
        valid_binary prec emax (S754_finite s m e) = true ->
        is_integer (S754_finite s m e) = false ->
        let '(num, den) := ratio_of m e in
        exists n : Z,
          2 * n * den <= 2 * num * 10 ^ 10 + den < 2 * (n + 1) * den
          /\ format_result (S754_finite s m e)
             = toString (of_decimal s n (-10)))
  /\ (toFixed 10 (div (of_Z 10) (of_Z 4)) = js "2.5000000000"
      /\ evaluateExpression host_pow (js "2/4") = js "0.5"
      /\ evaluateExpression host_pow (js "6/3") = js "2"
      /\ evaluateExpression host_pow (js "2/3") = js "0.6666666667"
      /\ evaluateExpression host_pow (js "0-1/3") = js "-0.3333333333"
      /\ evaluateExpression host_pow (js "1/3/1000000") = js "3.333e-7"
      /\ evaluateExpression host_pow (js "0.1+0.2") = js "0.3"
      /\ evaluateExpression host_pow (js "0-5") = js "-5"
      /\ evaluateExpression host_pow (js "9007199254740992*128")
         = js "1152921504606847000"
      /\ evaluateExpression host_pow (js "1000000000000000*1000000")
         = js "1e+21").
Proof.
  split; [repeat split; vm_compute; reflexivity|].
  split.
  { intros expr. unfold evaluateExpression.
    destruct (negb (truthy _)); [left; reflexivity|]. right.
    destruct (negb (forallb valid_char _)); [left; reflexivity|].
    destruct (JSProgram.run host_pow _) as [result|]; [|left; reflexivity].
    destruct (is_finite (JSProgram.to_number result)) eqn:Hfin;
      [|left; reflexivity].
    right. exists (JSProgram.to_number result).
    split; [exact Hfin|reflexivity]. }
  split; [intros x Hv Hint Hlt; apply format_result_integer; assumption|].
  split.
  { intros x Hv Hint Hlt. unfold format_result. rewrite Hint.
    apply toString_integer_signed; assumption. }
  split.
  { intros x Hv Hint Hge. unfold format_result. rewrite Hint.
    apply toString_large_integer; assumption. }
  split; [repeat split; vm_compute; reflexivity|].
  split; [|repeat split; vm_compute; reflexivity].
  intros s m e Hv Hint. cbn [valid_binary] in Hv.
  pose proof (parseFloat_toFixed s m e Hv Hint) as Hp.
  unfold format_result. rewrite Hint, Hp.
  assert (Hden : 0 < snd (ratio_of m e)).
  { unfold ratio_of. destruct (Z.leb_spec 0 e); cbn [snd]; [lia|].
    apply Z.pow_pos_nonneg; lia. }
  destruct (ratio_of m e) as [num den]. cbn [snd] in Hden.
  exists ((2 * num * 10 ^ 10 + den) / (2 * den)). split; [|reflexivity].
  pose proof (Z.div_mod (2 * num * 10 ^ 10 + den) (2 * den) ltac:(lia)) as Hdm.
  pose proof (Z.mod_pos_bound (2 * num * 10 ^ 10 + den) (2 * den) ltac:(lia)) as Hmb.
  set (q := (2 * num * 10 ^ 10 + den) / (2 * den)) in *.
  set (r := (2 * num * 10 ^ 10 + den) mod (2 * den)) in *.
  set (A := 2 * num * 10 ^ 10 + den) in *.
  nia.
Qed.

End Results.

(** C4 at concrete Numbers: the integer -42, and the quotient 1/3, which
    is no integer. *)
Lemma evaluateExpression_results_witness :
  format_result (sub (of_Z 0) (of_Z 42)) = js "-42"
  /\ div (of_Z 1) (of_Z 3) = S754_finite false 6004799503160661 (-54)
  /\ exists n : Z,
       2 * n * 2 ^ 54 <= 2 * 6004799503160661 * 10 ^ 10 + 2 ^ 54
                      < 2 * (n + 1) * 2 ^ 54
       /\ format_result (S754_finite false 6004799503160661 (-54))
          = toString (of_decimal false n (-10)).
Proof.
  destruct (evaluateExpression_results JSProgram.integral_pow)
    as (_ & _ & Hint & _ & _ & _ & Hfrac & _).
  split; [|split; [vm_compute; reflexivity|]].
  - apply (Hint (sub (of_Z 0) (of_Z 42))); vm_compute; reflexivity.
  - apply (Hfrac false 6004799503160661%positive (-54)); vm_compute; reflexivity.
Defined.

(** ** The operator keys *)

Section OperatorKeys.
Variable host_pow : number -> number -> number.


End OperatorKeys.

